(** * logrefactor: the collector and the transformer, embedded in Rocq

    The Go program has two passes.  [collector] walks the syntax trees of
    the source files, finds the logging calls and exports one catalog row
    per call.  [transformer] reads the edited catalog back, generates a
    structured logging call per row and splices it over the original call.

    Go strings are byte strings; they are [string] here (a list of 8-bit
    [ascii]).  The functions of Go's [strings] package are written out on
    bytes.  [TrimSpace], [ToLower], [Title] and [Fields] treat non-ASCII
    runes specially in Go; their models below agree with Go on ASCII text,
    and the general theorems that depend on them say so with [ascii_text].

    Go's [int] is taken as 64 bits wide and is a [Z] here; the only place
    where the width shows is [Atoi]. *)

From stdpp Require Import gmap strings list.
From Stdlib Require Import ZArith Ascii String DecimalString DecimalZ DecimalPos Lia.


Local Open Scope Z_scope.
Set Warnings "-register-all".

(** ** Outcomes of fallible code *)

(** A Go function returning [(T, error)]. *)
Inductive result (A : Type) : Type :=
| Ok (a : A)
| Err (msg : string).
Arguments Ok {A} a.
Arguments Err {A} msg.

(** ** Package [strings] *)

Module strings.

Definition len (s : string) : Z := Z.of_nat (String.length s).

(** [s[n:]] for [0 <= n <= len(s)], on a natural number. *)
Fixpoint drop (n : nat) (s : string) : string :=
  match n, s with
  | O, _ => s
  | S k, String _ r => drop k r
  | S _, EmptyString => EmptyString
  end.

(** [s[:n]] for [0 <= n <= len(s)], on a natural number. *)
Fixpoint take (n : nat) (s : string) : string :=
  match n, s with
  | O, _ => EmptyString
  | S k, String c r => String c (take k r)
  | S _, EmptyString => EmptyString
  end.

(** The slice expressions [s[:hi]] and [s[lo:]]: Go panics when the bound
    is outside [0 .. len(s)]; the panic is [None]. *)
Definition slice_to (s : string) (hi : Z) : option string :=
  if (0 <=? hi) && (hi <=? len s) then Some (take (Z.to_nat hi) s) else None.

Definition slice_from (s : string) (lo : Z) : option string :=
  if (0 <=? lo) && (lo <=? len s) then Some (drop (Z.to_nat lo) s) else None.

Definition HasPrefix (s p : string) : bool := String.prefix p s.

Definition HasSuffix (s p : string) : bool :=
  (String.length p <=? String.length s)%nat
  && String.eqb (drop (String.length s - String.length p) s) p.

Definition TrimPrefix (s p : string) : string :=
  if HasPrefix s p then drop (String.length p) s else s.

(** [strings.Index]: the byte offset of the first occurrence, or -1. *)
Fixpoint Index (s sub : string) : Z :=
  if String.prefix sub s then 0
  else match s with
       | EmptyString => -1
       | String _ r => let i := Index r sub in if i <? 0 then -1 else i + 1
       end.

Definition Contains (s sub : string) : bool := 0 <=? Index s sub.

(** [strings.Split(s, sep)] for a separator of one byte, which is what
    every call site passes; the separator is given as that byte. *)
Fixpoint Split (s : string) (sep : ascii) : list string :=
  match s with
  | EmptyString => [EmptyString]
  | String c r =>
      match Split r sep with
      | h :: t => if Ascii.eqb c sep then EmptyString :: h :: t else String c h :: t
      | [] => []
      end
  end.

(** [strings.SplitN(s, sep, 2)]: cut at the first occurrence of [sep]. *)
Definition SplitN2 (s sep : string) : list string :=
  let i := Index s sep in
  if i <? 0 then [s]
  else [take (Z.to_nat i) s; drop (Z.to_nat i + String.length sep) s].

Fixpoint Join (parts : list string) (sep : string) : string :=
  match parts with
  | [] => EmptyString
  | [p] => p
  | p :: rest => p +:+ sep +:+ Join rest sep
  end.

Fixpoint TrimLeftFunc (f : ascii -> bool) (s : string) : string :=
  match s with
  | EmptyString => EmptyString
  | String c r => if f c then TrimLeftFunc f r else s
  end.

Fixpoint TrimRightFunc (f : ascii -> bool) (s : string) : string :=
  match s with
  | EmptyString => EmptyString
  | String c r =>
      match TrimRightFunc f r with
      | EmptyString => if f c then EmptyString else String c EmptyString
      | r' => String c r'
      end
  end.

Fixpoint mem (c : ascii) (cutset : string) : bool :=
  match cutset with
  | EmptyString => false
  | String d r => Ascii.eqb c d || mem c r
  end.

(** [strings.Trim(s, cutset)] for an ASCII cutset. *)
Definition Trim (s cutset : string) : string :=
  TrimRightFunc (fun c => mem c cutset) (TrimLeftFunc (fun c => mem c cutset) s).

(** The ASCII white space of [unicode.IsSpace]: \t \n \v \f \r and space. *)
Definition isSpace (c : ascii) : bool :=
  let n := N_of_ascii c in ((9 <=? n) && (n <=? 13) || (n =? 32))%N.

Definition TrimSpace (s : string) : string :=
  TrimRightFunc isSpace (TrimLeftFunc isSpace s).

Definition lower (c : ascii) : ascii :=
  let n := N_of_ascii c in
  if ((65 <=? n) && (n <=? 90))%N then ascii_of_N (n + 32) else c.

Definition upper (c : ascii) : ascii :=
  let n := N_of_ascii c in
  if ((97 <=? n) && (n <=? 122))%N then ascii_of_N (n - 32) else c.

Fixpoint ToLower (s : string) : string :=
  match s with
  | EmptyString => EmptyString
  | String c r => String (lower c) (ToLower r)
  end.

Fixpoint ToUpper (s : string) : string :=
  match s with
  | EmptyString => EmptyString
  | String c r => String (upper c) (ToUpper r)
  end.

(** [isSeparator] of package strings, on ASCII: letters, digits and the
    underscore are not separators, every other byte is. *)
Definition isSeparator (c : ascii) : bool :=
  let n := N_of_ascii c in
  negb (((48 <=? n) && (n <=? 57)) || ((65 <=? n) && (n <=? 90))
        || ((97 <=? n) && (n <=? 122)) || (n =? 95))%N.

Fixpoint Title_from (prev : ascii) (s : string) : string :=
  match s with
  | EmptyString => EmptyString
  | String c r => String (if isSeparator prev then upper c else c) (Title_from c r)
  end.

(** [strings.Title]: the first letter of every word in upper case. *)
Definition Title (s : string) : string := Title_from " "%char s.

(** [strings.Fields]: the maximal runs of bytes that are not white space. *)
Fixpoint Fields_from (cur : option string) (s : string) : list string :=
  match s with
  | EmptyString => match cur with Some w => [w] | None => [] end
  | String c r =>
      if isSpace c
      then match cur with Some w => w :: Fields_from None r | None => Fields_from None r end
      else Fields_from (Some (match cur with Some w => w +:+ String c EmptyString
                                           | None => String c EmptyString end)) r
  end.

Definition Fields (s : string) : list string := Fields_from None s.

(** Text on which the byte models above are Go's functions. *)
Fixpoint ascii_text (s : string) : bool :=
  match s with
  | EmptyString => true
  | String c r => (N_of_ascii c <? 128)%N && ascii_text r
  end.

End strings.

(** ** Package [strconv] *)

Module strconv.

(** [strconv.Itoa], also [fmt.Sprintf("%d", n)]. *)
Definition Itoa (n : Z) : string := NilZero.string_of_int (Z.to_int n).

Definition digit (c : ascii) : option Z :=
  let n := N_of_ascii c in
  if ((48 <=? n) && (n <=? 57))%N then Some (Z.of_N n - 48) else None.

Fixpoint digits (acc : Z) (s : string) : option Z :=
  match s with
  | EmptyString => Some acc
  | String c r => match digit c with
                  | Some d => digits (acc * 10 + d) r
                  | None => None
                  end
  end.

(** The value of an optional sign followed by one or more decimal
    digits; [None] is Atoi's syntax error. *)
Definition parse_decimal (s : string) : option Z :=
  match s with
  | EmptyString => None
  | String c r =>
      if Ascii.eqb c "-"%char then
        match r with EmptyString => None | _ => Z.opp <$> digits 0 r end
      else if Ascii.eqb c "+"%char then
        match r with EmptyString => None | _ => digits 0 r end
      else digits 0 s
  end.

Definition maxInt : Z := 2 ^ 63 - 1.
Definition minInt : Z := - 2 ^ 63.

(** [strconv.Atoi]: the value and whether the error is nil.  A syntax
    error gives 0; a value out of range gives the nearest bound. *)
Definition Atoi (s : string) : Z * bool :=
  match parse_decimal s with
  | None => (0, false)
  | Some n =>
      if n <? minInt then (minInt, false)
      else if maxInt <? n then (maxInt, false)
      else (n, true)
  end.

End strconv.

(** The double quote, and the cutset of the three Go quote bytes (double
    quote, single quote, back quote) that both passes trim with. *)
Definition dq : string := String "034" EmptyString.
Definition quoteCutset : string := String "034" "'`".

(** [fmt.Sprintf] with the verb [%04d]. *)
Definition pad4 (n : Z) : string :=
  if n <? 0 then
    let d := strconv.Itoa (- n) in
    "-" +:+ strings.drop (String.length d) "000" +:+ d
  else
    let d := strconv.Itoa n in
    strings.drop (String.length d) "0000" +:+ d.

(** ** Package [go/ast], as far as the two passes look at it *)

Module token.

(** [token.Token] kinds of a basic literal. *)
Inductive Kind : Type := INT | FLOAT | IMAG | CHAR | STRING.

(** [token.Position]: 1-based line and byte column. *)
Record Position : Type := { Line : Z; Column : Z }.

End token.

Module ast.
Import token.

(** The nodes of a file.  The two passes distinguish the expression nodes
    below; every other node (declaration, statement, any other expression)
    is an [OtherNode] with the Go type name that [%T] prints and its
    children in the order [ast.Walk] visits them.  A call expression
    carries [fset.Position(call.Pos())] and [fset.Position(call.End())]. *)
Inductive Expr : Type :=
| BasicLit (kind : Kind) (value : string)
| Ident (name : string)
| SelectorExpr (x : Expr) (sel : string)
| CallExpr (pos end_ : Position) (fn : Expr) (args : list Expr)
| IndexExpr (x index : Expr)
| UnaryExpr (op : string) (x : Expr)
| BinaryExpr (x : Expr) (op : string) (y : Expr)
| OtherNode (tyname : string) (children : list Expr).

(** [*ast.File]: the package name and the top-level nodes. *)
Record File : Type := { PkgName : string; Decls : list Expr }.

(** The call expressions of a tree in the order in which
    [ast.Inspect(node, f)] hands them to an [f] that always returns true:
    depth first, a node before its children. *)
Fixpoint callExprs (e : Expr) : list Expr :=
  match e with
  | BasicLit _ _ | Ident _ => []
  | SelectorExpr x _ => callExprs x
  | CallExpr _ _ fn args => e :: callExprs fn ++ flat_map callExprs args
  | IndexExpr x i => callExprs x ++ callExprs i
  | UnaryExpr _ x => callExprs x
  | BinaryExpr x _ y => callExprs x ++ callExprs y
  | OtherNode _ cs => flat_map callExprs cs
  end.

Definition fileCalls (f : File) : list Expr := flat_map callExprs (Decls f).

Definition callPos (e : Expr) : Position :=
  match e with CallExpr p _ _ _ => p | _ => {| Line := 0; Column := 0 |} end.
Definition callEnd (e : Expr) : Position :=
  match e with CallExpr _ q _ _ => q | _ => {| Line := 0; Column := 0 |} end.
Definition callFun (e : Expr) : Expr :=
  match e with CallExpr _ _ fn _ => fn | _ => e end.
Definition callArgs (e : Expr) : list Expr :=
  match e with CallExpr _ _ _ args => args | _ => [] end.

End ast.

(** ** The process and its surroundings *)

(** The files on disk by path, the paths that cannot be written, the paths
    that the process has written, and what it has written to the standard
    output and the standard error, all oldest first. *)
Record World : Type := {
  files : gmap string string;
  locked : gset string;
  writes : list string;
  stdout : list string;
  stderr : list string
}.

Definition print (text : string) (w : World) : World :=
  {| files := files w; locked := locked w; writes := writes w;
     stdout := stdout w ++ [text]; stderr := stderr w |}.

Definition warn (text : string) (w : World) : World :=
  {| files := files w; locked := locked w; writes := writes w;
     stdout := stdout w; stderr := stderr w ++ [text] |}.

(** [os.WriteFile] *)
Definition writeFile (path content : string) (w : World) : result World :=
  if decide (path ∈ locked w) then Err ("open " +:+ path +:+ ": permission denied")
  else Ok {| files := <[path := content]> (files w); locked := locked w;
             writes := writes w ++ [path]; stdout := stdout w; stderr := stderr w |}.

(** [os.ReadFile] *)
Definition readFile (path : string) (w : World) : result string :=
  match files w !! path with
  | Some content => Ok content
  | None => Err ("open " +:+ path +:+ ": no such file or directory")
  end.

(** The line feed. *)
Definition nl : string := String "010" EmptyString.

(** [parser.ParseFile] of package go/parser, on the path and the content:
    the syntax tree or the parse error. *)
Class GoParser : Type := ParseFile : string -> string -> result ast.File.

(** * Package [collector] *)

Module collector.
Import token ast.

(** [Argument]: one argument passed to the log function. *)
Record Argument : Type := {
  Index : Z;
  Expression : string;
  VarName : string;
  Type_ : string;
  FormatVerb : string;
  SuggestedKey : string
}.

(** [LogEntry]: one log statement with its arguments. *)
Record LogEntry : Type := {
  ID : string;
  FilePath : string;
  Line : Z;
  Column : Z;
  Package : string;
  OriginalCall : string;
  LogLevel : string;
  MessageTemplate : string;
  Arguments : list Argument;
  NewCall : string;
  NewMessage : string;
  StructuredFields : string;
  Notes : string
}.

(** [formatExpr]: an expression as text. *)
Fixpoint formatExpr (expr : Expr) : string :=
  match expr with
  | BasicLit _ value => value
  | Ident name => name
  | SelectorExpr x sel => formatExpr x +:+ "." +:+ sel
  | CallExpr _ _ fn _ => formatExpr fn +:+ "()"
  | IndexExpr x _ => formatExpr x +:+ "[...]"
  | UnaryExpr op x => op +:+ formatExpr x
  | BinaryExpr x op y => formatExpr x +:+ " " +:+ op +:+ " " +:+ formatExpr y
  | OtherNode tyname _ => "<" +:+ tyname +:+ ">"
  end.

(** [getFunctionName], applied to [call.Fun]. *)
Definition getFunctionName (call : Expr) : string :=
  match callFun call with
  | SelectorExpr (Ident name) sel => name +:+ "." +:+ sel
  | SelectorExpr x sel => formatExpr (SelectorExpr x sel)
  | Ident name => name
  | _ => ""
  end.

Definition levels : list string :=
  ["trace"; "debug"; "info"; "warn"; "warning"; "error"; "fatal"; "panic"].

(** [strings.ToUpper(level[:1]) + level[1:]] *)
Definition capitalize (level : string) : string :=
  strings.ToUpper (strings.take 1 level) +:+ strings.drop 1 level.

(** [extractLogLevel] *)
Definition extractLogLevel (funcName : string) : string :=
  let funcLower := strings.ToLower funcName in
  match List.find (fun level => strings.Contains funcLower level) levels with
  | Some level => capitalize level
  | None => if strings.Contains funcLower "print" then "Info" else "Unknown"
  end.

(** *** The format verb pattern

    [%[-+# 0]*[\d]*\.?[\d]*[vTtbcdoqxXUeEfFgGsp]].  No flag, digit or
    dot is a verb letter, so a match at a [%] is the greedy one or none. *)

Definition isFlag (c : ascii) : bool := strings.mem c "-+# 0".
Definition isDigit (c : ascii) : bool :=
  let n := N_of_ascii c in ((48 <=? n) && (n <=? 57))%N.
Definition isVerbLetter (c : ascii) : bool := strings.mem c "vTtbcdoqxXUeEfFgGsp".

(** The number of leading bytes of [s] that satisfy [f]. *)
Fixpoint span (f : ascii -> bool) (s : string) : nat :=
  match s with
  | String c r => if f c then S (span f r) else O
  | EmptyString => O
  end.

(** The length of the match of the pattern at the start of [s], if any. *)
Definition matchVerb (s : string) : option nat :=
  match s with
  | String "%" r0 =>
      let n1 := span isFlag r0 in
      let r1 := strings.drop n1 r0 in
      let n2 := span isDigit r1 in
      let r2 := strings.drop n2 r1 in
      let n3 := match r2 with String "." _ => 1%nat | _ => O end in
      let r3 := strings.drop n3 r2 in
      let n4 := span isDigit r3 in
      match strings.drop n4 r3 with
      | String c _ => if isVerbLetter c then Some (S (n1 + n2 + n3 + n4 + 1)) else None
      | EmptyString => None
      end
  | _ => None
  end.

(** [re.FindAllString(s, -1)]: leftmost matches, none overlapping.
    [skip] counts the bytes of the last match still to step over. *)
Fixpoint findAll (skip : nat) (s : string) : list string :=
  match s with
  | EmptyString => []
  | String _ r =>
      match skip with
      | S k => findAll k r
      | O => match matchVerb s with
             | Some n => strings.take n s :: findAll (n - 1) r
             | None => findAll O r
             end
      end
  end.

(** [extractFormatVerbs] *)
Definition extractFormatVerbs (formatStr : string) : list string :=
  let cleanStr := strings.Trim formatStr quoteCutset in
  findAll O cleanStr.

(** [extractVarName]: the text after the last dot. *)
Definition extractVarName (expr : string) : string :=
  List.last (strings.Split expr ".") expr.

(** [inferType] *)
Definition inferType (expr : Expr) : string :=
  match expr with
  | BasicLit INT _ => "int"
  | BasicLit FLOAT _ => "float"
  | BasicLit STRING _ => "string"
  | BasicLit CHAR _ => "rune"
  | BasicLit IMAG _ => "unknown"
  | Ident name =>
      if String.eqb name "true" || String.eqb name "false" then "bool"
      else if String.eqb name "nil" then "nil"
      else if strings.HasPrefix name "is" || strings.HasPrefix name "has" then "bool"
      else if String.eqb name "err" || strings.HasSuffix name "Error" then "error"
      else "unknown"
  | CallExpr _ _ _ _ => "func_result"
  | _ => "unknown"
  end.

Definition isUpper (c : ascii) : bool :=
  let n := N_of_ascii c in ((65 <=? n) && (n <=? 90))%N.

Fixpoint underscored (first : bool) (s : string) : string :=
  match s with
  | EmptyString => EmptyString
  | String c r =>
      if negb first && isUpper c then String "_" (String c (underscored false r))
      else String c (underscored false r)
  end.

(** [toSnakeCase] *)
Definition toSnakeCase (s : string) : string :=
  strings.ToLower (underscored true s).

(** [generateFieldKey] *)
Definition generateFieldKey (varName formatVerb inferredType : string) : string :=
  let key := toSnakeCase varName in
  let key := strings.TrimPrefix key "p_" in
  let key := strings.TrimPrefix key "m_" in
  if String.eqb key "err" || String.eqb key "error" then "error"
  else if String.eqb key "msg" || String.eqb key "message" then "message"
  else if String.eqb key "id" then "id"
  else if String.eqb key "name" then "name"
  else if String.eqb key "status" || String.eqb key "state" then "status"
  else key.

(** The body of the loop of [extractLogDetails] at [i], with [i - 1] as
    [idx]. *)
Definition analyseArgument (formatVerbs : list string) (idx : nat) (arg : Expr) : Argument :=
  let expr := formatExpr arg in
  let varName := extractVarName expr in
  let inferredType := inferType arg in
  let formatVerb := nth idx formatVerbs "" in
  let suggestedKey := generateFieldKey varName formatVerb inferredType in
  {| Index := Z.of_nat idx; Expression := expr; VarName := varName;
     Type_ := inferredType; FormatVerb := formatVerb; SuggestedKey := suggestedKey |}.

(** The loop [for i := 1; i < len(call.Args); i++], from [idx = i - 1]. *)
Fixpoint analyseArguments (formatVerbs : list string) (idx : nat) (args : list Expr)
  : list Argument :=
  match args with
  | [] => []
  | arg :: rest => analyseArgument formatVerbs idx arg :: analyseArguments formatVerbs (S idx) rest
  end.

(** Whether a candidate carries a format verb. *)
Definition carriesVerb (a : Argument) : bool := negb (String.eqb (FormatVerb a) "").

(** [extractLogDetails] *)
Definition extractLogDetails (call : Expr) : string * list Argument :=
  match callArgs call with
  | [] => ("", [])
  | firstArg :: rest =>
      let '(messageTemplate, formatVerbs) :=
        match firstArg with
        | BasicLit STRING value => (value, extractFormatVerbs value)
        | _ => (formatExpr firstArg, [])
        end in
      (messageTemplate, analyseArguments formatVerbs O rest)
  end.

(** The entry that the visitor of [parseFile] appends for a matching call. *)
Definition makeEntry (filePath packageName : string) (entryID : Z) (call : Expr) : LogEntry :=
  let funcName := getFunctionName call in
  let pos := callPos call in
  let '(messageTemplate, arguments) := extractLogDetails call in
  {| ID := "LOG-" +:+ pad4 entryID;
     FilePath := filePath;
     Line := token.Line pos;
     Column := token.Column pos;
     Package := packageName;
     OriginalCall := funcName;
     LogLevel := extractLogLevel funcName;
     MessageTemplate := messageTemplate;
     Arguments := arguments;
     NewCall := "";
     NewMessage := "";
     StructuredFields := "";
     Notes := "" |}.

(** The visitor of [parseFile] over the calls of the file; [logPattern] is
    [logPattern.MatchString] of the compiled pattern.  The counter
    [entryID] is threaded through. *)
Fixpoint scanCalls (logPattern : string -> bool) (filePath packageName : string)
  (entryID : Z) (calls : list Expr) : list LogEntry * Z :=
  match calls with
  | [] => ([], entryID)
  | call :: rest =>
      let funcName := getFunctionName call in
      if String.eqb funcName "" || negb (logPattern funcName)
      then scanCalls logPattern filePath packageName entryID rest
      else
        let '(entries, next) := scanCalls logPattern filePath packageName (entryID + 1) rest in
        (makeEntry filePath packageName entryID call :: entries, next)
  end.

(** [parseFile]: the entries of one file and the next identifier. *)
Definition parseFile `{GoParser} (w : World) (filePath : string)
  (logPattern : string -> bool) (entryID : Z) : result (list LogEntry * Z) :=
  match readFile filePath w with
  | Err e => Err e
  | Ok content =>
      match ParseFile filePath content with
      | Err e => Err e
      | Ok node =>
          Ok (scanCalls logPattern filePath (PkgName node) entryID (fileCalls node))
      end
  end.

(** The callback that [Collect] hands to [filepath.Walk], run over the
    regular files [paths] that the walk visits, in its order.  A file
    that does not parse is reported and skipped. *)
Fixpoint scan `{GoParser} (w : World) (logPattern : string -> bool) (entryID : Z)
  (paths : list string) : list LogEntry * World :=
  match paths with
  | [] => ([], w)
  | path :: rest =>
      if negb (strings.HasSuffix path ".go") then scan w logPattern entryID rest
      else
        match parseFile w path logPattern entryID with
        | Err e =>
            scan (warn ("Warning: failed to parse " +:+ path +:+ ": " +:+ e +:+ nl) w)
              logPattern entryID rest
        | Ok (fileEntries, next) =>
            let '(entries, w') := scan w logPattern next rest in
            ((fileEntries ++ entries)%list, w')
        end
  end.

(** [formatArgumentDetails] *)
Definition formatDetail (arg : Argument) : string :=
  let detail := SuggestedKey arg +:+ "(" +:+ Type_ arg +:+ ")=" +:+ Expression arg in
  if String.eqb (FormatVerb arg) "" then detail
  else detail +:+ "[" +:+ FormatVerb arg +:+ "]".

Definition formatArgumentDetails (args : list Argument) : string :=
  strings.Join (map formatDetail args) "; ".

Definition header : list string :=
  ["ID"; "FilePath"; "Line"; "Column"; "Package"; "OriginalCall"; "LogLevel";
   "MessageTemplate"; "ArgumentCount"; "ArgumentDetails"; "NewCall"; "NewMessage";
   "StructuredFields"; "Notes"].

(** The row that [exportToCSV] writes for an entry. *)
Definition exportRow (entry : LogEntry) : list string :=
  [ID entry; FilePath entry; strconv.Itoa (Line entry); strconv.Itoa (Column entry);
   Package entry; OriginalCall entry; LogLevel entry; MessageTemplate entry;
   strconv.Itoa (Z.of_nat (List.length (Arguments entry)));
   formatArgumentDetails (Arguments entry);
   NewCall entry; NewMessage entry; StructuredFields entry; Notes entry].

(** The records that [exportToCSV] hands to the CSV writer. *)
Definition exportRecords (entries : list LogEntry) : list (list string) :=
  header :: map exportRow entries.

End collector.

(** * Package [transformer] *)

Module transformer.
Import token ast.

(** [LogUpdate]: one catalog row to apply. *)
Record LogUpdate : Type := {
  ID : string;
  FilePath : string;
  Line : Z;
  Column : Z;
  OriginalCall : string;
  LogLevel : string;
  MessageTemplate : string;
  ArgumentDetails : string;
  NewCall : string;
  NewMessage : string;
  StructuredFields : string
}.

(** [FieldMapping]: one structured logging field. *)
Record FieldMapping : Type := {
  Key : string;
  Expression : string;
  Type_ : string
}.

(** [TemplateConfig] *)
Record TemplateConfig : Type := {
  Style : string;
  LoggerVar : string;
  Template : string
}.

(** What the transformer takes from other packages and from the runtime.
    - [json_Unmarshal_fields]: [json.Unmarshal] into a [[]FieldMapping];
      [None] when it returns an error.
    - [json_Unmarshal_config]: [json.Unmarshal] into a [TemplateConfig].
    - [template_Execute tmpl logger level message fields]: parsing the
      text/template [tmpl] and executing it on the map of the four values.
    - [printer_Fprint]: the call expression printed by go/printer.
    - [filepath_Base]: the last element of a path.
    - [csv_ReadAll]: the records of a CSV text.
    - [range_files]: the order in which a [range] over the map of updates
      by file yields its entries; Go leaves it open, any order of the
      entries can occur. *)
Class Env : Type := {
  json_Unmarshal_fields : string -> option (list FieldMapping);
  json_Unmarshal_config : string -> result TemplateConfig;
  template_Execute : string -> string -> string -> string -> list FieldMapping -> result string;
  printer_Fprint : Expr -> string;
  filepath_Base : string -> string;
  csv_ReadAll : string -> result (list (list string));
  range_files : gmap string (list LogUpdate) -> list (string * list LogUpdate);
  range_files_perm : forall m, range_files m ≡ₚ map_to_list m
}.

(** How a run, or the transformation of one file, ends: with a nil error,
    with an error, or in a run-time panic. *)
Inductive status : Type :=
| Done
| Failed (err : string)
| Panicked.

(** [loadTemplateConfig] *)
Definition loadTemplateConfig `{Env} (w : World) (configFile : string) : result TemplateConfig :=
  if String.eqb configFile "" then Ok {| Style := "slog"; LoggerVar := "log"; Template := "" |}
  else match readFile configFile w with
       | Err e => Err e
       | Ok data => json_Unmarshal_config data
       end.

(** [record[k]] on a row that is long enough. *)
Definition cell (record : list string) (k : nat) : string := nth k record "".

(** The body of the loop of [loadUpdates] on the row [record] of index
    [i]: the updates and the warnings so far, extended. *)
Definition loadRow (i : Z) (record : list string) (acc : list LogUpdate * list string)
  : list LogUpdate * list string :=
  let '(updates, warnings) := acc in
  if (List.length record <? 13)%nat then
    (updates,
     (warnings ++ ["Warning: skipping malformed row " +:+ strconv.Itoa (i + 1) +:+ nl])%list)
  else
    let line := fst (strconv.Atoi (cell record 2)) in
    let column := fst (strconv.Atoi (cell record 3)) in
    let update := {| ID := cell record 0;
                     FilePath := cell record 1;
                     Line := line;
                     Column := column;
                     OriginalCall := cell record 5;
                     LogLevel := cell record 6;
                     MessageTemplate := cell record 7;
                     ArgumentDetails := cell record 9;
                     NewCall := cell record 10;
                     NewMessage := cell record 11;
                     StructuredFields := cell record 12 |} in
    ((updates ++ [update])%list, warnings).

(** The loop [for i := 1; i < len(records); i++] from the row of index [i]. *)
Fixpoint loadRows (i : Z) (rows : list (list string)) (acc : list LogUpdate * list string)
  : list LogUpdate * list string :=
  match rows with
  | [] => acc
  | record :: rest => loadRows (i + 1) rest (loadRow i record acc)
  end.

(** [loadUpdates] after [reader.ReadAll]: the updates and the warnings
    written to the standard error. *)
Definition loadRecords (records : list (list string)) : result (list LogUpdate * list string) :=
  if (List.length records <? 2)%nat then Err "CSV file is empty or has no data rows"
  else Ok (loadRows 1 (List.tl records) ([], [])).

(** [loadUpdates] *)
Definition loadUpdates `{Env} (w : World) (csvFile : string)
  : result (list LogUpdate * list string) :=
  match readFile csvFile w with
  | Err e => Err e
  | Ok text =>
      match csv_ReadAll text with
      | Err e => Err e
      | Ok records => loadRecords records
      end
  end.

(** The test of [Transform] under which a row is left out. *)
Definition skipped (update : LogUpdate) : bool :=
  (String.eqb (NewMessage update) "" && String.eqb (NewCall update) "")
  || (String.eqb (NewMessage update) (MessageTemplate update)
      && String.eqb (NewCall update) (OriginalCall update)).

(** The first loop of [Transform]: the updates grouped by file. *)
Fixpoint groupUpdates (updates : list LogUpdate)
  (fileUpdates : gmap string (list LogUpdate)) : gmap string (list LogUpdate) :=
  match updates with
  | [] => fileUpdates
  | update :: rest =>
      if skipped update then groupUpdates rest fileUpdates
      else groupUpdates rest
             (<[FilePath update := (default [] (fileUpdates !! FilePath update) ++ [update])%list]>
                fileUpdates)
  end.

(** *** Resolving the fields of a row *)

(** The body of the loop of [parseSimpleFields] on one segment: the field
    it appends, if any. *)
Definition parseSimpleField (part : string) : option FieldMapping :=
  let part := strings.TrimSpace part in
  if String.eqb part "" then None
  else
    let '(key, expr) :=
      if strings.Contains part "=" then
        let kv := strings.SplitN2 part "=" in
        (strings.TrimSpace (nth 0 kv ""), strings.TrimSpace (nth 1 kv ""))
      else if strings.Contains part ":" then
        let kv := strings.SplitN2 part ":" in
        (strings.TrimSpace (nth 0 kv ""), strings.TrimSpace (nth 1 kv ""))
      else (part, part) in
    Some {| Key := key; Expression := expr; Type_ := "unknown" |}.

(** The segments that [parseSimpleFields] loops over. *)
Definition simpleParts (fieldsStr : string) : list string :=
  let parts := strings.Split fieldsStr ";" in
  if (List.length parts =? 1)%nat then strings.Split fieldsStr "," else parts.

(** [parseSimpleFields] *)
Definition parseSimpleFields (fieldsStr : string) : list FieldMapping :=
  omap parseSimpleField (simpleParts fieldsStr).

(** The body of the loop of [autoGenerateFieldsFromArguments] on one
    segment: the field it appends, if any. *)
Definition autoField (part : string) : option FieldMapping :=
  let part := strings.TrimSpace part in
  if String.eqb part "" then None
  else
    let openParen := strings.Index part "(" in
    if openParen =? -1 then None
    else
      let key := strings.TrimSpace (strings.take (Z.to_nat openParen) part) in
      let closeParen := strings.Index part ")" in
      if (closeParen =? -1) || (closeParen <=? openParen) then None
      else
        let typ := strings.TrimSpace
                     (strings.take (Z.to_nat (closeParen - (openParen + 1)))
                        (strings.drop (Z.to_nat (openParen + 1)) part)) in
        let equals := strings.Index part "=" in
        if (equals =? -1) || (equals <=? closeParen) then None
        else
          let exprPart := strings.TrimSpace (strings.drop (Z.to_nat (equals + 1)) part) in
          let openBracket := strings.Index exprPart "[" in
          let expr := if negb (openBracket =? -1)
                      then strings.TrimSpace (strings.take (Z.to_nat openBracket) exprPart)
                      else exprPart in
          Some {| Key := key; Expression := expr; Type_ := typ |}.

(** [autoGenerateFieldsFromArguments] *)
Definition autoGenerateFieldsFromArguments (argumentDetails : string) : list FieldMapping :=
  omap autoField (strings.Split argumentDetails ";").

(** The first statement of [generateStructuredLogCall]: the fields of the
    row. *)
Definition resolveFields `{Env} (update : LogUpdate) (autoMap : bool) : list FieldMapping :=
  if negb (String.eqb (StructuredFields update) "") then
    match json_Unmarshal_fields (StructuredFields update) with
    | Some fields => fields
    | None => parseSimpleFields (StructuredFields update)
    end
  else if autoMap && negb (String.eqb (ArgumentDetails update) "") then
    autoGenerateFieldsFromArguments (ArgumentDetails update)
  else [].

(** *** The styles *)

(** [strings.ToLower(level)], with warning as warn. *)
Definition lowerLevel (level : string) : string :=
  let levelFunc := strings.ToLower level in
  if String.eqb levelFunc "warning" then "warn" else levelFunc.

(** [strings.Title(strings.ToLower(level))], with Warning as Warn. *)
Definition titleLevel (level : string) : string :=
  let levelFunc := strings.Title (strings.ToLower level) in
  if String.eqb levelFunc "Warning" then "Warn" else levelFunc.

(** The first part of the slog and zap calls: the receiver, the method and
    the quoted message, the parenthesis still open. *)
Definition callHead (loggerVar levelFunc message : string) : string :=
  loggerVar +:+ "." +:+ levelFunc +:+ "(" +:+ dq +:+ message +:+ dq.

(** [generateSlogCall] *)
Definition generateSlogCall (loggerVar level message : string) (fields : list FieldMapping)
  : string :=
  let levelFunc := lowerLevel level in
  let parts :=
    callHead loggerVar levelFunc message
    :: map (fun field => "slog.Any(" +:+ dq +:+ Key field +:+ dq +:+ ", "
                         +:+ Expression field +:+ ")") fields in
  strings.Join parts ", " +:+ ")".

(** [getZapFieldFunc] *)
Definition getZapFieldFunc (typ : string) : string :=
  if String.eqb typ "string" then "String"
  else if String.eqb typ "int" then "Int"
  else if String.eqb typ "bool" then "Bool"
  else if String.eqb typ "error" then "Error"
  else "Any".

(** [getZerologFieldFunc] *)
Definition getZerologFieldFunc (typ : string) : string :=
  if String.eqb typ "string" then "Str"
  else if String.eqb typ "int" then "Int"
  else if String.eqb typ "bool" then "Bool"
  else if String.eqb typ "error" then "Err"
  else "Interface".

(** [generateZapCall] *)
Definition generateZapCall (loggerVar level message : string) (fields : list FieldMapping)
  : string :=
  let levelFunc := titleLevel level in
  let parts :=
    callHead loggerVar levelFunc message
    :: map (fun field => "zap." +:+ getZapFieldFunc (Type_ field) +:+ "(" +:+ dq
                         +:+ Key field +:+ dq +:+ ", " +:+ Expression field +:+ ")") fields in
  strings.Join parts ", " +:+ ")".

(** [generateZerologCall] *)
Definition generateZerologCall (loggerVar level message : string) (fields : list FieldMapping)
  : string :=
  let levelFunc := lowerLevel level in
  let parts :=
    ((loggerVar +:+ "." +:+ levelFunc +:+ "()")
     :: map (fun field => getZerologFieldFunc (Type_ field) +:+ "(" +:+ dq
                          +:+ Key field +:+ dq +:+ ", " +:+ Expression field +:+ ")") fields
     ++ ["Msg(" +:+ dq +:+ message +:+ dq +:+ ")"])%list in
  strings.Join parts ".".

(** [generateLogrusCall] *)
Definition generateLogrusCall (loggerVar level message : string) (fields : list FieldMapping)
  : string :=
  let levelFunc := titleLevel level in
  match fields with
  | [] => callHead loggerVar levelFunc message +:+ ")"
  | _ =>
      let fieldPairs :=
        map (fun field => dq +:+ Key field +:+ dq +:+ ": " +:+ Expression field) fields in
      loggerVar +:+ ".WithFields(" +:+ loggerVar +:+ ".Fields{"
      +:+ strings.Join fieldPairs ", " +:+ "})." +:+ levelFunc
      +:+ "(" +:+ dq +:+ message +:+ dq +:+ ")"
  end.

(** [generateCustomCall] *)
Definition generateCustomCall `{Env} (tmplStr loggerVar level message : string)
  (fields : list FieldMapping) : result string :=
  template_Execute tmplStr loggerVar level message fields.

(** The second statement of [generateStructuredLogCall]: the message of
    the row, NewMessage if provided and MessageTemplate otherwise, without
    the quotes around it. *)
Definition resolveMessage (update : LogUpdate) : string :=
  let message := if String.eqb (NewMessage update) "" then MessageTemplate update
                 else NewMessage update in
  strings.Trim message quoteCutset.

(** [generateStructuredLogCall] *)
Definition generateStructuredLogCall `{Env} (update : LogUpdate) (config : TemplateConfig)
  (autoMap : bool) : result string :=
  let fields := resolveFields update autoMap in
  let message := resolveMessage update in
  let style := Style config in
  if String.eqb style "slog" then
    Ok (generateSlogCall (LoggerVar config) (LogLevel update) message fields)
  else if String.eqb style "zap" then
    Ok (generateZapCall (LoggerVar config) (LogLevel update) message fields)
  else if String.eqb style "zerolog" then
    Ok (generateZerologCall (LoggerVar config) (LogLevel update) message fields)
  else if String.eqb style "logrus" then
    Ok (generateLogrusCall (LoggerVar config) (LogLevel update) message fields)
  else if String.eqb style "custom" then
    generateCustomCall (Template config) (LoggerVar config) (LogLevel update) message fields
  else Err ("unknown style: " +:+ style).

(** *** Patching the source *)

(** [formatCallExpr] *)
Definition formatCallExpr `{Env} (call : Expr) : string := printer_Fprint call.

(** [truncateCode] *)
Definition truncateCode (code : string) (maxLen : Z) : string :=
  let code := strings.Join (strings.Fields code) " " in
  if strings.len code <=? maxLen then code
  else strings.take (Z.to_nat (maxLen - 3)) code +:+ "...".

(** [lines[i]]: Go panics when the index is out of range. *)
Definition index (lines : list string) (i : Z) : option string :=
  if i <? 0 then None else lines !! Z.to_nat i.

(** [replaceCallExpr]: the new content; [None] is a run-time panic (an
    index or a slice bound out of range). *)
Definition replaceCallExpr (call : Expr) (newCode : string) (content : string)
  : option string :=
  let start := callPos call in
  let end_ := callEnd call in
  let lines := strings.Split content "010" in
  let n := Z.of_nat (List.length lines) in
  if (n <? token.Line start) || (n <? token.Line end_) then Some content
  else if token.Line start =? token.Line end_ then
    line ← index lines (token.Line start - 1);
    before ← strings.slice_to line (token.Column start - 1);
    after ← strings.slice_from line (token.Column end_ - 1);
    Some (strings.Join
            (<[Z.to_nat (token.Line start - 1) := before +:+ newCode +:+ after]> lines) nl)
  else
    firstLine ← index lines (token.Line start - 1);
    lastLine ← index lines (token.Line end_ - 1);
    before ← strings.slice_to firstLine (token.Column start - 1);
    after ← strings.slice_from lastLine (token.Column end_ - 1);
    let newLine := before +:+ newCode +:+ after in
    Some (strings.Join
            (take (Z.to_nat (token.Line start - 1)) lines
             ++ newLine :: drop (Z.to_nat (token.Line end_)) lines)%list nl).

(** The key of the map of updates of one file. *)
Definition posKey (line column : Z) : string :=
  strconv.Itoa line +:+ ":" +:+ strconv.Itoa column.

(** The map from position to update that [transformFile] builds; a later
    row replaces an earlier one at the same position. *)
Fixpoint buildUpdateMap (updates : list LogUpdate) (updateMap : gmap string LogUpdate)
  : gmap string LogUpdate :=
  match updates with
  | [] => updateMap
  | update :: rest =>
      buildUpdateMap rest (<[posKey (Line update) (Column update) := update]> updateMap)
  end.

(** What the visitor of [transformFile] reads and writes across calls:
    the content, the modifications, the flag, and the warnings it has
    written to the standard error. *)
Record Patch : Type := {
  content : string;
  modifications : list string;
  modified : bool;
  warnings : list string
}.

(** The text recorded for a modification. *)
Definition modificationText `{Env} (filePath : string) (call : Expr) (newCode : string)
  : string :=
  filepath_Base filePath +:+ ":" +:+ strconv.Itoa (token.Line (callPos call)) +:+ ":"
  +:+ strconv.Itoa (token.Column (callPos call)) +:+ nl
  +:+ "  Old: " +:+ truncateCode (formatCallExpr call) 80 +:+ nl
  +:+ "  New: " +:+ truncateCode newCode 80.

(** The visitor of [transformFile] at one call expression; [None] is a
    panic. *)
Definition visit `{Env} (filePath : string) (updateMap : gmap string LogUpdate)
  (config : TemplateConfig) (dryRun autoMap : bool) (call : Expr) (st : Patch)
  : option Patch :=
  let startPos := callPos call in
  match updateMap !! posKey (token.Line startPos) (token.Column startPos) with
  | None => Some st
  | Some update =>
      match generateStructuredLogCall update config autoMap with
      | Err err =>
          Some {| content := content st;
                  modifications := modifications st;
                  modified := modified st;
                  warnings := (warnings st
                    ++ ["Warning: failed to generate code for " +:+ ID update +:+ ": "
                        +:+ err +:+ nl])%list |}
      | Ok newCode =>
          let mods := (modifications st ++ [modificationText filePath call newCode])%list in
          if dryRun then
            Some {| content := content st; modifications := mods;
                    modified := modified st; warnings := warnings st |}
          else
            content' ← replaceCallExpr call newCode (content st);
            Some {| content := content'; modifications := mods;
                    modified := true; warnings := warnings st |}
      end
  end.

(** [ast.Inspect] with the visitor, over the calls in visiting order: the
    state when the walk stops, and whether it stopped in a panic. *)
Fixpoint inspect `{Env} (filePath : string) (updateMap : gmap string LogUpdate)
  (config : TemplateConfig) (dryRun autoMap : bool) (calls : list Expr) (st : Patch)
  : Patch * bool :=
  match calls with
  | [] => (st, false)
  | call :: rest =>
      match visit filePath updateMap config dryRun autoMap call st with
      | None => (st, true)
      | Some st' => inspect filePath updateMap config dryRun autoMap rest st'
      end
  end.

Definition warnAll (texts : list string) (w : World) : World :=
  {| files := files w; locked := locked w; writes := writes w;
     stdout := stdout w; stderr := stderr w ++ texts |}.

(** The loop that prints the modifications, each followed by an empty
    line. *)
Definition printModifications (mods : list string) (w : World) : World :=
  {| files := files w;
     locked := locked w;
     writes := writes w;
     stdout := stdout w ++ flat_map (fun m => [m +:+ nl; nl]) mods;
     stderr := stderr w |}.

(** The statements of [transformFile] after the walk, on the state in
    which the walk stopped and on whether it stopped in a panic: the
    modifications are printed and the file is written back if it was
    modified and this is no dry run. *)
Definition finishFile (w : World) (filePath : string) (dryRun : bool)
  (walked : Patch * bool) : World * status :=
  match walked with
  | (st, true) => (warnAll (warnings st) w, Panicked)
  | (st, false) =>
      let w := warnAll (warnings st) w in
      let w := printModifications (modifications st) w in
      let changes := strconv.Itoa (Z.of_nat (List.length (modifications st))) in
      if modified st && negb dryRun then
        match writeFile filePath (content st) w with
        | Err e => (w, Failed e)
        | Ok w =>
            (print ("Updated: " +:+ filePath +:+ " (" +:+ changes +:+ " changes)" +:+ nl) w,
             Done)
        end
      else if (0 <? List.length (modifications st))%nat && dryRun then
        (print ("Would update: " +:+ filePath +:+ " (" +:+ changes +:+ " changes)" +:+ nl) w,
         Done)
      else (w, Done)
  end.

(** [transformFile] *)
Definition transformFile `{GoParser} `{Env} (w : World) (filePath : string)
  (updates : list LogUpdate) (config : TemplateConfig) (dryRun autoMap : bool)
  : World * status :=
  match readFile filePath w with
  | Err e => (w, Failed e)
  | Ok original =>
      match ParseFile filePath original with
      | Err e => (w, Failed e)
      | Ok node =>
          let updateMap := buildUpdateMap updates ∅ in
          let st0 := {| content := original; modifications := [];
                        modified := false; warnings := [] |} in
          finishFile w filePath dryRun
            (inspect filePath updateMap config dryRun autoMap (fileCalls node) st0)
      end
  end.

(** The second loop of [Transform], over the files in the order of the
    [range]. *)
Fixpoint transformFiles `{GoParser} `{Env} (w : World)
  (fileUpdates : list (string * list LogUpdate)) (config : TemplateConfig)
  (dryRun autoMap : bool) : World * status :=
  match fileUpdates with
  | [] => (w, Done)
  | (filePath, updates) :: rest =>
      match transformFile w filePath updates config dryRun autoMap with
      | (w', Done) => transformFiles w' rest config dryRun autoMap
      | (w', Failed err) =>
          (w', Failed ("failed to transform " +:+ filePath +:+ ": " +:+ err))
      | (w', Panicked) => (w', Panicked)
      end
  end.

(** [Transform] *)
Definition Transform `{GoParser} `{Env} (w : World) (csvFile rootPath : string)
  (dryRun : bool) (configFile : string) (autoMap : bool) : World * status :=
  match loadTemplateConfig w configFile with
  | Err err => (w, Failed ("failed to load template config: " +:+ err))
  | Ok config =>
      match loadUpdates w csvFile with
      | Err err => (w, Failed ("failed to load updates: " +:+ err))
      | Ok (updates, skippedRows) =>
          let w := warnAll skippedRows w in
          let fileUpdates := groupUpdates updates ∅ in
          if (size fileUpdates =? 0)%nat then (print ("No updates to apply" +:+ nl) w, Done)
          else transformFiles w (range_files fileUpdates) config dryRun autoMap
      end
  end.

End transformer.

(** * The vocabulary of the statements *)

Import token ast.

(** The needle is absent. *)
Definition absent (c : ascii) (s : string) : Prop := strings.Contains s (String c "") = false.

(** What [TrimSpace] keeps has no white space at either end. *)
Definition trimmed (s : string) : Prop := strings.TrimSpace s = s.

(** A row as the collector exports it: nothing filled in. *)
Definition unedited (entry : collector.LogEntry) : Prop :=
  collector.NewCall entry = "" /\ collector.NewMessage entry = "".

(** The field that a candidate stands for. *)
Definition toMapping (a : collector.Argument) : transformer.FieldMapping :=
  {| transformer.Key := collector.SuggestedKey a;
     transformer.Expression := collector.Expression a;
     transformer.Type_ := collector.Type_ a |}.

(** A candidate that the catalog text holds unambiguously: its key, type
    and expression are ASCII text without white space at either end and
    without the delimiters that the reader of the text searches for before
    them, and nothing holds a semicolon. *)
Record wellDelimited (a : collector.Argument) : Prop := {
  key_trimmed : trimmed (collector.SuggestedKey a);
  key_open : absent "(" (collector.SuggestedKey a);
  key_close : absent ")" (collector.SuggestedKey a);
  key_equals : absent "=" (collector.SuggestedKey a);
  key_semi : absent ";" (collector.SuggestedKey a);
  type_trimmed : trimmed (collector.Type_ a);
  type_close : absent ")" (collector.Type_ a);
  type_equals : absent "=" (collector.Type_ a);
  type_semi : absent ";" (collector.Type_ a);
  expr_trimmed : trimmed (collector.Expression a);
  expr_bracket : absent "[" (collector.Expression a);
  expr_semi : absent ";" (collector.Expression a);
  verb_semi : absent ";" (collector.FormatVerb a);
  text_ascii : strings.ascii_text (collector.SuggestedKey a +:+ collector.Type_ a
                                   +:+ collector.Expression a) = true
}.

(** The verb of a candidate as its detail ends with it. *)
Definition verbPart (v : string) : string :=
  if String.eqb v "" then "" else "[" +:+ v +:+ "]".

(** The style tags that [generateStructuredLogCall] knows. *)
Definition knownStyle (style : string) : bool :=
  bool_decide (style ∈ ["slog"; "zap"; "zerolog"; "logrus"; "custom"]).

(** The warning that [transformFile] writes when generation fails. *)
Definition generationWarning (update : transformer.LogUpdate) (err : string) : string :=
  "Warning: failed to generate code for " +:+ transformer.ID update +:+ ": " +:+ err +:+ nl.

(** A state with one more warning. *)
Definition withWarning (text : string) (st : transformer.Patch) : transformer.Patch :=
  {| transformer.content := transformer.content st;
     transformer.modifications := transformer.modifications st;
     transformer.modified := transformer.modified st;
     transformer.warnings := transformer.warnings st ++ [text] |}.

(** Two states that differ in their warnings at most. *)
Definition sameEdits (st1 st2 : transformer.Patch) : Prop :=
  transformer.content st1 = transformer.content st2
  /\ transformer.modifications st1 = transformer.modifications st2
  /\ transformer.modified st1 = transformer.modified st2.

(** The disk of [w'] is the disk of [w]: the same files with the same
    content, and the same files written so far. *)
Definition untouched (w' w : World) : Prop :=
  files w' = files w /\ writes w' = writes w.



(** ** The vocabulary of the further properties *)

(** The update that a catalog row stands for when the operator has left
    the row of an entry as it was exported. *)
Definition toUpdate (entry : collector.LogEntry) : transformer.LogUpdate :=
  {| transformer.ID := collector.ID entry;
     transformer.FilePath := collector.FilePath entry;
     transformer.Line := collector.Line entry;
     transformer.Column := collector.Column entry;
     transformer.OriginalCall := collector.OriginalCall entry;
     transformer.LogLevel := collector.LogLevel entry;
     transformer.MessageTemplate := collector.MessageTemplate entry;
     transformer.ArgumentDetails := collector.formatArgumentDetails (collector.Arguments entry);
     transformer.NewCall := collector.NewCall entry;
     transformer.NewMessage := collector.NewMessage entry;
     transformer.StructuredFields := collector.StructuredFields entry |}.

(** A number that Go's [int] holds. *)
Definition inIntRange (n : Z) : Prop := strconv.minInt <= n <= strconv.maxInt.

(** An entry at a position that Go's [int] holds. *)
Definition positioned (entry : collector.LogEntry) : Prop :=
  inIntRange (collector.Line entry) /\ inIntRange (collector.Column entry).

(** The test of the visitor of [parseFile]: the call has a name and the
    pattern matches it. *)
Definition isLogCall (logPattern : string -> bool) (call : Expr) : bool :=
  negb (String.eqb (collector.getFunctionName call) ""
        || negb (logPattern (collector.getFunctionName call))).

(** Every byte of the string satisfies the test. *)
Fixpoint allBytes (f : ascii -> bool) (s : string) : bool :=
  match s with
  | EmptyString => true
  | String c r => f c && allBytes f r
  end.

(** The bytes between the percent sign and the letter of a format verb. *)
Definition isVerbBody (c : ascii) : bool :=
  collector.isFlag c || collector.isDigit c || Ascii.eqb c ".".

(** The levels that [extractLogLevel] gives. *)
Definition scannedLevels : list string :=
  ["Trace"; "Debug"; "Info"; "Warn"; "Error"; "Fatal"; "Panic"; "Unknown"].

(** The styles that are built in. *)
Definition builtinStyles : list string := ["slog"; "zap"; "zerolog"; "logrus"].

(** The update that the visitor of [transformFile] finds for a call. *)
Definition updateAt (updateMap : gmap string transformer.LogUpdate) (call : Expr)
  : option transformer.LogUpdate :=
  updateMap !! transformer.posKey (Line (callPos call)) (Column (callPos call)).

(** A message without a quote byte at either end. *)
Definition unquoted (message : string) : Prop := strings.Trim message quoteCutset = message.

(** The row with another NewCall. *)
Definition withNewCall (newCall : string) (update : transformer.LogUpdate)
  : transformer.LogUpdate :=
  {| transformer.ID := transformer.ID update;
     transformer.FilePath := transformer.FilePath update;
     transformer.Line := transformer.Line update;
     transformer.Column := transformer.Column update;
     transformer.OriginalCall := transformer.OriginalCall update;
     transformer.LogLevel := transformer.LogLevel update;
     transformer.MessageTemplate := transformer.MessageTemplate update;
     transformer.ArgumentDetails := transformer.ArgumentDetails update;
     transformer.NewCall := newCall;
     transformer.NewMessage := transformer.NewMessage update;
     transformer.StructuredFields := transformer.StructuredFields update |}.

(** The identifier that [parseFile] gives the entry of number [n]. *)
Definition entryName (n : Z) : string := "LOG-" +:+ pad4 n.

(** The code that the visitor of [transformFile] generates for a call:
    there is a row at the position of the call and its generation
    succeeds. *)
Definition plannedCode `{transformer.Env} (updateMap : gmap string transformer.LogUpdate)
  (config : transformer.TemplateConfig) (autoMap : bool) (call : Expr) : option string :=
  match updateAt updateMap call with
  | Some update =>
      match transformer.generateStructuredLogCall update config autoMap with
      | Ok newCode => Some newCode
      | Err _ => None
      end
  | None => None
  end.

(** The modification that the visitor records for a call. *)
Definition plannedModification `{transformer.Env} (filePath : string)
  (updateMap : gmap string transformer.LogUpdate) (config : transformer.TemplateConfig)
  (autoMap : bool) (call : Expr) : option string :=
  transformer.modificationText filePath call <$> plannedCode updateMap config autoMap call.

(** The warning that the visitor writes for a call: there is a row at the
    position of the call and its generation fails. *)
Definition plannedWarning `{transformer.Env} (updateMap : gmap string transformer.LogUpdate)
  (config : transformer.TemplateConfig) (autoMap : bool) (call : Expr) : option string :=
  match updateAt updateMap call with
  | Some update =>
      match transformer.generateStructuredLogCall update config autoMap with
      | Ok _ => None
      | Err err => Some (generationWarning update err)
      end
  | None => None
  end.

(** The index of the line on which a call starts. *)
Definition lineIndex (call : Expr) : nat := Z.to_nat (Line (callPos call) - 1).

(** The lines on which the visitor replaces a call. *)
Definition editedLines `{transformer.Env} (updateMap : gmap string transformer.LogUpdate)
  (config : transformer.TemplateConfig) (autoMap : bool) (calls : list Expr) : list nat :=
  omap (fun call => match plannedCode updateMap config autoMap call with
                    | Some _ => Some (lineIndex call)
                    | None => None
                    end) calls.

(** A call that starts and ends on one line of [ls], at columns of that
    line. *)
Definition inLine (ls : list string) (call : Expr) : Prop :=
  Line (callPos call) = Line (callEnd call)
  /\ 1 <= Line (callPos call)
  /\ exists line, ls !! lineIndex call = Some line
                  /\ 1 <= Column (callPos call) <= strings.len line + 1
                  /\ 1 <= Column (callEnd call) <= strings.len line + 1.

(** The line with the span of the call replaced by the new code. *)
Definition splice (call : Expr) (newCode line : string) : string :=
  strings.take (Z.to_nat (Column (callPos call) - 1)) line +:+ newCode
  +:+ strings.drop (Z.to_nat (Column (callEnd call) - 1)) line.

(** The calls that are replaced lie each within one line of [ls] and the
    code that replaces them holds no line feed. *)
Definition placed `{transformer.Env} (updateMap : gmap string transformer.LogUpdate)
  (config : transformer.TemplateConfig) (autoMap : bool) (ls : list string)
  (calls : list Expr) : Prop :=
  Forall (fun call => forall newCode,
            plannedCode updateMap config autoMap call = Some newCode ->
            inLine ls call /\ absent "010" newCode) calls.

(** The paths of the rows that [Transform] does not leave out. *)
Definition editedPaths (updates : list transformer.LogUpdate) : list string :=
  map transformer.FilePath (List.filter (fun update => negb (transformer.skipped update)) updates).

(** The lines [ls'] are the lines [ls] with every call that is replaced
    cut out of its own line and every other line kept. *)
Definition splicedLines `{transformer.Env} (updateMap : gmap string transformer.LogUpdate)
  (config : transformer.TemplateConfig) (autoMap : bool) (calls : list Expr)
  (ls ls' : list string) : Prop :=
  (forall call newCode,
      call ∈ calls -> plannedCode updateMap config autoMap call = Some newCode ->
      ls' !! lineIndex call = splice call newCode <$> ls !! lineIndex call)
  /\ (forall i, i ∉ editedLines updateMap config autoMap calls -> ls' !! i = ls !! i).

(** A format verb: the percent sign, flags, digits and dots, and the
    letter of the verb. *)
Definition verbShaped (verb : string) : Prop :=
  exists body c, verb = "%" +:+ body +:+ String c ""
                 /\ allBytes isVerbBody body = true
                 /\ collector.isVerbLetter c = true.


(** The row with the NewCall that [newCall] gives it. *)
Definition rewriteNewCall (newCall : transformer.LogUpdate -> string)
  (update : transformer.LogUpdate) : transformer.LogUpdate :=
  withNewCall (newCall update) update.

(** ** The verbs of a literal

    The pattern of [extractFormatVerbs] is
    [%[-+# 0]*[\d]*\.?[\d]*[vTtbcdoqxXUeEfFgGsp]]. *)

Definition flagByte (c : ascii) : bool := strings.mem c "-+# 0".
Definition digitByte (c : ascii) : bool := strings.mem c "0123456789".
Definition letterByte (c : ascii) : bool := strings.mem c "vTtbcdoqxXUeEfFgGsp".

(** A text that the pattern matches: the percent sign, flags, the digits
    of a width, at most one dot, the digits of a precision, and the letter
    of the verb. *)
Definition verbText (v : string) : Prop :=
  exists flags width dot precision letter,
    v = "%" +:+ flags +:+ width +:+ dot +:+ precision +:+ String letter ""
    /\ allBytes flagByte flags = true
    /\ allBytes digitByte width = true
    /\ (dot = "" \/ dot = ".")
    /\ allBytes digitByte precision = true
    /\ letterByte letter = true.

(** The verbs found in a text from left to right, none overlapping
    another: where the text starts with a verb the verb is found and the
    search goes on behind it, and where no verb starts the search goes on
    at the next byte. *)
Inductive verbsOf : string -> list string -> Prop :=
| verbsOf_end : verbsOf "" []
| verbsOf_found (v rest : string) (vs : list string) :
    verbText v -> verbsOf rest vs -> verbsOf (v +:+ rest) (v :: vs)
| verbsOf_next (c : ascii) (r : string) (vs : list string) :
    (forall n, ~ verbText (strings.take n (String c r))) ->
    verbsOf r vs -> verbsOf (String c r) vs.

(** ** The report of a change *)









(** ** A failing template *)

(** The warning that is due for a call in the custom style: the call is at
    the position of a row on which the template fails. *)
Definition templateWarning `{transformer.Env} (updateMap : gmap string transformer.LogUpdate)
  (config : transformer.TemplateConfig) (autoMap : bool) (call : Expr) : option string :=
  match updateAt updateMap call with
  | Some update =>
      match transformer.template_Execute (transformer.Template config)
              (transformer.LoggerVar config) (transformer.LogLevel update)
              (transformer.resolveMessage update) (transformer.resolveFields update autoMap) with
      | Ok _ => None
      | Err err =>
          Some ("Warning: failed to generate code for " +:+ transformer.ID update +:+ ": "
                +:+ err +:+ nl)
      end
  | None => None
  end.

(** The code that the template gives for a call in the custom style. *)
Definition templateCode `{transformer.Env} (updateMap : gmap string transformer.LogUpdate)
  (config : transformer.TemplateConfig) (autoMap : bool) (call : Expr) : option string :=
  match updateAt updateMap call with
  | Some update =>
      match transformer.template_Execute (transformer.Template config)
              (transformer.LoggerVar config) (transformer.LogLevel update)
              (transformer.resolveMessage update) (transformer.resolveFields update autoMap) with
      | Ok newCode => Some newCode
      | Err _ => None
      end
  | None => None
  end.

(** The lines on which a call is replaced in the custom style. *)
Definition templateLines `{transformer.Env} (updateMap : gmap string transformer.LogUpdate)
  (config : transformer.TemplateConfig) (autoMap : bool) (calls : list Expr) : list nat :=
  omap (fun call => match templateCode updateMap config autoMap call with
                    | Some _ => Some (lineIndex call)
                    | None => None
                    end) calls.

(** ** The rule of the reader of the catalog *)

(** Every record has as many fields as the first one: what
    [Reader.ReadAll] returns when [FieldsPerRecord] is left at 0. *)
Definition sameFieldCount (records : list (list string)) : Prop :=
  Forall (fun record => List.length record = List.length (hd [] records)) records.

(** * The packages that the examples run on

    The theorems hold for every parser and every environment.  The examples
    run on the models below of what the two passes call in encoding/csv,
    encoding/json, text/template, path/filepath and go/printer. *)

Module golib.

(** *** [encoding/csv]

    [Reader.ReadAll] and [Writer.Write] with the settings that both passes
    leave as they are: the comma, no comment byte, no lazy quotes, no
    trimming, and the number of fields of the first record required of
    every record. *)

Definition cr : string := String "013" EmptyString.

(** [\r\n] is read as [\n], and a [\r] at the end of the input is dropped. *)
Fixpoint normalizeNewlines (s : string) : string :=
  match s with
  | EmptyString => EmptyString
  | String c r =>
      if Ascii.eqb c "013" then
        match r with
        | EmptyString => EmptyString
        | String "010" _ => normalizeNewlines r
        | _ => String c (normalizeNewlines r)
        end
      else String c (normalizeNewlines r)
  end.

Inductive csvMode : Type := LineStart | FieldStart | Unquoted | Quoted | QuoteSeen.

Definition csvParseError (startLine line column : Z) (what : string) : string :=
  (if startLine =? line then "" else "record on line " +:+ strconv.Itoa startLine +:+ "; ")
  +:+ "parse error on line " +:+ strconv.Itoa line +:+ ", column " +:+ strconv.Itoa column
  +:+ ": " +:+ what.

Definition errBareQuote : string := "bare " +:+ dq +:+ " in non-quoted-field".
Definition errQuote : string := "extraneous or missing " +:+ dq +:+ " in quoted-field".

(** The record [rec] that started on [startLine] is complete. *)
Definition endRecord (records : list (list string)) (rec : list string) (startLine : Z)
  : result (list (list string)) :=
  match records with
  | first :: _ =>
      if (List.length rec =? List.length first)%nat then Ok (records ++ [rec])
      else Err ("record on line " +:+ strconv.Itoa startLine +:+ ": wrong number of fields")
  | [] => Ok [rec]
  end.

(** The reader over the rest of the input: the records read so far, the
    fields and the bytes of the record and the field being read, the line
    on which the record started, and the line and the column of the next
    byte. *)
Fixpoint readRecords (s : string) (mode : csvMode) (records : list (list string))
  (fields : list string) (field : string) (startLine line column : Z)
  : result (list (list string)) :=
  match s with
  | EmptyString =>
      match mode with
      | LineStart => Ok records
      | FieldStart | Unquoted | QuoteSeen => endRecord records (fields ++ [field]) startLine
      | Quoted => Err (csvParseError startLine line column errQuote)
      end
  | String c r =>
      let comma := Ascii.eqb c "," in
      let quote := Ascii.eqb c "034" in
      let feed := Ascii.eqb c "010" in
      let more := String c EmptyString in
      match mode with
      | LineStart =>
          if feed then readRecords r LineStart records [] "" line (line + 1) 1
          else if comma then readRecords r FieldStart records [""] "" line line (column + 1)
          else if quote then readRecords r Quoted records [] "" line line (column + 1)
          else readRecords r Unquoted records [] more line line (column + 1)
      | FieldStart =>
          if feed then
            match endRecord records (fields ++ [""]) startLine with
            | Ok records' => readRecords r LineStart records' [] "" line (line + 1) 1
            | Err e => Err e
            end
          else if comma then
            readRecords r FieldStart records (fields ++ [""]) "" startLine line (column + 1)
          else if quote then readRecords r Quoted records fields "" startLine line (column + 1)
          else readRecords r Unquoted records fields more startLine line (column + 1)
      | Unquoted =>
          if feed then
            match endRecord records (fields ++ [field]) startLine with
            | Ok records' => readRecords r LineStart records' [] "" line (line + 1) 1
            | Err e => Err e
            end
          else if comma then
            readRecords r FieldStart records (fields ++ [field]) "" startLine line (column + 1)
          else if quote then Err (csvParseError startLine line column errBareQuote)
          else readRecords r Unquoted records fields (field +:+ more) startLine line (column + 1)
      | Quoted =>
          if quote then readRecords r QuoteSeen records fields field startLine line (column + 1)
          else if feed then
            readRecords r Quoted records fields (field +:+ more) startLine (line + 1) 1
          else readRecords r Quoted records fields (field +:+ more) startLine line (column + 1)
      | QuoteSeen =>
          if quote then
            readRecords r Quoted records fields (field +:+ more) startLine line (column + 1)
          else if comma then
            readRecords r FieldStart records (fields ++ [field]) "" startLine line (column + 1)
          else if feed then
            match endRecord records (fields ++ [field]) startLine with
            | Ok records' => readRecords r LineStart records' [] "" line (line + 1) 1
            | Err e => Err e
            end
          else Err (csvParseError startLine line column errQuote)
      end
  end.

(** [csv.NewReader(file).ReadAll()] on the text of the file. *)
Definition ReadAll (text : string) : result (list (list string)) :=
  readRecords (normalizeNewlines text) LineStart [] [] "" 1 1 1.

(** [fieldNeedsQuotes] of the writer. *)
Definition fieldNeedsQuotes (field : string) : bool :=
  match field with
  | EmptyString => false
  | String c _ =>
      String.eqb field "\."
      || strings.Contains field "," || strings.Contains field dq
      || strings.Contains field cr || strings.Contains field nl
      || strings.isSpace c
  end.

Fixpoint doubleQuotes (field : string) : string :=
  match field with
  | EmptyString => EmptyString
  | String c r => if Ascii.eqb c "034" then dq +:+ dq +:+ doubleQuotes r
                  else String c (doubleQuotes r)
  end.

Definition writeField (field : string) : string :=
  if fieldNeedsQuotes field then dq +:+ doubleQuotes field +:+ dq else field.

(** What [Writer.Write] writes for a record. *)
Definition writeRecord (record : list string) : string :=
  strings.Join (map writeField record) "," +:+ nl.

(** The text of a file that the writer has written the records to. *)
Fixpoint WriteAll (records : list (list string)) : string :=
  match records with
  | [] => EmptyString
  | record :: rest => writeRecord record +:+ WriteAll rest
  end.

(** *** [encoding/json]

    [json.Unmarshal] into a [TemplateConfig] and into a [[]FieldMapping],
    on objects whose members are strings: a member sets the field whose name
    (or tag) it carries, whatever the case of its letters, a later member
    replaces an earlier one and other members are passed over; [null] sets
    nothing.  The escapes of a string are those of one byte.  Any other text
    is an error in the model; where it is one in the package too, the
    message is not the package's. *)

Definition isBlank (c : ascii) : bool :=
  Ascii.eqb c " " || Ascii.eqb c "009" || Ascii.eqb c "010" || Ascii.eqb c "013".

Definition skipBlank (s : string) : string := strings.TrimLeftFunc isBlank s.

Definition jsonSyntaxError : string := "invalid character in the JSON text".

(** The bytes of a string after its opening quote, and the text after its
    closing quote. *)
Fixpoint readString (s : string) : option (string * string) :=
  match s with
  | EmptyString => None
  | String c r =>
      if Ascii.eqb c "034" then Some (EmptyString, r)
      else if Ascii.eqb c "\" then
        match r with
        | String e r' =>
            let byte :=
              if Ascii.eqb e "034" then Some "034"%char
              else if Ascii.eqb e "\" then Some "\"%char
              else if Ascii.eqb e "/" then Some "/"%char
              else if Ascii.eqb e "n" then Some "010"%char
              else if Ascii.eqb e "t" then Some "009"%char
              else if Ascii.eqb e "r" then Some "013"%char
              else if Ascii.eqb e "b" then Some "008"%char
              else if Ascii.eqb e "f" then Some "012"%char
              else None in
            match byte, readString r' with
            | Some b, Some (text, rest) => Some (String b text, rest)
            | _, _ => None
            end
        | EmptyString => None
        end
      else if (N_of_ascii c <? 32)%N then None
      else match readString r with
           | Some (text, rest) => Some (String c text, rest)
           | None => None
           end
  end.

(** The members of an object after its opening brace, in their order, and
    the text after its closing brace; [fuel] bounds their number. *)
Fixpoint readMembers (fuel : nat) (s : string) : option (list (string * string) * string) :=
  match fuel with
  | O => None
  | S fuel' =>
      match skipBlank s with
      | String "034" afterQuote =>
          match readString afterQuote with
          | Some (key, afterKey) =>
              match skipBlank afterKey with
              | String ":" afterColon =>
                  match skipBlank afterColon with
                  | String "034" afterQuote' =>
                      match readString afterQuote' with
                      | Some (value, afterValue) =>
                          match skipBlank afterValue with
                          | String "," more =>
                              match readMembers fuel' more with
                              | Some (members, rest) => Some ((key, value) :: members, rest)
                              | None => None
                              end
                          | String "}" rest => Some ([(key, value)], rest)
                          | _ => None
                          end
                      | None => None
                      end
                  | _ => None
                  end
              | _ => None
              end
          | None => None
          end
      | _ => None
      end
  end.

Definition readObject (s : string) : option (list (string * string) * string) :=
  match skipBlank s with
  | String "{" body =>
      match skipBlank body with
      | String "}" rest => Some ([], rest)
      | _ => readMembers (String.length body) body
      end
  | _ => None
  end.

Definition isNull (s : string) : bool :=
  String.eqb (strings.TrimRightFunc isBlank (skipBlank s)) "null".

Definition setConfig (config : transformer.TemplateConfig) (member : string * string)
  : transformer.TemplateConfig :=
  let name := strings.ToLower (fst member) in
  if String.eqb name "style" then
    {| transformer.Style := snd member; transformer.LoggerVar := transformer.LoggerVar config;
       transformer.Template := transformer.Template config |}
  else if String.eqb name "loggervar" then
    {| transformer.Style := transformer.Style config; transformer.LoggerVar := snd member;
       transformer.Template := transformer.Template config |}
  else if String.eqb name "template" then
    {| transformer.Style := transformer.Style config;
       transformer.LoggerVar := transformer.LoggerVar config;
       transformer.Template := snd member |}
  else config.

Definition emptyConfig : transformer.TemplateConfig :=
  {| transformer.Style := ""; transformer.LoggerVar := ""; transformer.Template := "" |}.

(** [json.Unmarshal(data, &config)] *)
Definition UnmarshalConfig (data : string) : result transformer.TemplateConfig :=
  if String.eqb (skipBlank data) "" then Err "unexpected end of JSON input"
  else if isNull data then Ok emptyConfig
  else
    match readObject data with
    | Some (members, rest) =>
        if String.eqb (skipBlank rest) "" then Ok (foldl setConfig emptyConfig members)
        else Err jsonSyntaxError
    | None => Err jsonSyntaxError
    end.

Definition setField (field : transformer.FieldMapping) (member : string * string)
  : transformer.FieldMapping :=
  let name := strings.ToLower (fst member) in
  if String.eqb name "key" then
    {| transformer.Key := snd member; transformer.Expression := transformer.Expression field;
       transformer.Type_ := transformer.Type_ field |}
  else if String.eqb name "expression" then
    {| transformer.Key := transformer.Key field; transformer.Expression := snd member;
       transformer.Type_ := transformer.Type_ field |}
  else if String.eqb name "type" then
    {| transformer.Key := transformer.Key field;
       transformer.Expression := transformer.Expression field; transformer.Type_ := snd member |}
  else field.

Definition emptyField : transformer.FieldMapping :=
  {| transformer.Key := ""; transformer.Expression := ""; transformer.Type_ := "" |}.

(** The elements of an array from the first one on, and the text after its
    closing bracket; [fuel] bounds their number. *)
Fixpoint readElements (fuel : nat) (s : string)
  : option (list transformer.FieldMapping * string) :=
  match fuel with
  | O => None
  | S fuel' =>
      match readObject s with
      | Some (members, afterObject) =>
          let field := foldl setField emptyField members in
          match skipBlank afterObject with
          | String "," more =>
              match readElements fuel' more with
              | Some (fields, rest) => Some (field :: fields, rest)
              | None => None
              end
          | String "]" rest => Some ([field], rest)
          | _ => None
          end
      | None => None
      end
  end.

(** [json.Unmarshal([]byte(text), &fields)]; [None] when it returns an
    error. *)
Definition UnmarshalFields (text : string) : option (list transformer.FieldMapping) :=
  if isNull text then Some []
  else
    match skipBlank text with
    | String "[" body =>
        match skipBlank body with
        | String "]" rest => if String.eqb (skipBlank rest) "" then Some [] else None
        | _ =>
            match readElements (String.length body) body with
            | Some (fields, rest) => if String.eqb (skipBlank rest) "" then Some fields else None
            | None => None
            end
        end
    | _ => None
    end.

(** The text of a configuration file for [config]. *)
Fixpoint escapeString (s : string) : string :=
  match s with
  | EmptyString => EmptyString
  | String c r =>
      if Ascii.eqb c "034" || Ascii.eqb c "\" then String "\" (String c (escapeString r))
      else String c (escapeString r)
  end.

Definition configText (config : transformer.TemplateConfig) : string :=
  "{" +:+ dq +:+ "style" +:+ dq +:+ ": " +:+ dq +:+ escapeString (transformer.Style config) +:+ dq
  +:+ ", " +:+ dq +:+ "loggerVar" +:+ dq +:+ ": " +:+ dq
  +:+ escapeString (transformer.LoggerVar config) +:+ dq
  +:+ ", " +:+ dq +:+ "template" +:+ dq +:+ ": " +:+ dq
  +:+ escapeString (transformer.Template config) +:+ dq +:+ "}".

(** *** [path/filepath] and [go/printer] *)

(** [filepath.Base] with the slash as the separator. *)
Definition Base (path : string) : string :=
  if String.eqb path "" then "."
  else
    let stripped := strings.TrimRightFunc (fun c => Ascii.eqb c "/") path in
    if String.eqb stripped "" then "/"
    else List.last (strings.Split stripped "/") stripped.

(** [printer.Fprint] of an expression on one line.  A binary expression is
    printed with blanks around its operator, as the printer does where the
    expression stands alone, and a node that the embedding does not look
    into as its type. *)
Fixpoint Fprint (expr : Expr) : string :=
  match expr with
  | BasicLit _ value => value
  | Ident name => name
  | SelectorExpr x sel => Fprint x +:+ "." +:+ sel
  | CallExpr _ _ fn args => Fprint fn +:+ "(" +:+ strings.Join (map Fprint args) ", " +:+ ")"
  | IndexExpr x index => Fprint x +:+ "[" +:+ Fprint index +:+ "]"
  | UnaryExpr op x => op +:+ Fprint x
  | BinaryExpr x op y => Fprint x +:+ " " +:+ op +:+ " " +:+ Fprint y
  | OtherNode tyname _ => "<" +:+ tyname +:+ ">"
  end.

(** *** [text/template], on the data of [generateCustomCall]

    [template.New("log").Parse(tmpl)] and [Execute] on the map of Logger,
    Level, Message and Fields, for a template of one line whose actions are
    chains of fields of the data ([{{.Level}}], [{{.Missing.Field}}]),
    variables ([{{$x}}]) and fields of an indexed element of Fields
    ([{{(index .Fields 0).Key}}]).  A key that the map does not hold has no
    value, and so has every field of it: it is printed as [<no value>], not
    an error.  A variable that is not defined is an error of parsing, so of
    every execution.  On a template with any other action the model gives
    an error that the package does not. *)

Inductive Action : Type :=
| Literal (text : string)
| Chain (offset : Z) (names : list string)
| VariableRef (name : string)
| IndexField (offset : Z) (index : Z) (field : string)
| Unclosed
| Beyond.

Definition isName (s : string) : bool :=
  negb (String.eqb s "") && allBytes (fun c => negb (strings.isSeparator c)) s.

(** The action between the delimiters; [offset] is that of its first
    byte. *)
Definition readAction (offset : Z) (body : string) : Action :=
  let text := strings.TrimSpace body in
  let offset :=
    offset + (strings.len body - strings.len (strings.TrimLeftFunc strings.isSpace body)) in
  if strings.HasPrefix text "$" then
    if isName (strings.drop 1 text) then VariableRef text else Beyond
  else if strings.HasPrefix text "(index .Fields " then
    let rest := strings.drop 15 text in
    let close := strings.Index rest ")." in
    if close <? 0 then Beyond
    else
      let number := strings.take (Z.to_nat close) rest in
      let field := strings.drop (Z.to_nat close + 2) rest in
      match strconv.digits 0 number with
      | Some n => if negb (String.eqb number "") && isName field
                  then IndexField (offset + 1) n field else Beyond
      | None => Beyond
      end
  else if strings.HasPrefix text "." then
    match strings.Split text "." with
    | _ :: first :: more =>
        if forallb isName (first :: more) then
          Chain (match more with
                 | [] => offset
                 | _ => offset + 1 + strings.len first
                 end) (first :: more)
        else Beyond
    | _ => Beyond
    end
  else Beyond.

(** The text cut into literal text and actions; [fuel] bounds their
    number. *)
Fixpoint readTemplate (fuel : nat) (offset : Z) (text : string) : list Action :=
  match fuel with
  | O => [Beyond]
  | S fuel' =>
      let open := strings.Index text "{{" in
      if open <? 0 then
        if String.eqb text "" then [] else [Literal text]
      else
        let before := strings.take (Z.to_nat open) text in
        let inside := strings.drop (Z.to_nat open + 2) text in
        let close := strings.Index inside "}}" in
        let literal := if String.eqb before "" then [] else [Literal before] in
        if close <? 0 then literal ++ [Unclosed]
        else
          literal
          ++ readAction (offset + open + 2) (strings.take (Z.to_nat close) inside)
          :: readTemplate fuel' (offset + open + 2 + close + 2)
               (strings.drop (Z.to_nat close + 2) inside)
  end.

(** The error of parsing, if there is one. *)
Fixpoint parseError (actions : list Action) : option string :=
  match actions with
  | [] => None
  | VariableRef name :: _ =>
      Some ("template: log:1: undefined variable " +:+ dq +:+ name +:+ dq)
  | Unclosed :: _ => Some "template: log:1: unclosed action"
  | Beyond :: _ => Some "template: log: an action that the model does not read"
  | _ :: rest => parseError rest
  end.

Definition execError (offset : Z) (context what : string) : string :=
  "template: log:1:" +:+ strconv.Itoa offset +:+ ": executing " +:+ dq +:+ "log" +:+ dq
  +:+ " at <" +:+ context +:+ ">: " +:+ what.

(** [fmt.Fprint] of the fields. *)
Definition printFields (fields : list transformer.FieldMapping) : string :=
  "[" +:+ strings.Join
            (map (fun field => "{" +:+ transformer.Key field +:+ " "
                               +:+ transformer.Expression field +:+ " "
                               +:+ transformer.Type_ field +:+ "}") fields) " "
  +:+ "]".

Definition chainText (names : list string) : string :=
  strings.Join (map (String.append ".") names) "".

(** What an action writes. *)
Definition execAction (logger level message : string) (fields : list transformer.FieldMapping)
  (action : Action) : result string :=
  match action with
  | Literal text => Ok text
  | Chain offset (name :: more) =>
      let isText := String.eqb name "Logger" || String.eqb name "Level"
                    || String.eqb name "Message" in
      match more with
      | [] =>
          if String.eqb name "Logger" then Ok logger
          else if String.eqb name "Level" then Ok level
          else if String.eqb name "Message" then Ok message
          else if String.eqb name "Fields" then Ok (printFields fields)
          else Ok "<no value>"
      | field :: _ =>
          if isText then
            Err (execError offset (chainText (name :: more))
                   ("can't evaluate field " +:+ field +:+ " in type string"))
          else if String.eqb name "Fields" then
            Err (execError offset (chainText (name :: more))
                   ("can't evaluate field " +:+ field
                    +:+ " in type []transformer.FieldMapping"))
          else Ok "<no value>"
      end
  | IndexField offset index field =>
      let call := "index .Fields " +:+ strconv.Itoa index in
      let count := Z.of_nat (List.length fields) in
      if count <? index then
        Err (execError offset call
               ("error calling index: index out of range: " +:+ strconv.Itoa index))
      else
        match fields !! Z.to_nat index with
        | Some element =>
            if String.eqb field "Key" then Ok (transformer.Key element)
            else if String.eqb field "Expression" then Ok (transformer.Expression element)
            else if String.eqb field "Type" then Ok (transformer.Type_ element)
            else Err (execError (offset + strings.len call + 1)
                        ("(" +:+ call +:+ ")." +:+ field)
                        ("can't evaluate field " +:+ field
                         +:+ " in type transformer.FieldMapping"))
        | None =>
            Err (execError offset call "error calling index: reflect: slice index out of range")
        end
  | _ => Err "template: log: an action that the model does not read"
  end.

Fixpoint execActions (logger level message : string) (fields : list transformer.FieldMapping)
  (actions : list Action) : result string :=
  match actions with
  | [] => Ok EmptyString
  | action :: rest =>
      match execAction logger level message fields action with
      | Err e => Err e
      | Ok text =>
          match execActions logger level message fields rest with
          | Err e => Err e
          | Ok more => Ok (text +:+ more)
          end
      end
  end.

(** Parsing the template and executing it on the data. *)
Definition Execute (tmpl logger level message : string)
  (fields : list transformer.FieldMapping) : result string :=
  if strings.Contains tmpl nl then Err "template: log: a template that the model does not read"
  else
    let actions := readTemplate (S (String.length tmpl)) 0 tmpl in
    match parseError actions with
    | Some e => Err e
    | None => execActions logger level message fields actions
    end.

End golib.

(** * Scenarios *)

Module scenario.

(** The environment of the examples: the models of the packages, and the
    files ranged over in the order of [map_to_list]. *)
Definition plainEnv : transformer.Env := {|
  transformer.json_Unmarshal_fields := golib.UnmarshalFields;
  transformer.json_Unmarshal_config := golib.UnmarshalConfig;
  transformer.template_Execute := golib.Execute;
  transformer.printer_Fprint := golib.Fprint;
  transformer.filepath_Base := golib.Base;
  transformer.csv_ReadAll := golib.ReadAll;
  transformer.range_files := map_to_list;
  transformer.range_files_perm := fun m => reflexivity (map_to_list m)
|}.

Definition at_ (line column : Z) : Position := {| Line := line; Column := column |}.

Definition printCall (pos end_ : Position) (arg : string) : Expr :=
  CallExpr pos end_ (SelectorExpr (Ident "log") "Print") [BasicLit INT arg].

Definition twoCallsSource : string :=
  "package main" +:+ nl +:+ "func f() { log.Print(1); log.Print(2) }" +:+ nl.

Definition firstCall : Expr := printCall (at_ 2 12) (at_ 2 24) "1".
Definition secondCall : Expr := printCall (at_ 2 26) (at_ 2 38) "2".

Definition twoCallsFile : File :=
  {| PkgName := "main";
     Decls := [OtherNode "*ast.FuncDecl"
                 [OtherNode "*ast.BlockStmt"
                    [OtherNode "*ast.ExprStmt" [firstCall];
                     OtherNode "*ast.ExprStmt" [secondCall]]]] |}.

Definition parser : GoParser := fun path content =>
  if String.eqb content twoCallsSource then Ok twoCallsFile
  else Err (path +:+ ":1:1: expected 'package'").

Definition logPattern (funcName : string) : bool := strings.HasPrefix funcName "log.".

Definition setNewMessage (message : string) (row : list string) : list string :=
  <[11%nat := message]> row.

Definition catalogText (records : list (list string)) : string :=
  golib.WriteAll records.

Definition sources : World :=
  {| files := {[ "main.go" := twoCallsSource ]}; locked := ∅; writes := [];
     stdout := []; stderr := [] |}.

(** A world with one more file. *)
Definition withFile (path content : string) (w : World) : World :=
  {| files := <[path := content]> (files w); locked := locked w; writes := writes w;
     stdout := stdout w; stderr := stderr w |}.

Definition scanned : list collector.LogEntry :=
  fst (collector.scan (H := parser) sources logPattern 1 ["main.go"]).

Definition editedRecords : list (list string) :=
  match collector.exportRecords scanned with
  | head :: first :: second :: rest =>
      head :: setNewMessage "one" first :: setNewMessage "two" second :: rest
  | records => records
  end.

Definition withCatalog (records : list (list string)) (w : World) : World :=
  withFile "catalog.csv" (catalogText records) w.

(** [log.Printf("error: %v", err)] *)
Definition printfCall (pos end_ : Position) : Expr :=
  CallExpr pos end_ (SelectorExpr (Ident "log") "Printf")
    [BasicLit STRING (dq +:+ "error: %v" +:+ dq); Ident "err"].

(** [log.Printf("failed: %s", err.Error())] *)
Definition methodArgCall : Expr :=
  CallExpr (at_ 3 2) (at_ 3 39) (SelectorExpr (Ident "log") "Printf")
    [BasicLit STRING (dq +:+ "failed: %s" +:+ dq);
     CallExpr (at_ 3 27) (at_ 3 38) (SelectorExpr (Ident "err") "Error") []].

(** The updates loaded from the exported row of a call after the operator
    has filled in NewMessage. *)
Definition editedUpdates (call : Expr) (filePath packageName : string) (entryID : Z)
  (message : string) : list transformer.LogUpdate * list string :=
  transformer.loadRow 1
    (setNewMessage message
       (collector.exportRow (collector.makeEntry filePath packageName entryID call)))
    ([], []).

Definition printfEntry : collector.LogEntry :=
  collector.makeEntry "main.go" "main" 1 (printfCall (at_ 1 1) (at_ 1 29)).

(** The update loaded from the row of [printfEntry] with NewMessage
    filled in. *)
Definition printfUpdate : transformer.LogUpdate :=
  {| transformer.ID := "LOG-0001"; transformer.FilePath := "main.go";
     transformer.Line := 1; transformer.Column := 1;
     transformer.OriginalCall := "log.Printf"; transformer.LogLevel := "Info";
     transformer.MessageTemplate := dq +:+ "error: %v" +:+ dq;
     transformer.ArgumentDetails := collector.formatArgumentDetails (collector.Arguments printfEntry);
     transformer.NewCall := ""; transformer.NewMessage := "Failed to process request";
     transformer.StructuredFields := "" |}.

Definition methodArgEntry : collector.LogEntry :=
  collector.makeEntry "main.go" "main" 1 methodArgCall.

(** A row with the given StructuredFields. *)
Definition overrideUpdate (override : string) : transformer.LogUpdate :=
  {| transformer.ID := "LOG-0001"; transformer.FilePath := "main.go";
     transformer.Line := 1; transformer.Column := 1;
     transformer.OriginalCall := "log.Printf"; transformer.LogLevel := "Info";
     transformer.MessageTemplate := "request failed";
     transformer.ArgumentDetails := "error(error)=err[%v]";
     transformer.NewCall := ""; transformer.NewMessage := "Failed";
     transformer.StructuredFields := override |}.

Definition styleConfig (style : string) : transformer.TemplateConfig :=
  {| transformer.Style := style; transformer.LoggerVar := "logger";
     transformer.Template := "{{.Logger}}.Log({{.Missing.Field}})" |}.


(** The world with the configuration file of the style. *)
Definition withConfig (style : string) (w : World) : World :=
  withFile "style.json" (golib.configText (styleConfig style)) w.

(** The state in which the transformer is run on the two calls: the source
    and the edited catalog. *)
Definition twoCallsWorld : World := withCatalog editedRecords sources.

(** The updates that the transformer loads from the edited catalog. *)
Definition twoCallsUpdates : list transformer.LogUpdate :=
  fst (transformer.loadRows 1 (List.tl editedRecords) ([], [])).

(** The source of the two calls with exactly the two call expressions
    replaced by the code generated for them. *)
Definition twoCallsExpected : string :=
  "package main" +:+ nl
  +:+ "func f() { log.info(" +:+ dq +:+ "one" +:+ dq +:+ "); log.info(" +:+ dq +:+ "two" +:+ dq
  +:+ ") }" +:+ nl.

(** What the transformer leaves in the file. *)
Definition twoCallsActual : string :=
  "package main" +:+ nl
  +:+ "func f() { log.info(" +:+ dq +:+ "one" +:+ dq +:+ "log.info(" +:+ dq +:+ "two" +:+ dq
  +:+ ")(2) }" +:+ nl.

Definition twoCallsUpdateMap : gmap string transformer.LogUpdate :=
  transformer.buildUpdateMap twoCallsUpdates ∅.

(** The update of the first of the two calls. *)
Definition firstUpdate : transformer.LogUpdate :=
  {| transformer.ID := "LOG-0001"; transformer.FilePath := "main.go";
     transformer.Line := 2; transformer.Column := 12;
     transformer.OriginalCall := "log.Print"; transformer.LogLevel := "Info";
     transformer.MessageTemplate := "1"; transformer.ArgumentDetails := "";
     transformer.NewCall := ""; transformer.NewMessage := "one";
     transformer.StructuredFields := "" |}.

(** [loadTemplateConfig] of no configuration file. *)
Definition defaultConfig : transformer.TemplateConfig :=
  {| transformer.Style := "slog"; transformer.LoggerVar := "log"; transformer.Template := "" |}.

Definition emptyPatch (content : string) : transformer.Patch :=
  {| transformer.content := content; transformer.modifications := [];
     transformer.modified := false; transformer.warnings := [] |}.

End scenario.

(** * Further examples *)

Module examples.
Import scenario.

(** A source in which a call is wrapped over two lines, by line. *)
Definition wrappedLines : list string :=
  ["package main"; "func f() {"; "  log.Print("; "    1)"; "}"; ""].

(** The same source with the call replaced. *)
Definition unwrappedLines : list string :=
  ["package main"; "func f() {"; "  log.info(1)"; "}"; ""].

(** The source of the two calls by line. *)
Definition twoCallsLines : list string :=
  ["package main"; "func f() { log.Print(1); log.Print(2) }"; ""].

(** The source of the two calls with the first call replaced, by line. *)
Definition firstCallEdited : list string :=
  ["package main";
   "func f() { log.info(" +:+ dq +:+ "one" +:+ dq +:+ "); log.Print(2) }"; ""].

(** The rows of the first call alone. *)
Definition firstCallUpdates : gmap string transformer.LogUpdate :=
  transformer.buildUpdateMap [firstUpdate] ∅.

(** Two files to transform, the first of which does not exist. *)
Definition missingFirst : list (string * list transformer.LogUpdate) :=
  [("missing.go", []); ("main.go", [firstUpdate])].

(** [log.Printf("%s scored %5.2f", name, score, round)] *)
Definition scoredCall : Expr :=
  CallExpr (at_ 1 1) (at_ 1 50) (SelectorExpr (Ident "log") "Printf")
    [BasicLit STRING (dq +:+ "%s scored %5.2f" +:+ dq); Ident "name"; Ident "score";
     Ident "round"].

(** A source with a call on each of two lines, by line. *)
Definition mixedLines : list string :=
  ["package main";
   "func f() {";
   "  log.Print(1)";
   "  log.Printf(" +:+ dq +:+ "%v %d" +:+ dq +:+ ", err, n)";
   "}";
   ""].

Definition plainCall : Expr := printCall (at_ 3 3) (at_ 3 15) "1".

Definition countCall : Expr :=
  CallExpr (at_ 4 3) (at_ 4 30) (SelectorExpr (Ident "log") "Printf")
    [BasicLit STRING (dq +:+ "%v %d" +:+ dq); Ident "err"; Ident "n"].

Definition mixedFile : File :=
  {| PkgName := "main";
     Decls := [OtherNode "*ast.FuncDecl"
                 [OtherNode "*ast.BlockStmt"
                    [OtherNode "*ast.ExprStmt" [plainCall];
                     OtherNode "*ast.ExprStmt" [countCall]]]] |}.

Definition mixedParser : GoParser := fun path content =>
  if String.eqb content (strings.Join mixedLines nl) then Ok mixedFile
  else Err (path +:+ ":1:1: expected 'package'").

Definition mixedWorld : World :=
  {| files := {[ "main.go" := strings.Join mixedLines nl ]}; locked := ∅; writes := [];
     stdout := []; stderr := [] |}.

(** The rows of the two calls as they are scanned, with NewMessage filled
    in: the first call has no further argument, the second has two. *)
Definition plainUpdate : transformer.LogUpdate :=
  {| transformer.ID := "LOG-0001"; transformer.FilePath := "main.go";
     transformer.Line := 3; transformer.Column := 3;
     transformer.OriginalCall := "log.Print"; transformer.LogLevel := "Info";
     transformer.MessageTemplate := "1"; transformer.ArgumentDetails := "";
     transformer.NewCall := ""; transformer.NewMessage := "one";
     transformer.StructuredFields := "" |}.

Definition countUpdate : transformer.LogUpdate :=
  {| transformer.ID := "LOG-0002"; transformer.FilePath := "main.go";
     transformer.Line := 4; transformer.Column := 3;
     transformer.OriginalCall := "log.Printf"; transformer.LogLevel := "Info";
     transformer.MessageTemplate := dq +:+ "%v %d" +:+ dq;
     transformer.ArgumentDetails := "error(error)=err[%v]; n(unknown)=n[%d]";
     transformer.NewCall := ""; transformer.NewMessage := "two";
     transformer.StructuredFields := "" |}.

Definition mixedUpdates : gmap string transformer.LogUpdate :=
  transformer.buildUpdateMap [plainUpdate; countUpdate] ∅.

(** The source with the second call replaced, by line. *)
Definition mixedEdited : list string :=
  ["package main"; "func f() {"; "  log.Print(1)"; "  logger.Log(n)"; "}"; ""].

(** A custom style whose template takes the expression of the second
    field: its execution fails on a row with less than two fields. *)
Definition indexConfig : transformer.TemplateConfig :=
  {| transformer.Style := "custom"; transformer.LoggerVar := "logger";
     transformer.Template := "{{.Logger}}.Log({{(index .Fields 1).Expression}})" |}.

(** A custom style whose template refers to a variable that is not
    defined. *)
Definition variableConfig : transformer.TemplateConfig :=
  {| transformer.Style := "custom"; transformer.LoggerVar := "logger";
     transformer.Template := "{{.Logger}}.Log({{$undefined}})" |}.

(** The source of the two calls with the first call replaced by what the
    template of [styleConfig] gives, by line. *)
Definition noValueEdited : list string :=
  ["package main"; "func f() { logger.Log(<no value>); log.Print(2) }"; ""].







End examples.

Import scenario.
Import examples.
#[local] Arguments String.append !_ _ / : simpl nomatch.

(** * Facts about the byte strings *)

Section StringFacts.

Implicit Types (s a b : string) (c : ascii).

Lemma append_nil_r s : s +:+ "" = s.
Proof. induction s; simpl; congruence. Qed.

Lemma append_assoc a b s : (a +:+ b) +:+ s = a +:+ (b +:+ s).
Proof. induction a; simpl; congruence. Qed.

Lemma append_cons c a b : String c a +:+ b = String c (a +:+ b).
Proof. reflexivity. Qed.

Lemma append_nil_l b : "" +:+ b = b.
Proof. reflexivity. Qed.

Lemma length_append a b : String.length (a +:+ b) = (String.length a + String.length b)%nat.
Proof. induction a; simpl; congruence. Qed.

Lemma take_append a b : strings.take (String.length a) (a +:+ b) = a.
Proof. induction a; simpl; [now destruct b | congruence]. Qed.

Lemma drop_append a b : strings.drop (String.length a) (a +:+ b) = b.
Proof. induction a; simpl; congruence. Qed.

Lemma drop_append_n a b n : n = String.length a -> strings.drop n (a +:+ b) = b.
Proof. intros ->. apply drop_append. Qed.

Lemma take_append_n a b n : n = String.length a -> strings.take n (a +:+ b) = a.
Proof. intros ->. apply take_append. Qed.

Lemma take_all a : strings.take (String.length a) a = a.
Proof. induction a; simpl; congruence. Qed.

Lemma len_nat a : Z.to_nat (strings.len a) = String.length a.
Proof. unfold strings.len. lia. Qed.

Lemma prefix_char c s :
  String.prefix (String c "") s = match s with String d _ => Ascii.eqb c d | "" => false end.
Proof.
  destruct s as [|d r]; simpl; [reflexivity|].
  destruct (ascii_dec c d) as [->|Hne].
  - rewrite Ascii.eqb_refl. now destruct r.
  - now apply Ascii.eqb_neq in Hne as ->.
Qed.

(** [strings.Index] for a needle of one byte. *)
Lemma Index_char_cons c d s :
  strings.Index (String d s) (String c "")
  = if Ascii.eqb c d then 0
    else let i := strings.Index s (String c "") in if i <? 0 then -1 else i + 1.
Proof.
  change (strings.Index (String d s) (String c ""))
    with (if String.prefix (String c "") (String d s) then 0
          else let i := strings.Index s (String c "") in if i <? 0 then -1 else i + 1).
  rewrite prefix_char. reflexivity.
Qed.

Lemma Index_char_nil c : strings.Index "" (String c "") = -1.
Proof. reflexivity. Qed.

Lemma Index_char_range c s : -1 <= strings.Index s (String c "").
Proof.
  induction s as [|d r IH]; [now rewrite Index_char_nil|].
  rewrite Index_char_cons. destruct (Ascii.eqb c d); [lia|].
  cbv zeta. destruct (Z.ltb_spec (strings.Index r (String c "")) 0); lia.
Qed.


Lemma absent_Index c s : absent c s <-> strings.Index s (String c "") = -1.
Proof.
  unfold absent, strings.Contains. pose proof (Index_char_range c s).
  destruct (Z.leb_spec 0 (strings.Index s (String c ""))); split; intros; (congruence || lia).
Qed.

Lemma absent_nil c : absent c "".
Proof. reflexivity. Qed.

Lemma absent_cons c d s : absent c (String d s) <-> c <> d /\ absent c s.
Proof.
  rewrite !absent_Index, Index_char_cons. pose proof (Index_char_range c s).
  destruct (Ascii.eqb_spec c d) as [->|Hne]; cbv zeta.
  - split; [discriminate|]. intros [Hne _]. now destruct Hne.
  - destruct (Z.ltb_spec (strings.Index s (String c "")) 0); split; intros; try split;
      (congruence || lia).
Qed.

Lemma absent_append c a b : absent c (a +:+ b) <-> absent c a /\ absent c b.
Proof.
  induction a as [|d a IH]; simpl.
  - split; [intros; split; [apply absent_nil | assumption] | now intros [_ ?]].
  - rewrite !absent_cons, IH. tauto.
Qed.

Lemma Index_char_append c a b :
  absent c a ->
  strings.Index (a +:+ b) (String c "")
  = let i := strings.Index b (String c "") in
    if i <? 0 then -1 else strings.len a + i.
Proof.
  induction a as [|d a IH]; intros Ha.
  - rewrite append_nil_l. pose proof (Index_char_range c b). cbv zeta.
    destruct (Z.ltb_spec (strings.Index b (String c "")) 0); unfold strings.len; simpl; lia.
  - apply absent_cons in Ha as [Hne Ha]. rewrite append_cons, Index_char_cons, (IH Ha).
    apply Ascii.eqb_neq in Hne as ->. cbv zeta. pose proof (Index_char_range c b).
    destruct (Z.ltb_spec (strings.Index b (String c "")) 0) as [Hlt|Hge].
    + reflexivity.
    + unfold strings.len in *. simpl String.length.
      destruct (Z.ltb_spec (Z.of_nat (String.length a) + strings.Index b (String c "")) 0); lia.
Qed.

(** The first occurrence of a byte sits right after a prefix without it. *)
Lemma Index_char_at c a b :
  absent c a -> strings.Index (a +:+ String c b) (String c "") = strings.len a.
Proof.
  intros Ha. rewrite (Index_char_append c a _ Ha), Index_char_cons, Ascii.eqb_refl.
  simpl. lia.
Qed.

Lemma len_append a b : strings.len (a +:+ b) = strings.len a + strings.len b.
Proof. unfold strings.len. rewrite length_append. lia. Qed.

Lemma len_cons c s : strings.len (String c s) = 1 + strings.len s.
Proof. unfold strings.len. simpl String.length. lia. Qed.

Lemma len_nonneg s : 0 <= strings.len s.
Proof. unfold strings.len. lia. Qed.

(** The same behind two prefixes without the byte. *)
Lemma Index_char_after c a m b :
  absent c a -> absent c m ->
  strings.Index (a +:+ m +:+ String c b) (String c "") = strings.len a + strings.len m.
Proof.
  intros Ha Hm. rewrite <- append_assoc, Index_char_at, len_append; [reflexivity|].
  apply absent_append. auto.
Qed.

(** *** Splitting and joining *)

Lemma Split_absent c s : absent c s -> strings.Split s c = [s].
Proof.
  induction s as [|d r IH]; intros Hs; simpl; [reflexivity|].
  apply absent_cons in Hs as [Hne Hs]. rewrite (IH Hs).
  assert (Ascii.eqb d c = false) as -> by (apply Ascii.eqb_neq; congruence).
  reflexivity.
Qed.

Lemma Split_nonempty c s : strings.Split s c <> [].
Proof.
  induction s as [|d r IH]; simpl; [discriminate|].
  destruct (strings.Split r c); [contradiction|]. destruct (Ascii.eqb d c); discriminate.
Qed.

Lemma Split_at c a b : absent c a -> strings.Split (a +:+ String c b) c = a :: strings.Split b c.
Proof.
  induction a as [|d a IH]; intros Ha; simpl.
  - rewrite Ascii.eqb_refl. pose proof (Split_nonempty c b). now destruct (strings.Split b c).
  - apply absent_cons in Ha as [Hne Ha]. rewrite (IH Ha).
    assert (Ascii.eqb d c = false) as -> by (apply Ascii.eqb_neq; congruence).
    reflexivity.
Qed.

Lemma Join_prefix p d ds sep :
  strings.Join ((p +:+ d) :: ds) sep = p +:+ strings.Join (d :: ds) sep.
Proof. destruct ds; simpl; [reflexivity|]. now rewrite append_assoc. Qed.

(** Splitting at a byte what was joined with that byte and [gap], when
    no part holds the byte: the parts come back, all but the first with
    [gap] in front. *)
Lemma Split_Join c gap (d : string) (ds : list string) :
  absent c gap -> absent c d -> Forall (absent c) ds ->
  strings.Split (strings.Join (d :: ds) (String c gap)) c = d :: map (String.append gap) ds.
Proof.
  intros Hgap Hd Hds. revert d Hd.
  induction Hds as [|d' ds Hd' _ IH]; intros d Hd.
  - simpl. now apply Split_absent.
  - change (strings.Join (d :: d' :: ds) (String c gap))
      with (d +:+ String c (gap +:+ strings.Join (d' :: ds) (String c gap))).
    rewrite (Split_at c d _ Hd), <- Join_prefix, IH.
    + reflexivity.
    + apply absent_append. auto.
Qed.

(** *** Trimming *)

Lemma TrimLeftFunc_length f s :
  (String.length (strings.TrimLeftFunc f s) <= String.length s)%nat.
Proof. induction s as [|c r IH]; simpl; [lia|]. destruct (f c); simpl; lia. Qed.

Lemma TrimRightFunc_length f s :
  (String.length (strings.TrimRightFunc f s) <= String.length s)%nat.
Proof.
  induction s as [|c r IH]; simpl; [lia|].
  destruct (strings.TrimRightFunc f r); simpl in *; [destruct (f c); simpl; lia | lia].
Qed.

Lemma TrimLeftFunc_head f c s :
  f c = false -> strings.TrimLeftFunc f (String c s) = String c s.
Proof. intros Hc. simpl. now rewrite Hc. Qed.

Lemma TrimLeftFunc_skip f c s :
  f c = true -> strings.TrimLeftFunc f (String c s) = strings.TrimLeftFunc f s.
Proof. intros Hc. simpl. now rewrite Hc. Qed.

Lemma TrimLeftFunc_fixed f s :
  strings.TrimLeftFunc f s = s <-> match s with String c _ => f c = false | "" => True end.
Proof.
  destruct s as [|c r]; simpl; [tauto|].
  destruct (f c) eqn:Hc; [|tauto]. split; [|discriminate].
  intros Heq. pose proof (TrimLeftFunc_length f r) as Hlen. rewrite Heq in Hlen. simpl in Hlen. lia.
Qed.

(** A string is kept by the right trim when it is empty or its last byte
    is kept. *)
Lemma TrimRightFunc_append f a b :
  b <> "" -> strings.TrimRightFunc f b = b -> strings.TrimRightFunc f (a +:+ b) = a +:+ b.
Proof.
  intros Hb Hfix. induction a as [|c a IH]; simpl; [assumption|].
  rewrite IH. destruct (a +:+ b) eqn:Hab; [|reflexivity].
  destruct a; [simpl in Hab; contradiction | discriminate].
Qed.

Lemma TrimRightFunc_last f a c :
  f c = false -> strings.TrimRightFunc f (a +:+ String c "") = a +:+ String c "".
Proof.
  intros Hc. apply TrimRightFunc_append; [discriminate|]. simpl. now rewrite Hc.
Qed.


Lemma trimmed_left s : trimmed s -> strings.TrimLeftFunc strings.isSpace s = s.
Proof.
  unfold trimmed, strings.TrimSpace. intros Heq.
  pose proof (TrimLeftFunc_length strings.isSpace s) as Hl.
  pose proof (TrimRightFunc_length strings.isSpace (strings.TrimLeftFunc strings.isSpace s)) as Hr.
  rewrite Heq in Hr.
  destruct (TrimLeftFunc_fixed strings.isSpace s) as [_ Hfixed]. apply Hfixed.
  destruct s as [|c r]; [exact I|]. simpl in *.
  destruct (strings.isSpace c); [|reflexivity].
  pose proof (TrimLeftFunc_length strings.isSpace r). lia.
Qed.

Lemma trimmed_right s : trimmed s -> strings.TrimRightFunc strings.isSpace s = s.
Proof.
  intros Hs. pose proof (trimmed_left s Hs) as Hl.
  unfold trimmed, strings.TrimSpace in Hs. now rewrite Hl in Hs.
Qed.

Lemma trimmed_intro s :
  strings.TrimLeftFunc strings.isSpace s = s -> strings.TrimRightFunc strings.isSpace s = s ->
  trimmed s.
Proof. unfold trimmed, strings.TrimSpace. now intros -> ->. Qed.

Lemma trimmed_nil : trimmed "".
Proof. reflexivity. Qed.

(** A trimmed string stays trimmed between a byte that is not white space
    in front and a non-empty trimmed string behind. *)
Lemma trimmed_append a b :
  trimmed a -> trimmed b -> b <> "" -> trimmed (a +:+ b).
Proof.
  intros Ha Hb Hne. apply trimmed_intro.
  - destruct a as [|c a]; [now apply trimmed_left|].
    apply TrimLeftFunc_fixed. simpl.
    now apply trimmed_left, TrimLeftFunc_fixed in Ha.
  - apply TrimRightFunc_append; [assumption | now apply trimmed_right].
Qed.

Lemma ltrimmed_append a b :
  strings.TrimLeftFunc strings.isSpace a = a -> a <> "" ->
  strings.TrimLeftFunc strings.isSpace (a +:+ b) = a +:+ b.
Proof.
  intros Ha Hne. destruct a as [|c a]; [contradiction|].
  apply TrimLeftFunc_fixed. now apply TrimLeftFunc_fixed in Ha.
Qed.

Lemma TrimSpace_skip c s :
  strings.isSpace c = true -> strings.TrimSpace (String c s) = strings.TrimSpace s.
Proof. intros Hc. unfold strings.TrimSpace. now rewrite TrimLeftFunc_skip. Qed.

End StringFacts.

(** ** The argument analyzer *)

Section Analyzer.

Variable verbs : list string.

Lemma analyseArguments_length (args : list Expr) (idx : nat) :
  List.length (collector.analyseArguments verbs idx args) = List.length args.
Proof.
  revert idx. induction args as [|arg rest IH]; intros idx; simpl.
  - reflexivity.
  - now rewrite IH.
Qed.

Lemma analyseArguments_nth (args : list Expr) (idx i : nat) (d : collector.Argument) (e : Expr) :
  (i < List.length args)%nat ->
  nth i (collector.analyseArguments verbs idx args) d
  = collector.analyseArgument verbs (idx + i) (nth i args e).
Proof.
  revert idx i. induction args as [|arg rest IH]; intros idx i Hi; simpl in Hi.
  - lia.
  - destruct i as [|i]; simpl.
    + now rewrite Nat.add_0_r.
    + rewrite IH by lia. f_equal. lia.
Qed.

Lemma analyseArguments_verbs (args : list Expr) (idx : nat) :
  (List.length (List.filter collector.carriesVerb (collector.analyseArguments verbs idx args))
   <= Nat.min (List.length verbs - idx) (List.length args))%nat.
Proof.
  revert idx. induction args as [|arg rest IH]; intros idx; simpl.
  - lia.
  - unfold collector.carriesVerb at 1. simpl.
    destruct (String.eqb_spec (nth idx verbs "") "") as [Hempty|Hverb]; simpl.
    + specialize (IH (S idx)). lia.
    + assert (idx < List.length verbs)%nat.
      { destruct (Nat.lt_ge_cases idx (List.length verbs)) as [|Hge]; [assumption|].
        exfalso. apply Hverb. now apply nth_overflow. }
      specialize (IH (S idx)). lia.
Qed.

(** When no verb is empty, the candidates that carry one are counted
    exactly. *)
Lemma analyseArguments_verbs_exact (args : list Expr) (idx : nat) :
  Forall (fun verb => verb <> "") verbs ->
  List.length (List.filter collector.carriesVerb (collector.analyseArguments verbs idx args))
  = Nat.min (List.length verbs - idx) (List.length args).
Proof.
  intros Hverbs. revert idx. induction args as [|arg rest IH]; intros idx; simpl.
  - lia.
  - unfold collector.carriesVerb at 1. simpl.
    destruct (Nat.lt_ge_cases idx (List.length verbs)) as [Hlt|Hge].
    + destruct (String.eqb_spec (nth idx verbs "") "") as [Hempty|_]; simpl.
      * exfalso. rewrite Forall_forall in Hverbs.
        apply (Hverbs (nth idx verbs "")); [|assumption].
        apply list_elem_of_In. now apply nth_In.
      * rewrite IH. lia.
    + rewrite (nth_overflow verbs "" Hge). simpl. rewrite IH. lia.
Qed.

End Analyzer.

Lemma findAll_cons (c : ascii) (r : string) (skip : nat) :
  collector.findAll skip (String c r)
  = match skip with
    | S k => collector.findAll k r
    | O => match collector.matchVerb (String c r) with
           | Some n => strings.take n (String c r) :: collector.findAll (n - 1) r
           | None => collector.findAll O r
           end
    end.
Proof. reflexivity. Qed.

(** A match of the verb pattern has the byte of the percent sign at least. *)
Lemma matchVerb_positive (s : string) (n : nat) :
  collector.matchVerb s = Some n -> exists m, n = S m.
Proof.
  unfold collector.matchVerb. destruct s as [|c r]; [discriminate|].
  destruct c as [[] [] [] [] [] [] [] []]; try discriminate.
  destruct (strings.drop _ _) as [|d rest]; [discriminate|].
  destruct (collector.isVerbLetter d); [|discriminate].
  intros [= <-]. eauto.
Qed.

(** A match of the verb pattern is not empty. *)
Lemma findAll_nonempty (s : string) :
  forall skip, Forall (fun verb => verb <> "") (collector.findAll skip s).
Proof.
  induction s as [|c r IH]; intros skip; [constructor|].
  rewrite findAll_cons. destruct skip as [|k]; [|apply IH].
  destruct (collector.matchVerb (String c r)) as [n|] eqn:Hmatch; [|apply IH].
  constructor; [|apply IH].
  apply matchVerb_positive in Hmatch as [m ->]. discriminate.
Qed.

(** With the verbs of a literal the count is exactly the smaller of the two
    numbers. *)
Lemma analyzer_pairs_exactly (pos end_ : Position) (fn : Expr) (lit : string)
  (rest : list Expr) :
  List.length (List.filter collector.carriesVerb
                 (snd (collector.extractLogDetails
                         (CallExpr pos end_ fn (BasicLit STRING lit :: rest)))))
  = Nat.min (List.length (collector.extractFormatVerbs lit)) (List.length rest).
Proof.
  simpl. rewrite analyseArguments_verbs_exact by apply findAll_nonempty.
  now rewrite Nat.sub_0_r.
Qed.

(** ** Rows that change nothing *)


Lemma makeEntry_unedited filePath packageName entryID call :
  unedited (collector.makeEntry filePath packageName entryID call).
Proof.
  unfold unedited, collector.makeEntry.
  destruct (collector.extractLogDetails call); simpl. auto.
Qed.

Lemma scanCalls_unedited logPattern filePath packageName calls :
  forall entryID, Forall unedited (fst (collector.scanCalls logPattern filePath packageName entryID calls)).
Proof.
  induction calls as [|call rest IH]; intros entryID; simpl.
  - constructor.
  - destruct (_ || _); [apply IH|].
    specialize (IH (entryID + 1)).
    destruct (collector.scanCalls _ _ _ (entryID + 1) rest) as [entries next]; simpl in *.
    constructor; [apply makeEntry_unedited | assumption].
Qed.

Lemma scan_unedited `{GoParser} logPattern paths :
  forall w entryID, Forall unedited (fst (collector.scan w logPattern entryID paths)).
Proof.
  induction paths as [|path rest IH]; intros w entryID; simpl.
  - constructor.
  - destruct (negb _); [apply IH|].
    destruct (collector.parseFile w path logPattern entryID) as [[fileEntries next]|e] eqn:Hparse.
    + specialize (IH w next).
      destruct (collector.scan w logPattern next rest) as [entries w']; simpl in *.
      apply Forall_app. split; [|assumption].
      unfold collector.parseFile in Hparse.
      destruct (readFile path w); [|discriminate].
      destruct (ParseFile path a); [|discriminate].
      injection Hparse as Hscan.
      pose proof (scanCalls_unedited logPattern path (PkgName a0) (fileCalls a0) entryID) as Hu.
      now rewrite Hscan in Hu.
    + apply IH.
Qed.

Lemma skipped_unedited_row (entry : collector.LogEntry) :
  unedited entry ->
  forall i acc, exists update,
    transformer.loadRow i (collector.exportRow entry) acc
    = ((fst acc ++ [update])%list, snd acc)
    /\ transformer.skipped update = true.
Proof.
  intros [Hcall Hmsg] i [updates warnings]. eexists. split; [reflexivity|].
  unfold transformer.skipped; simpl. unfold transformer.cell; simpl.
  now rewrite Hcall, Hmsg.
Qed.

Lemma loadRows_unedited (entries : list collector.LogEntry) :
  Forall unedited entries ->
  forall i acc, Forall (fun u => transformer.skipped u = true) (fst acc) ->
    Forall (fun u => transformer.skipped u = true)
      (fst (transformer.loadRows i (map collector.exportRow entries) acc)).
Proof.
  induction 1 as [|entry rest Hentry _ IH]; intros i acc Hacc; simpl.
  - assumption.
  - destruct (skipped_unedited_row entry Hentry i acc) as (update & -> & Hskip).
    apply IH. simpl. apply Forall_app. split; [assumption|]. now constructor.
Qed.

Lemma groupUpdates_skipped (updates : list transformer.LogUpdate) :
  Forall (fun u => transformer.skipped u = true) updates ->
  forall m, transformer.groupUpdates updates m = m.
Proof.
  induction 1 as [|update rest Hskip _ IH]; intros m; simpl.
  - reflexivity.
  - rewrite Hskip. apply IH.
Qed.

Lemma groupUpdates_drop_skipped (update : transformer.LogUpdate) :
  transformer.skipped update = true ->
  forall before after m,
    transformer.groupUpdates (before ++ update :: after) m
    = transformer.groupUpdates (before ++ after) m.
Proof.
  intros Hskip before. induction before as [|u before IH]; intros after m; simpl.
  - now rewrite Hskip.
  - destruct (transformer.skipped u); apply IH.
Qed.

Lemma skipped_spec (update : transformer.LogUpdate) :
  transformer.skipped update = true
  <-> (transformer.NewMessage update = "" /\ transformer.NewCall update = "")
      \/ (transformer.NewMessage update = transformer.MessageTemplate update
          /\ transformer.NewCall update = transformer.OriginalCall update).
Proof.
  unfold transformer.skipped.
  rewrite orb_true_iff, !andb_true_iff, !String.eqb_eq. reflexivity.
Qed.

Section NoOp.
Context `{GoParser} `{transformer.Env}.

Lemma Transform_unedited (entries : list collector.LogEntry) (w : World)
  (csvFile text rootPath configFile : string) (dryRun autoMap : bool) :
  Forall unedited entries ->
  files w !! csvFile = Some text ->
  transformer.csv_ReadAll text = Ok (collector.exportRecords entries) ->
  untouched (fst (transformer.Transform w csvFile rootPath dryRun configFile autoMap)) w
  /\ snd (transformer.Transform w csvFile rootPath dryRun configFile autoMap)
     <> transformer.Panicked.
Proof.
  intros Hentries Hfile Hcsv. unfold transformer.Transform, untouched.
  destruct (transformer.loadTemplateConfig w configFile) as [config|err]; [|simpl; auto].
  unfold transformer.loadUpdates, readFile. rewrite Hfile, Hcsv.
  unfold transformer.loadRecords, collector.exportRecords.
  destruct (_ <? _)%nat; [simpl; auto|]. simpl List.tl.
  pose proof (loadRows_unedited entries Hentries 1 ([], []) (List.Forall_nil _)) as Hskip.
  destruct (transformer.loadRows 1 _ _) as [updates warnings]; simpl in Hskip.
  rewrite (groupUpdates_skipped updates Hskip). simpl. auto.
Qed.

End NoOp.

(** Claim C4.  A row whose NewMessage and NewCall are both empty, or equal to
    its MessageTemplate and OriginalCall, is left out when [Transform]
    groups the updates by file: the test skips it, and the groups are those
    of the catalog without the row.  Consequently, transforming with the
    catalog as the collector exported it from a scan, nothing filled in,
    leaves every file as it is. *)
Theorem noop_rows_are_excluded `{GoParser} `{transformer.Env} :
  (forall update,
      (transformer.NewMessage update = "" /\ transformer.NewCall update = "")
      \/ (transformer.NewMessage update = transformer.MessageTemplate update
          /\ transformer.NewCall update = transformer.OriginalCall update) ->
      transformer.skipped update = true
      /\ forall before after m,
           transformer.groupUpdates (before ++ update :: after) m
           = transformer.groupUpdates (before ++ after) m)
  /\ (forall w0 logPattern entryID paths w csvFile text rootPath configFile dryRun autoMap,
        files w !! csvFile = Some text ->
        transformer.csv_ReadAll text
        = Ok (collector.exportRecords (fst (collector.scan w0 logPattern entryID paths))) ->
        untouched (fst (transformer.Transform w csvFile rootPath dryRun configFile autoMap)) w).
Proof.
  split.
  - intros update Hnoop. apply skipped_spec in Hnoop.
    split; [assumption|]. now apply groupUpdates_drop_skipped.
  - intros w0 logPattern entryID paths w csvFile text rootPath configFile dryRun autoMap
      Hfile Hcsv.
    eapply Transform_unedited; eauto using scan_unedited.
Qed.




Lemma formatDetail_parts a :
  collector.formatDetail a
  = collector.SuggestedKey a +:+ "(" +:+ collector.Type_ a +:+ ")=" +:+ collector.Expression a
    +:+ verbPart (collector.FormatVerb a).
Proof.
  unfold collector.formatDetail, verbPart.
  destruct (String.eqb _ ""); [now rewrite append_nil_r|].
  now rewrite !append_assoc.
Qed.

Lemma verbPart_trimmed v : trimmed (verbPart v).
Proof.
  unfold verbPart. destruct (String.eqb v ""); [reflexivity|].
  apply trimmed_intro; [reflexivity|].
  change ("[" +:+ v +:+ "]") with (("[" +:+ v) +:+ "]"). now apply TrimRightFunc_last.
Qed.

Lemma verbPart_bracket v :
  strings.Index (verbPart v) "[" = if String.eqb v "" then -1 else 0.
Proof.
  unfold verbPart. destruct (String.eqb v ""); [reflexivity|].
  change ("[" +:+ v +:+ "]") with (String "[" (v +:+ "]")). now rewrite Index_char_cons.
Qed.

Lemma exprPart_trimmed e v : trimmed e -> trimmed (e +:+ verbPart v).
Proof.
  intros He. destruct (string_dec (verbPart v) "") as [->|Hne].
  - now rewrite append_nil_r.
  - apply trimmed_append; auto using verbPart_trimmed.
Qed.

Lemma detail_trimmed k t e v :
  trimmed k -> trimmed e -> trimmed (k +:+ "(" +:+ t +:+ ")=" +:+ e +:+ verbPart v).
Proof.
  intros Hk He. apply trimmed_intro.
  - destruct k as [|c k]; [reflexivity|].
    apply ltrimmed_append; [now apply trimmed_left | discriminate].
  - change (k +:+ "(" +:+ t +:+ ")=" +:+ e +:+ verbPart v)
      with (k +:+ "(" +:+ t +:+ ")" +:+ "=" +:+ e +:+ verbPart v).
    rewrite <- !(append_assoc _ _ ("=" +:+ e +:+ verbPart v)).
    apply TrimRightFunc_append; [discriminate|].
    destruct (e +:+ verbPart v) eqn:Hrest; [reflexivity|]. rewrite <- Hrest.
    apply (TrimRightFunc_append _ "="); [rewrite Hrest; discriminate|].
    apply trimmed_right. now apply exprPart_trimmed.
Qed.

Lemma autoField_detail a :
  wellDelimited a -> transformer.autoField (collector.formatDetail a) = Some (toMapping a).
Proof.
  intros [Hk Hko Hkc Hke _ Ht Htc Hte _ He Heb _ _ _].
  rewrite formatDetail_parts.
  set (k := collector.SuggestedKey a) in *. set (t := collector.Type_ a) in *.
  set (e := collector.Expression a) in *. set (v := collector.FormatVerb a) in *.
  unfold transformer.autoField.
  rewrite (detail_trimmed k t e v Hk He).
  assert (Hopen : strings.Index (k +:+ "(" +:+ t +:+ ")=" +:+ e +:+ verbPart v) "(" = strings.len k)
    by now apply Index_char_at.
  assert (Hclose : strings.Index (k +:+ "(" +:+ t +:+ ")=" +:+ e +:+ verbPart v) ")"
                   = strings.len k + 1 + strings.len t).
  { change (k +:+ "(" +:+ t +:+ ")=" +:+ e +:+ verbPart v)
      with (k +:+ "(" +:+ t +:+ String ")" ("=" +:+ e +:+ verbPart v)).
    rewrite <- (append_assoc "(" t), Index_char_after, len_append; [|assumption|].
    - change (strings.len "(") with 1. lia.
    - apply absent_append. split; [reflexivity | assumption]. }
  assert (Hequals : strings.Index (k +:+ "(" +:+ t +:+ ")=" +:+ e +:+ verbPart v) "="
                    = strings.len k + 1 + strings.len t + 1).
  { change (k +:+ "(" +:+ t +:+ ")=" +:+ e +:+ verbPart v)
      with (k +:+ "(" +:+ t +:+ ")" +:+ String "=" (e +:+ verbPart v)).
    rewrite <- (append_assoc t ")"), <- (append_assoc "(" (t +:+ ")")), Index_char_after;
      [|assumption|].
    - rewrite !len_append. change (strings.len "(") with 1. change (strings.len ")") with 1. lia.
    - rewrite !absent_append. repeat split; (reflexivity || assumption). }
  rewrite Hopen, Hclose, Hequals.
  pose proof (Nat2Z.is_nonneg (String.length k)) as Hk0.
  pose proof (Nat2Z.is_nonneg (String.length t)) as Ht0.
  fold (strings.len k) in Hk0. fold (strings.len t) in Ht0.
  destruct (String.eqb_spec (k +:+ "(" +:+ t +:+ ")=" +:+ e +:+ verbPart v) "") as [Hnil|_].
  { destruct k; discriminate. }
  destruct (Z.eqb_spec (strings.len k) (-1)); [lia|].
  destruct (Z.eqb_spec (strings.len k + 1 + strings.len t) (-1)); [lia|].
  destruct (Z.leb_spec (strings.len k + 1 + strings.len t) (strings.len k)); [lia|].
  destruct (Z.eqb_spec (strings.len k + 1 + strings.len t + 1) (-1)); [lia|].
  destruct (Z.leb_spec (strings.len k + 1 + strings.len t + 1) (strings.len k + 1 + strings.len t));
    [lia|].
  cbn [orb].
  assert (Hkey : strings.take (Z.to_nat (strings.len k))
                   (k +:+ "(" +:+ t +:+ ")=" +:+ e +:+ verbPart v) = k)
    by (apply take_append_n, len_nat).
  assert (Htype : strings.take (Z.to_nat (strings.len k + 1 + strings.len t - (strings.len k + 1)))
                    (strings.drop (Z.to_nat (strings.len k + 1))
                       (k +:+ "(" +:+ t +:+ ")=" +:+ e +:+ verbPart v)) = t).
  { rewrite <- (append_assoc k "("), drop_append_n.
    - apply take_append_n. unfold strings.len. lia.
    - rewrite length_append. unfold strings.len. simpl. lia. }
  assert (Hexpr : strings.drop (Z.to_nat (strings.len k + 1 + strings.len t + 1 + 1))
                    (k +:+ "(" +:+ t +:+ ")=" +:+ e +:+ verbPart v) = e +:+ verbPart v).
  { rewrite <- (append_assoc t ")="), <- (append_assoc "(" (t +:+ ")=")), <- (append_assoc k).
    apply drop_append_n. rewrite !length_append. unfold strings.len. simpl. lia. }
  rewrite Hkey, Htype, Hexpr, Hk, Ht, (exprPart_trimmed e v He).
  rewrite (Index_char_append _ e _ Heb), verbPart_bracket. unfold toMapping. fold k t e.
  destruct (String.eqb v "") eqn:Hv; cbv zeta.
  - simpl. unfold verbPart. rewrite Hv, append_nil_r. reflexivity.
  - change (0 <? 0) with false. cbv iota.
    destruct (Z.eqb_spec (strings.len e + 0) (-1)) as [Hbad|_].
    { pose proof (Nat2Z.is_nonneg (String.length e)). unfold strings.len in Hbad. lia. }
    cbn [negb]. rewrite Z.add_0_r, len_nat, take_append, He. reflexivity.
Qed.

Lemma formatDetail_semi a : wellDelimited a -> absent ";" (collector.formatDetail a).
Proof.
  intros Ha. rewrite formatDetail_parts, !absent_append.
  repeat split; try reflexivity; try apply Ha.
  unfold verbPart. destruct (String.eqb _ ""); [reflexivity|].
  rewrite !absent_append. repeat split; try reflexivity. apply Ha.
Qed.

Lemma autoField_gap part : transformer.autoField (" " +:+ part) = transformer.autoField part.
Proof.
  unfold transformer.autoField. change (" " +:+ part) with (String " " part).
  now rewrite TrimSpace_skip.
Qed.

Lemma omap_cons {A B} (f : A -> option B) (x : A) (l : list A) :
  omap f (x :: l) = match f x with Some y => y :: omap f l | None => omap f l end.
Proof. reflexivity. Qed.

Lemma autoFields_details (args : list collector.Argument) :
  Forall wellDelimited args ->
  omap transformer.autoField (map collector.formatDetail args) = map toMapping args
  /\ omap transformer.autoField (map (String.append " ") (map collector.formatDetail args))
     = map toMapping args.
Proof.
  induction 1 as [|a args Ha _ [IH1 IH2]]; [split; reflexivity|].
  split; cbn [map]; rewrite omap_cons.
  - now rewrite (autoField_detail a Ha), IH1.
  - now rewrite autoField_gap, (autoField_detail a Ha), IH2.
Qed.

Lemma autoGenerate_formatArgumentDetails (args : list collector.Argument) :
  Forall wellDelimited args ->
  transformer.autoGenerateFieldsFromArguments (collector.formatArgumentDetails args)
  = map toMapping args.
Proof.
  intros Hargs. unfold transformer.autoGenerateFieldsFromArguments, collector.formatArgumentDetails.
  destruct Hargs as [|a args Ha Hargs]; [reflexivity|].
  cbn [map]. rewrite (Split_Join ";" " ").
  - rewrite omap_cons, (autoField_detail a Ha).
    destruct (autoFields_details args Hargs) as [_ ->]. reflexivity.
  - reflexivity.
  - now apply formatDetail_semi.
  - apply List.Forall_map. eapply List.Forall_impl; [|exact Hargs].
    intros. now apply formatDetail_semi.
Qed.

(** Claim C6, for candidates that the catalog text holds unambiguously.
    With an empty StructuredFields, and ArgumentDetails as
    [formatArgumentDetails] writes them for candidates that are
    [wellDelimited], auto-mapping resolves one field per candidate, in
    order, with the candidate's suggested key, expression and type; the
    format verb is gone. *)
Theorem auto_mapping_round_trip `{transformer.Env} (update : transformer.LogUpdate)
  (args : list collector.Argument) :
  transformer.StructuredFields update = "" ->
  transformer.ArgumentDetails update = collector.formatArgumentDetails args ->
  Forall wellDelimited args ->
  transformer.resolveFields update true = map toMapping args.
Proof.
  intros Hoverride Hdetails Hargs. unfold transformer.resolveFields.
  rewrite Hoverride, Hdetails. cbn [String.eqb negb andb].
  destruct (String.eqb_spec (collector.formatArgumentDetails args) "") as [Hnil|_]; cbn [negb].
  - rewrite <- (autoGenerate_formatArgumentDetails args Hargs), Hnil. reflexivity.
  - now apply autoGenerate_formatArgumentDetails.
Qed.

Lemma Split_single c s : List.length (strings.Split s c) = 1%nat <-> absent c s.
Proof.
  split; [|intros Hs; now rewrite Split_absent].
  induction s as [|d r IH]; [intros _; apply absent_nil|].
  simpl. pose proof (Split_nonempty c r) as Hne.
  destruct (strings.Split r c) as [|h t]; [contradiction|].
  destruct (Ascii.eqb_spec d c) as [->|Hdc]; simpl; [discriminate|].
  intros Hlen. apply absent_cons. split; [congruence | now apply IH].
Qed.

(** The segments of the simple grammar: at the semicolons when there is
    one, at the commas otherwise. *)
Lemma simpleParts_spec s :
  transformer.simpleParts s
  = if strings.Contains s ";" then strings.Split s ";" else strings.Split s ",".
Proof.
  unfold transformer.simpleParts.
  destruct (strings.Contains s ";") eqn:Hsemi.
  - destruct (Nat.eqb_spec (List.length (strings.Split s ";")) 1) as [Hone|]; [|reflexivity].
    apply Split_single in Hone. unfold absent in Hone. congruence.
  - apply (Split_single ";") in Hsemi as ->. reflexivity.
Qed.

Lemma Contains_at c a b : strings.Contains (a +:+ String c b) (String c "") = true.
Proof.
  unfold strings.Contains. apply Z.leb_le.
  induction a as [|d a IH].
  - rewrite append_nil_l, Index_char_cons, Ascii.eqb_refl. lia.
  - rewrite append_cons, Index_char_cons. destruct (Ascii.eqb c d); [lia|].
    cbv zeta. destruct (Z.ltb_spec (strings.Index (a +:+ String c b) (String c "")) 0); lia.
Qed.

Lemma SplitN2_at c a b :
  absent c a -> strings.SplitN2 (a +:+ String c b) (String c "") = [a; b].
Proof.
  intros Ha. unfold strings.SplitN2. rewrite (Index_char_at c a b Ha).
  pose proof (len_nonneg a). destruct (Z.ltb_spec (strings.len a) 0); [lia|].
  rewrite len_nat, take_append.
  change (a +:+ String c b) with (a +:+ String c "" +:+ b).
  rewrite <- append_assoc, drop_append_n; [reflexivity|].
  rewrite length_append. reflexivity.
Qed.

(** A pair of a trimmed key and a trimmed expression around a separator
    byte is trimmed. *)
Lemma pair_trimmed c key expr :
  strings.isSpace c = false -> trimmed key -> trimmed expr ->
  trimmed (key +:+ String c expr).
Proof.
  intros Hc Hkey Hexpr. apply trimmed_intro.
  - destruct key as [|d key].
    + rewrite append_nil_l. apply TrimLeftFunc_fixed. assumption.
    + apply ltrimmed_append; [now apply trimmed_left | discriminate].
  - destruct expr as [|d expr].
    + now apply TrimRightFunc_last.
    + change (key +:+ String c (String d expr)) with (key +:+ String c "" +:+ String d expr).
      rewrite <- append_assoc. apply TrimRightFunc_append; [discriminate|].
      now apply trimmed_right.
Qed.

Lemma parseSimpleField_pair c key expr :
  strings.isSpace c = false -> trimmed key -> trimmed expr -> absent c key ->
  strings.TrimSpace (key +:+ String c expr) = key +:+ String c expr
  /\ strings.SplitN2 (key +:+ String c expr) (String c "") = [key; expr]
  /\ strings.Contains (key +:+ String c expr) (String c "") = true.
Proof.
  intros Hc Hkey Hexpr Habs. split; [now apply pair_trimmed|].
  split; [now apply SplitN2_at | apply Contains_at].
Qed.

Lemma parseSimpleField_equals key expr :
  trimmed key -> trimmed expr -> absent "=" key ->
  transformer.parseSimpleField (key +:+ "=" +:+ expr)
  = Some {| transformer.Key := key; transformer.Expression := expr;
            transformer.Type_ := "unknown" |}.
Proof.
  intros Hkey Hexpr Habs. unfold transformer.parseSimpleField.
  destruct (parseSimpleField_pair "=" key expr eq_refl Hkey Hexpr Habs) as (Htrim & Hsplit & Hin).
  change ("=" +:+ expr) with (String "=" expr). rewrite Htrim, Hin, Hsplit.
  destruct (String.eqb_spec (key +:+ String "=" expr) "") as [Hnil|_].
  { destruct key; discriminate. }
  cbn [nth]. now rewrite Hkey, Hexpr.
Qed.

Lemma parseSimpleField_colon key expr :
  trimmed key -> trimmed expr -> absent ":" key -> absent "=" key -> absent "=" expr ->
  transformer.parseSimpleField (key +:+ ":" +:+ expr)
  = Some {| transformer.Key := key; transformer.Expression := expr;
            transformer.Type_ := "unknown" |}.
Proof.
  intros Hkey Hexpr Habs Hk He. unfold transformer.parseSimpleField.
  destruct (parseSimpleField_pair ":" key expr eq_refl Hkey Hexpr Habs) as (Htrim & Hsplit & Hin).
  change (":" +:+ expr) with (String ":" expr). rewrite Htrim, Hin, Hsplit.
  destruct (String.eqb_spec (key +:+ String ":" expr) "") as [Hnil|_].
  { destruct key; discriminate. }
  assert (absent "=" (key +:+ String ":" expr)) as ->.
  { apply absent_append. split; [assumption|]. apply absent_cons. split; [discriminate|assumption]. }
  cbn [nth]. now rewrite Hkey, Hexpr.
Qed.

Lemma parseSimpleField_name name :
  trimmed name -> name <> "" -> absent "=" name -> absent ":" name ->
  transformer.parseSimpleField name
  = Some {| transformer.Key := name; transformer.Expression := name;
            transformer.Type_ := "unknown" |}.
Proof.
  intros Htrim Hne Heq Hcolon. unfold transformer.parseSimpleField.
  rewrite Htrim, Heq, Hcolon. now apply String.eqb_neq in Hne as ->.
Qed.

Lemma parseSimpleField_blank part :
  strings.TrimSpace part = "" -> transformer.parseSimpleField part = None.
Proof. intros Hblank. unfold transformer.parseSimpleField. now rewrite Hblank. Qed.

(** ** The walk over the calls *)

Section Walk.
Context `{transformer.Env}.
Variables (filePath : string) (config : transformer.TemplateConfig) (autoMap : bool).

Implicit Types (updateMap : gmap string transformer.LogUpdate) (st : transformer.Patch).

(** In a dry run the walk touches neither the content nor the flag, and
    never panics. *)
Lemma inspect_dry_run updateMap calls st :
  let r := transformer.inspect filePath updateMap config true autoMap calls st in
  transformer.content (fst r) = transformer.content st
  /\ transformer.modified (fst r) = transformer.modified st
  /\ snd r = false.
Proof.
  revert st. induction calls as [|call rest IH]; intros st; cbn zeta; simpl; [auto|].
  unfold transformer.visit.
  destruct (updateMap !! _) as [update|]; [|apply IH].
  destruct (transformer.generateStructuredLogCall update config autoMap);
    match goal with
    | |- context [transformer.inspect _ _ _ _ _ rest ?s] => exact (IH s)
    end.
Qed.

(** A modification, once recorded, stays recorded. *)
Lemma inspect_keeps_modifications updateMap dryRun calls st text :
  text ∈ transformer.modifications st ->
  text ∈ transformer.modifications
           (fst (transformer.inspect filePath updateMap config dryRun autoMap calls st)).
Proof.
  revert st. induction calls as [|call rest IH]; intros st Hin; simpl; [assumption|].
  destruct (transformer.visit _ _ _ _ _ call st) as [st'|] eqn:Hvisit; [|assumption].
  apply IH. unfold transformer.visit in Hvisit.
  destruct (updateMap !! _) as [update|]; [|congruence].
  destruct (transformer.generateStructuredLogCall update config autoMap).
  - destruct dryRun.
    + injection Hvisit as <-. simpl. apply elem_of_app. auto.
    + destruct (transformer.replaceCallExpr _ _ _); [|discriminate].
      injection Hvisit as <-. simpl. apply elem_of_app. auto.
  - injection Hvisit as <-. assumption.
Qed.

(** In a dry run every call at the position of an update whose code is
    generated is recorded with its old and its new text. *)
Lemma inspect_dry_run_reports updateMap calls st call update newCode :
  call ∈ calls ->
  updateMap !! transformer.posKey (Line (callPos call)) (Column (callPos call)) = Some update ->
  transformer.generateStructuredLogCall update config autoMap = Ok newCode ->
  transformer.modificationText filePath call newCode
  ∈ transformer.modifications
      (fst (transformer.inspect filePath updateMap config true autoMap calls st)).
Proof.
  intros Hin Hlookup Hgen. revert st.
  induction calls as [|c rest IH]; intros st; [now apply elem_of_nil in Hin|].
  apply elem_of_cons in Hin as [<-|Hin].
  - simpl. unfold transformer.visit. rewrite Hlookup, Hgen.
    apply inspect_keeps_modifications. simpl. apply elem_of_app. right. constructor.
  - simpl. destruct (transformer.visit _ _ _ _ _ c st) as [st'|] eqn:Hvisit; [now apply IH|].
    exfalso. unfold transformer.visit in Hvisit.
    destruct (updateMap !! transformer.posKey (Line (callPos c)) (Column (callPos c))) as [u|];
      [|discriminate].
    destruct (transformer.generateStructuredLogCall u config autoMap); discriminate Hvisit.
Qed.

End Walk.

Lemma untouched_trans (w1 w2 w3 : World) : untouched w1 w2 -> untouched w2 w3 -> untouched w1 w3.
Proof. unfold untouched. intros [-> ->] [-> ->]. auto. Qed.

Section DryRun.
Context `{GoParser} `{transformer.Env}.




End DryRun.

Section Failures.
Context `{transformer.Env}.
Variables (filePath : string) (config : transformer.TemplateConfig) (dryRun autoMap : bool).

Implicit Types (updateMap : gmap string transformer.LogUpdate) (st : transformer.Patch).

Lemma unknown_style_fails update :
  knownStyle (transformer.Style config) = false ->
  transformer.generateStructuredLogCall update config autoMap
  = Err ("unknown style: " +:+ transformer.Style config).
Proof.
  unfold knownStyle. intros Hstyle. apply bool_decide_eq_false in Hstyle.
  unfold transformer.generateStructuredLogCall. cbv zeta.
  repeat lazymatch goal with
  | |- context [String.eqb (transformer.Style config) ?tag] =>
      destruct (String.eqb_spec (transformer.Style config) tag) as [Heq|_];
      [exfalso; apply Hstyle; rewrite Heq; set_solver|]
  end.
  reflexivity.
Qed.

(** The walk when a call's generation fails: a warning, nothing else. *)
Lemma visit_failure updateMap call update err st :
  updateMap !! transformer.posKey (Line (callPos call)) (Column (callPos call)) = Some update ->
  transformer.generateStructuredLogCall update config autoMap = Err err ->
  transformer.visit filePath updateMap config dryRun autoMap call st
  = Some (withWarning (generationWarning update err) st).
Proof. intros Hlookup Hgen. unfold transformer.visit. now rewrite Hlookup, Hgen. Qed.

(** The warnings have no part in what the walk does to the content. *)
Lemma visit_sameEdits updateMap call st1 st2 :
  sameEdits st1 st2 ->
  match transformer.visit filePath updateMap config dryRun autoMap call st1,
        transformer.visit filePath updateMap config dryRun autoMap call st2 with
  | Some st1', Some st2' => sameEdits st1' st2'
  | None, None => True
  | _, _ => False
  end.
Proof.
  intros (Hc & Hm & Hf). unfold transformer.visit.
  destruct (updateMap !! _) as [update|]; [|now repeat split].
  destruct (transformer.generateStructuredLogCall update config autoMap) as [newCode|err].
  - destruct dryRun; [repeat split; simpl; congruence|].
    rewrite Hc. destruct (transformer.replaceCallExpr call newCode _); simpl; [|exact I].
    repeat split; simpl; congruence.
  - repeat split; assumption.
Qed.

Lemma inspect_sameEdits updateMap calls st1 st2 :
  sameEdits st1 st2 ->
  let r1 := transformer.inspect filePath updateMap config dryRun autoMap calls st1 in
  let r2 := transformer.inspect filePath updateMap config dryRun autoMap calls st2 in
  sameEdits (fst r1) (fst r2) /\ snd r1 = snd r2.
Proof.
  revert st1 st2. induction calls as [|call rest IH]; intros st1 st2 Hsame; simpl; [auto|].
  pose proof (visit_sameEdits updateMap call st1 st2 Hsame) as Hvisit.
  destruct (transformer.visit _ _ _ _ _ call st1), (transformer.visit _ _ _ _ _ call st2);
    try contradiction; [now apply IH | auto].
Qed.

Lemma inspect_keeps_warnings updateMap calls st text :
  text ∈ transformer.warnings st ->
  text ∈ transformer.warnings
           (fst (transformer.inspect filePath updateMap config dryRun autoMap calls st)).
Proof.
  revert st. induction calls as [|call rest IH]; intros st Hin; simpl; [assumption|].
  destruct (transformer.visit _ _ _ _ _ call st) as [st'|] eqn:Hvisit; [|assumption].
  apply IH. unfold transformer.visit in Hvisit.
  destruct (updateMap !! _) as [update|]; [|congruence].
  destruct (transformer.generateStructuredLogCall update config autoMap).
  - destruct dryRun; [now injection Hvisit as <-|].
    destruct (transformer.replaceCallExpr _ _ _); [|discriminate].
    now injection Hvisit as <-.
  - injection Hvisit as <-. simpl. apply elem_of_app. auto.
Qed.

Lemma inspect_app updateMap calls1 calls2 st :
  transformer.inspect filePath updateMap config dryRun autoMap (calls1 ++ calls2) st
  = let r := transformer.inspect filePath updateMap config dryRun autoMap calls1 st in
    if snd r then r
    else transformer.inspect filePath updateMap config dryRun autoMap calls2 (fst r).
Proof.
  revert st. induction calls1 as [|call rest IH]; intros st; simpl; [reflexivity|].
  destruct (transformer.visit _ _ _ _ _ call st); [apply IH | reflexivity].
Qed.

(** When every generation fails the walk changes nothing and ends. *)
Lemma inspect_all_fail updateMap calls st :
  (forall update, exists err,
      transformer.generateStructuredLogCall update config autoMap = Err err) ->
  let r := transformer.inspect filePath updateMap config dryRun autoMap calls st in
  sameEdits (fst r) st /\ snd r = false.
Proof.
  intros Hfail. revert st. induction calls as [|call rest IH]; intros st; simpl.
  - repeat split.
  - unfold transformer.visit.
    destruct (updateMap !! _) as [update|]; [|apply IH].
    destruct (Hfail update) as [err ->].
    match goal with
    | |- context [transformer.inspect _ _ _ _ _ rest ?s] => exact (IH s)
    end.
Qed.

End Failures.

Section UnknownStyle.
Context `{GoParser} `{transformer.Env}.
Variable config : transformer.TemplateConfig.
Hypothesis unknown : knownStyle (transformer.Style config) = false.

Lemma unknown_style_all_fail autoMap update :
  exists err, transformer.generateStructuredLogCall update config autoMap = Err err.
Proof. eexists. now apply unknown_style_fails. Qed.

Lemma inspect_warns_failures filePath dryRun autoMap
  (updateMap : gmap string transformer.LogUpdate) calls st call update err :
  (forall u, exists e, transformer.generateStructuredLogCall u config autoMap = Err e) ->
  call ∈ calls ->
  updateMap !! transformer.posKey (Line (callPos call)) (Column (callPos call)) = Some update ->
  transformer.generateStructuredLogCall update config autoMap = Err err ->
  generationWarning update err
  ∈ transformer.warnings
      (fst (transformer.inspect filePath updateMap config dryRun autoMap calls st)).
Proof.
  intros Hfail Hin Hlookup Hgen. revert st.
  induction calls as [|c rest IH]; intros st; [now apply elem_of_nil in Hin|].
  apply elem_of_cons in Hin as [<-|Hin]; simpl.
  - rewrite (visit_failure filePath config dryRun autoMap updateMap call update err st Hlookup Hgen).
    apply inspect_keeps_warnings. simpl. apply elem_of_app. right. constructor.
  - destruct (transformer.visit filePath updateMap config dryRun autoMap c st) as [st'|] eqn:Hvisit;
      [now apply IH|].
    exfalso. unfold transformer.visit in Hvisit.
    destruct (updateMap !! transformer.posKey (Line (callPos c)) (Column (callPos c))) as [u|];
      [|discriminate].
    destruct (Hfail u) as [e He]. rewrite He in Hvisit. discriminate.
Qed.

Lemma transformFile_unknown_style w filePath updates dryRun autoMap :
  let r := transformer.transformFile w filePath updates config dryRun autoMap in
  untouched (fst r) w /\ stdout (fst r) = stdout w /\ snd r <> transformer.Panicked.
Proof.
  unfold transformer.transformFile.
  destruct (readFile filePath w) as [original|]; [|repeat split; discriminate].
  destruct (ParseFile filePath original) as [node|]; [|repeat split; discriminate].
  match goal with
  | |- context [transformer.inspect ?p ?m _ _ _ ?cs ?s] =>
      destruct (inspect_all_fail p config dryRun autoMap m cs s (unknown_style_all_fail autoMap))
        as ((_ & Hmods & Hflag) & Hpanic);
      destruct (transformer.inspect p m config dryRun autoMap cs s) as [st panicked]
  end.
  simpl in Hmods, Hflag, Hpanic. subst panicked. unfold transformer.finishFile. cbv zeta.
  rewrite Hflag, Hmods. simpl. rewrite app_nil_r. repeat split. discriminate.
Qed.

Lemma transformFiles_unknown_style fileUpdates dryRun autoMap :
  forall w, untouched (fst (transformer.transformFiles w fileUpdates config dryRun autoMap)) w.
Proof.
  induction fileUpdates as [|[filePath updates] rest IH]; intros w; simpl;
    [split; reflexivity|].
  destruct (transformFile_unknown_style w filePath updates dryRun autoMap) as (Hfiles & _ & _).
  destruct (transformer.transformFile w filePath updates config dryRun autoMap) as [w' [|err|]];
    simpl in *; [|assumption|assumption].
  eapply untouched_trans; [apply IH | assumption].
Qed.

End UnknownStyle.

(** Claim C3, as the code has it.  With a style outside slog, zap, zerolog,
    logrus and custom, generation fails for every row with the error
    unknown style.  [transformFile] then changes no file; on a file that is
    read and parsed it ends without error, having written a warning for
    every call at the position of an update.  [Transform] leaves every file
    as it was. *)
Theorem unknown_style_fails_each_entry `{GoParser} `{transformer.Env} (w : World)
  (config : transformer.TemplateConfig) :
  knownStyle (transformer.Style config) = false ->
  (forall update autoMap,
      transformer.generateStructuredLogCall update config autoMap
      = Err ("unknown style: " +:+ transformer.Style config))
  /\ (forall filePath updates dryRun autoMap,
        let r := transformer.transformFile w filePath updates config dryRun autoMap in
        untouched (fst r) w
        /\ forall original node,
             readFile filePath w = Ok original ->
             ParseFile filePath original = Ok node ->
             snd r = transformer.Done
             /\ forall call update,
                  call ∈ fileCalls node ->
                  transformer.buildUpdateMap updates ∅
                    !! transformer.posKey (Line (callPos call)) (Column (callPos call))
                  = Some update ->
                  generationWarning update ("unknown style: " +:+ transformer.Style config)
                  ∈ stderr (fst r))
  /\ (forall csvFile rootPath dryRun configFile autoMap,
        transformer.loadTemplateConfig w configFile = Ok config ->
        untouched (fst (transformer.Transform w csvFile rootPath dryRun configFile autoMap)) w).
Proof.
  intros Hunknown. split; [intros; now apply unknown_style_fails|]. split.
  - intros filePath updates dryRun autoMap r.
    split; [apply (transformFile_unknown_style config Hunknown)|].
    intros original node Hread Hparse. subst r. unfold transformer.transformFile.
    rewrite Hread, Hparse.
    set (updateMap := transformer.buildUpdateMap updates ∅).
    set (st0 := {| transformer.content := original |}).
    destruct (inspect_all_fail filePath config dryRun autoMap updateMap (fileCalls node) st0
                (unknown_style_all_fail config Hunknown autoMap)) as ((_ & Hmods & Hflag) & Hpanic).
    pose proof (fun call update =>
                  inspect_warns_failures config filePath dryRun autoMap updateMap (fileCalls node)
                    st0 call update ("unknown style: " +:+ transformer.Style config)
                    (unknown_style_all_fail config Hunknown autoMap)) as Hwarn.
    destruct (transformer.inspect filePath updateMap config dryRun autoMap (fileCalls node) st0)
      as [st panicked].
    simpl in Hmods, Hflag, Hpanic, Hwarn. subst panicked. unfold transformer.finishFile.
    cbv zeta. rewrite Hflag, Hmods. simpl. split; [reflexivity|].
    intros call update Hin Hlookup. apply elem_of_app. right.
    apply (Hwarn call update Hin Hlookup). now apply unknown_style_fails.
  - intros csvFile rootPath dryRun configFile autoMap Hconfig.
    unfold transformer.Transform. rewrite Hconfig.
    destruct (transformer.loadUpdates w csvFile) as [[updates skippedRows]|];
      [|split; reflexivity].
    destruct (_ =? _)%nat; [split; reflexivity|].
    exact (transformFiles_unknown_style config Hunknown _ dryRun autoMap
             (transformer.warnAll skippedRows w)).
Qed.

Lemma custom_style_generation `{transformer.Env} update config autoMap :
  transformer.Style config = "custom" ->
  transformer.generateStructuredLogCall update config autoMap
  = transformer.generateCustomCall (transformer.Template config) (transformer.LoggerVar config)
      (transformer.LogLevel update) (transformer.resolveMessage update)
      (transformer.resolveFields update autoMap).
Proof. intros Hstyle. unfold transformer.generateStructuredLogCall. now rewrite Hstyle. Qed.

(** What happens after the walk does not look at the warnings, except to
    print them. *)
Lemma finishFile_sameEdits w filePath dryRun st1 st2 panicked :
  sameEdits st1 st2 ->
  let r1 := transformer.finishFile w filePath dryRun (st1, panicked) in
  let r2 := transformer.finishFile w filePath dryRun (st2, panicked) in
  untouched (fst r1) (fst r2) /\ stdout (fst r1) = stdout (fst r2) /\ snd r1 = snd r2.
Proof.
  intros (Hcontent & Hmods & Hflag). unfold transformer.finishFile.
  destruct panicked; [repeat split|]. cbv zeta. rewrite Hcontent, Hmods, Hflag.
  destruct (transformer.modified st2 && negb dryRun).
  - unfold writeFile. simpl. destruct (decide (filePath ∈ locked w)); repeat split.
  - destruct (_ && dryRun); repeat split.
Qed.

(** ** Decimal text *)

Lemma to_int_nonnil n : Z.to_int n <> Decimal.Pos Decimal.Nil /\ Z.to_int n <> Decimal.Neg Decimal.Nil.
Proof.
  destruct n as [|p|p]; simpl; split; try discriminate;
    intros Heq; injection Heq as Heq; now apply Unsigned.to_uint_nonnil in Heq.
Qed.

Lemma Itoa_inj a b : strconv.Itoa a = strconv.Itoa b -> a = b.
Proof.
  unfold strconv.Itoa. intros Heq.
  apply (f_equal NilZero.int_of_string) in Heq.
  destruct (to_int_nonnil a), (to_int_nonnil b).
  rewrite !NilZero.isi in Heq by assumption.
  injection Heq as Heq. apply (f_equal Z.of_int) in Heq. now rewrite !of_to in Heq.
Qed.

Lemma uint_text_no_colon d : absent ":" (NilEmpty.string_of_uint d).
Proof.
  induction d; simpl; [reflexivity|..]; (apply absent_cons; split; [discriminate | assumption]).
Qed.

Lemma Itoa_no_colon n : absent ":" (strconv.Itoa n).
Proof.
  unfold strconv.Itoa, NilZero.string_of_int, NilZero.string_of_uint.
  destruct (Z.to_int n) as [d|d]; [|apply absent_cons; split; [discriminate|]];
    destruct d; try reflexivity; apply (uint_text_no_colon (_ d)).
Qed.

Lemma append_sep_inj c a a' b b' :
  absent c a -> absent c a' ->
  a +:+ String c b = a' +:+ String c b' -> a = a' /\ b = b'.
Proof.
  revert a'. induction a as [|d a IH]; intros [|d' a'] Ha Ha'; simpl.
  - now intros [= ->].
  - intros [= <- _]. apply absent_cons in Ha' as [Hne _]. now destruct Hne.
  - intros [= -> _]. apply absent_cons in Ha as [Hne _]. now destruct Hne.
  - intros [= -> Heq]. apply absent_cons in Ha as [_ Ha]. apply absent_cons in Ha' as [_ Ha'].
    destruct (IH a' Ha Ha' Heq) as [-> ->]. auto.
Qed.

(** The key of a position determines the position. *)
Lemma posKey_inj l c l' c' :
  transformer.posKey l c = transformer.posKey l' c' -> l = l' /\ c = c'.
Proof.
  unfold transformer.posKey. intros Heq.
  apply append_sep_inj in Heq as [Hl Hc]; auto using Itoa_no_colon.
  split; now apply Itoa_inj.
Qed.

(** ** The map of updates *)




Section SameLookups.
Context `{transformer.Env}.
Variables (filePath : string) (config : transformer.TemplateConfig) (dryRun autoMap : bool).


End SameLookups.




(** Claim C8, with the call that the code generates.  For
    [log.Printf("error: %v", err)] the collector records the literal with
    its quotes as the message template, the level Info, and one candidate
    with key error, type error, expression err and verb %v.  The row
    exported for it, with "Failed to process request" as NewMessage and no
    override, is loaded as one update without a warning, and the slog style
    with the logger variable logger generates
    [logger.info("Failed to process request", slog.Any("error", err))]. *)
Theorem printf_error_scenario (E : transformer.Env) (pos end_ : Position)
  (filePath packageName : string) (entryID : Z) :
  let entry := collector.makeEntry filePath packageName entryID (scenario.printfCall pos end_) in
  collector.MessageTemplate entry = dq +:+ "error: %v" +:+ dq
  /\ collector.LogLevel entry = "Info"
  /\ collector.Arguments entry
     = [{| collector.Index := 0; collector.Expression := "err"; collector.VarName := "err";
           collector.Type_ := "error"; collector.FormatVerb := "%v";
           collector.SuggestedKey := "error" |}]
  /\ exists update,
       scenario.editedUpdates (scenario.printfCall pos end_) filePath packageName entryID
         "Failed to process request" = ([update], [])
       /\ transformer.generateStructuredLogCall update (scenario.styleConfig "slog") true
          = Ok ("logger.info(" +:+ dq +:+ "Failed to process request" +:+ dq
                +:+ ", slog.Any(" +:+ dq +:+ "error" +:+ dq +:+ ", err))").
Proof.
  intros entry. repeat split; try reflexivity.
  eexists. split; reflexivity.
Qed.


(** Claim C7.  The fields of a row are resolved in this order.  A
    non-empty StructuredFields that [json.Unmarshal] accepts is the field
    list, whatever ArgumentDetails and the auto-map switch are.  A non-empty
    StructuredFields that it rejects is read by [parseSimpleFields]:
    segment by segment, the segments lying between the semicolons when
    there is a semicolon and between the commas otherwise.  Only an empty
    StructuredFields leaves the fields to auto-derivation.  Of the
    segments, [key=expr] and [key:expr] give the key and the expression,
    and a bare name gives itself as both, all with the type unknown. *)
Theorem field_resolution_precedence `{transformer.Env} (update : transformer.LogUpdate)
  (autoMap : bool) :
  let override := transformer.StructuredFields update in
  (forall fields,
      override <> "" -> transformer.json_Unmarshal_fields override = Some fields ->
      transformer.resolveFields update autoMap = fields)
  /\ (override <> "" -> transformer.json_Unmarshal_fields override = None ->
      transformer.resolveFields update autoMap = transformer.parseSimpleFields override
      /\ transformer.parseSimpleFields override
         = omap transformer.parseSimpleField
             (if strings.Contains override ";" then strings.Split override ";"
              else strings.Split override ","))
  /\ (override = "" ->
      transformer.resolveFields update autoMap
      = if autoMap && negb (String.eqb (transformer.ArgumentDetails update) "")
        then transformer.autoGenerateFieldsFromArguments (transformer.ArgumentDetails update)
        else [])
  /\ (forall key expr,
        strings.ascii_text (key +:+ expr) = true ->
        trimmed key -> trimmed expr -> absent "=" key ->
        transformer.parseSimpleField (key +:+ "=" +:+ expr)
        = Some {| transformer.Key := key; transformer.Expression := expr;
                  transformer.Type_ := "unknown" |})
  /\ (forall key expr,
        strings.ascii_text (key +:+ expr) = true ->
        trimmed key -> trimmed expr -> absent ":" key -> absent "=" key -> absent "=" expr ->
        transformer.parseSimpleField (key +:+ ":" +:+ expr)
        = Some {| transformer.Key := key; transformer.Expression := expr;
                  transformer.Type_ := "unknown" |})
  /\ (forall name,
        strings.ascii_text name = true ->
        trimmed name -> name <> "" -> absent "=" name -> absent ":" name ->
        transformer.parseSimpleField name
        = Some {| transformer.Key := name; transformer.Expression := name;
                  transformer.Type_ := "unknown" |}).
Proof.
  intros override. subst override. unfold transformer.resolveFields.
  repeat split.
  - intros fields Hne Hjson. apply String.eqb_neq in Hne. now rewrite Hne, Hjson.
  - apply String.eqb_neq in H0. now rewrite H0, H1.
  - unfold transformer.parseSimpleFields. now rewrite simpleParts_spec.
  - intros ->. reflexivity.
  - intros key expr _. apply parseSimpleField_equals.
  - intros key expr _. apply parseSimpleField_colon.
  - intros name _. apply parseSimpleField_name.
Qed.

(** ** One replacement on one line *)

Lemma map_append_nil (ds : list string) : map (String.append "") ds = ds.
Proof. induction ds as [|d ds IH]; simpl; [reflexivity | now rewrite IH]. Qed.

Lemma Split_Join_lines (ls : list string) :
  ls <> [] -> Forall (absent "010") ls -> strings.Split (strings.Join ls nl) "010" = ls.
Proof.
  intros Hne Hls. destruct Hls as [|d ds Hd Hds]; [contradiction|].
  unfold nl. rewrite (Split_Join "010" "" d ds); [|reflexivity|assumption..].
  now rewrite map_append_nil.
Qed.

(** On content whose lines are [ls], a call that spans [old] on the line of
    index [i], between [a] and [b], is replaced by [new]: that line becomes
    [a new b] and no other line changes. *)
Lemma replaceCallExpr_single_line (ls : list string) (i : nat) (a old b new : string)
  (fn : Expr) (args : list Expr) :
  Forall (absent "010") ls ->
  ls !! i = Some (a +:+ old +:+ b) ->
  let pos := {| Line := Z.of_nat i + 1; Column := strings.len a + 1 |} in
  let end_ := {| Line := Z.of_nat i + 1; Column := strings.len a + strings.len old + 1 |} in
  transformer.replaceCallExpr (CallExpr pos end_ fn args) new (strings.Join ls nl)
  = Some (strings.Join (<[i := a +:+ new +:+ b]> ls) nl).
Proof.
  intros Hls Hline pos end_. unfold transformer.replaceCallExpr. cbn [callPos callEnd].
  rewrite Split_Join_lines; [|intros ->; discriminate|assumption].
  pose proof (lookup_lt_Some _ _ _ Hline) as Hi. subst pos end_. cbn [Line Column].
  destruct (Z.ltb_spec (Z.of_nat (List.length ls)) (Z.of_nat i + 1)); [lia|]. cbn [orb].
  rewrite Z.eqb_refl. unfold transformer.index.
  replace (Z.of_nat i + 1 - 1) with (Z.of_nat i) by lia.
  destruct (Z.ltb_spec (Z.of_nat i) 0); [lia|]. rewrite Nat2Z.id, Hline. cbn [mbind option_bind].
  unfold strings.slice_to, strings.slice_from. rewrite !len_append.
  pose proof (len_nonneg a). pose proof (len_nonneg old). pose proof (len_nonneg b).
  replace (strings.len a + 1 - 1) with (strings.len a) by lia.
  replace (strings.len a + strings.len old + 1 - 1) with (strings.len a + strings.len old) by lia.
  destruct (Z.leb_spec 0 (strings.len a)); [|lia].
  destruct (Z.leb_spec (strings.len a) (strings.len a + (strings.len old + strings.len b))); [|lia].
  destruct (Z.leb_spec 0 (strings.len a + strings.len old)); [|lia].
  destruct (Z.leb_spec (strings.len a + strings.len old)
              (strings.len a + (strings.len old + strings.len b))); [|lia].
  cbn [andb mbind option_bind].
  assert (Hafter : strings.drop (Z.to_nat (strings.len a + strings.len old)) (a +:+ old +:+ b) = b).
  { rewrite <- append_assoc. apply drop_append_n. rewrite length_append. unfold strings.len. lia. }
  now rewrite len_nat, take_append, Hafter.
Qed.

(** Two calls on two lines are both replaced, whichever comes first, as
    long as the first replacement is on one line. *)
Lemma replaceCallExpr_two_lines (ls : list string) (i j : nat)
  (a1 old1 b1 new1 a2 old2 b2 new2 : string) (fn1 fn2 : Expr) (args1 args2 : list Expr) :
  Forall (absent "010") ls -> absent "010" (a1 +:+ new1 +:+ b1) ->
  i <> j ->
  ls !! i = Some (a1 +:+ old1 +:+ b1) ->
  ls !! j = Some (a2 +:+ old2 +:+ b2) ->
  (content ← transformer.replaceCallExpr
     (CallExpr {| Line := Z.of_nat i + 1; Column := strings.len a1 + 1 |}
        {| Line := Z.of_nat i + 1; Column := strings.len a1 + strings.len old1 + 1 |}
        fn1 args1) new1 (strings.Join ls nl);
   transformer.replaceCallExpr
     (CallExpr {| Line := Z.of_nat j + 1; Column := strings.len a2 + 1 |}
        {| Line := Z.of_nat j + 1; Column := strings.len a2 + strings.len old2 + 1 |}
        fn2 args2) new2 content)
  = Some (strings.Join (<[j := a2 +:+ new2 +:+ b2]> (<[i := a1 +:+ new1 +:+ b1]> ls)) nl).
Proof.
  intros Hls Hnew Hij Hi Hj.
  rewrite (replaceCallExpr_single_line ls i a1 old1 b1 new1 fn1 args1 Hls Hi).
  cbn [mbind option_bind].
  apply replaceCallExpr_single_line.
  - apply Forall_insert; assumption.
  - now rewrite list_lookup_insert_ne.
Qed.

(** Claim C1, on two matched calls on one line.  The transformer is run on
    [func f() { log.Print(1); log.Print(2) }] with both rows of the scanned
    catalog edited.  The code generated for the two calls is right and the
    run ends without error, but the file it writes is not the source with
    the two call expressions replaced: the second replacement is cut with
    the columns of the original line out of the line that the first
    replacement has already made longer. *)
Theorem same_line_edits_use_stale_columns :
  snd (transformer.Transform (H := parser) (H0 := plainEnv) twoCallsWorld
         "catalog.csv" "." false "" true) = transformer.Done
  /\ map (fun update => transformer.generateStructuredLogCall (H := plainEnv) update
                          defaultConfig true) twoCallsUpdates
     = [Ok ("log.info(" +:+ dq +:+ "one" +:+ dq +:+ ")");
        Ok ("log.info(" +:+ dq +:+ "two" +:+ dq +:+ ")")]
  /\ files (fst (transformer.Transform (H := parser) (H0 := plainEnv) twoCallsWorld
                   "catalog.csv" "." false "" true)) !! "main.go" = Some twoCallsActual
  /\ twoCallsActual <> twoCallsExpected.
Proof. vm_compute. repeat split. discriminate. Qed.

(** With replacements shorter than the calls, the second replacement
    slices past the end of the line. *)
Lemma same_line_edits_can_panic :
  (content ← transformer.replaceCallExpr firstCall "x()" twoCallsSource;
   transformer.replaceCallExpr secondCall "y()" content) = None.
Proof. reflexivity. Qed.

(** ** The theorems at concrete inputs *)

(** The style fancy on the source of the two calls. *)
Lemma unknown_style_fails_each_entry_witness :
  knownStyle (transformer.Style (styleConfig "fancy")) = false
  /\ untouched (fst (transformer.transformFile (H := parser) (H0 := plainEnv) twoCallsWorld
                       "main.go" twoCallsUpdates (styleConfig "fancy") false true))
       twoCallsWorld.
Proof.
  split; [reflexivity|].
  exact (proj1 (proj1 (proj2 (unknown_style_fails_each_entry (H := parser) (H0 := plainEnv)
                                twoCallsWorld (styleConfig "fancy") eq_refl))
                  "main.go" twoCallsUpdates false true)).
Defined.

(** Claim C3 does not hold as a fatal error.  With the style fancy in the
    configuration file, the run on the source of the two calls ends with a
    nil error. *)
Lemma unknown_style_is_not_fatal :
  knownStyle "fancy" = false
  /\ transformer.loadTemplateConfig (H := plainEnv) (withConfig "fancy" twoCallsWorld) "style.json"
     = Ok (styleConfig "fancy")
  /\ snd (transformer.Transform (H := parser) (H0 := plainEnv) (withConfig "fancy" twoCallsWorld)
            "catalog.csv" "." false "style.json" true)
     = transformer.Done.
Proof. vm_compute. repeat split. Qed.

(** The catalog of the two calls as exported, transformed at once. *)
Lemma noop_rows_are_excluded_witness :
  files (withCatalog (collector.exportRecords scanned) sources) !! "catalog.csv"
  = Some (catalogText (collector.exportRecords scanned))
  /\ transformer.csv_ReadAll (Env := plainEnv) (catalogText (collector.exportRecords scanned))
     = Ok (collector.exportRecords
             (fst (collector.scan (H := parser) sources logPattern 1 ["main.go"])))
  /\ untouched (fst (transformer.Transform (H := parser) (H0 := plainEnv)
                       (withCatalog (collector.exportRecords scanned) sources)
                       "catalog.csv" "." false "" true))
       (withCatalog (collector.exportRecords scanned) sources).
Proof.
  assert (Hfile : files (withCatalog (collector.exportRecords scanned) sources) !! "catalog.csv"
                  = Some (catalogText (collector.exportRecords scanned))) by reflexivity.
  assert (Hcsv : transformer.csv_ReadAll (Env := plainEnv)
                   (catalogText (collector.exportRecords scanned))
                 = Ok (collector.exportRecords
                         (fst (collector.scan (H := parser) sources logPattern 1 ["main.go"]))))
    by (vm_compute; reflexivity).
  split; [exact Hfile|]. split; [exact Hcsv|].
  exact (proj2 (noop_rows_are_excluded (H := parser) (H0 := plainEnv))
           sources logPattern 1 ["main.go"] _ "catalog.csv" _ "." "" false true Hfile Hcsv).
Defined.

(** The candidate of [log.Printf("error: %v", err)] through the catalog. *)
Lemma auto_mapping_round_trip_witness :
  fst (editedUpdates (printfCall (at_ 1 1) (at_ 1 29)) "main.go" "main" 1
         "Failed to process request") = [printfUpdate]
  /\ Forall wellDelimited (collector.Arguments printfEntry)
  /\ transformer.resolveFields (H := plainEnv) printfUpdate true
     = map toMapping (collector.Arguments printfEntry).
Proof.
  assert (Hargs : Forall wellDelimited (collector.Arguments printfEntry))
    by (repeat constructor).
  split; [reflexivity|]. split; [exact Hargs|].
  exact (auto_mapping_round_trip (H := plainEnv) printfUpdate (collector.Arguments printfEntry)
           eq_refl eq_refl Hargs).
Defined.

(** Claim C6 does not hold of every candidate.  For
    [log.Printf("failed: %s", err.Error())] the candidate's key is error()
    and its type is func_result; auto-mapping reads the key error and the
    empty type back from the catalog text. *)
Lemma auto_mapping_loses_call_arguments :
  map toMapping (collector.Arguments methodArgEntry)
  = [{| transformer.Key := "error()"; transformer.Expression := "err.Error()";
        transformer.Type_ := "func_result" |}]
  /\ map (fun update => transformer.resolveFields (H := plainEnv) update true)
       (fst (editedUpdates methodArgCall "main.go" "main" 1 "Failed"))
     = [[{| transformer.Key := "error"; transformer.Expression := "err.Error()";
            transformer.Type_ := "" |}]]
  /\ map (fun update => transformer.resolveFields (H := plainEnv) update true)
       (fst (editedUpdates methodArgCall "main.go" "main" 1 "Failed"))
     <> [map toMapping (collector.Arguments methodArgEntry)].
Proof. vm_compute. repeat split. discriminate. Qed.

(** An override that is JSON, one in the simple grammar, and none. *)
Lemma field_resolution_precedence_witness :
  transformer.resolveFields (H := plainEnv) (overrideUpdate "[]") true = []
  /\ transformer.resolveFields (H := plainEnv) (overrideUpdate "user_id=userID, ip:addr") true
     = transformer.parseSimpleFields "user_id=userID, ip:addr"
  /\ transformer.resolveFields (H := plainEnv) (overrideUpdate "") true
     = transformer.autoGenerateFieldsFromArguments "error(error)=err[%v]"
  /\ transformer.parseSimpleField "user_id=userID"
     = Some {| transformer.Key := "user_id"; transformer.Expression := "userID";
               transformer.Type_ := "unknown" |}
  /\ transformer.parseSimpleField "ip:addr"
     = Some {| transformer.Key := "ip"; transformer.Expression := "addr";
               transformer.Type_ := "unknown" |}
  /\ transformer.parseSimpleField "err"
     = Some {| transformer.Key := "err"; transformer.Expression := "err";
               transformer.Type_ := "unknown" |}.
Proof.
  destruct (field_resolution_precedence (H := plainEnv) (overrideUpdate "[]") true)
    as (Hjson & _ & _ & Hequals & Hcolon & Hname).
  destruct (field_resolution_precedence (H := plainEnv)
              (overrideUpdate "user_id=userID, ip:addr") true) as (_ & Hsimple & _).
  destruct (field_resolution_precedence (H := plainEnv) (overrideUpdate "") true)
    as (_ & _ & Hauto & _).
  split; [apply Hjson; [discriminate | reflexivity]|].
  split; [apply Hsimple; [discriminate | reflexivity]|].
  split; [apply Hauto; reflexivity|].
  split; [apply (Hequals "user_id" "userID"); reflexivity|].
  split; [apply (Hcolon "ip" "addr"); reflexivity|].
  apply (Hname "err"); (reflexivity || discriminate).
Defined.



(** Claim C8 names another call.  The generated call is not
    [logger.Error("Failed to process request", Any("error", err))]: the
    method is the level of the row in lower case, info for [log.Printf],
    and the wrapper is [slog.Any]. *)
Lemma printf_error_scenario_not_as_claimed :
  map (fun update => transformer.generateStructuredLogCall (H := plainEnv) update
                       (styleConfig "slog") true)
    (fst (editedUpdates (printfCall (at_ 1 1) (at_ 1 29)) "main.go" "main" 1
            "Failed to process request"))
  <> [Ok ("logger.Error(" +:+ dq +:+ "Failed to process request" +:+ dq
          +:+ ", Any(" +:+ dq +:+ "error" +:+ dq +:+ ", err))")].
Proof. vm_compute. discriminate. Qed.

(** * Further properties of the two passes *)

(** ** Decimal text read back *)

Lemma digits_of_uint_acc (d : Decimal.uint) (acc : positive) :
  strconv.digits (Z.pos acc) (NilEmpty.string_of_uint d) = Some (Z.pos (Pos.of_uint_acc d acc)).
Proof.
  revert acc. induction d; intros acc; simpl; [reflexivity|..];
    (etransitivity; [|apply IHd]); f_equal; lia.
Qed.

Lemma digits_of_uint (d : Decimal.uint) :
  strconv.digits 0 (NilEmpty.string_of_uint d) = Some (Z.of_N (Pos.of_uint d)).
Proof.
  induction d; simpl; [reflexivity | exact IHd |..]; apply (digits_of_uint_acc d).
Qed.

Lemma uint_text_pos (p : positive) :
  exists c r, NilEmpty.string_of_uint (Pos.to_uint p) = String c r
              /\ Ascii.eqb c "-" = false /\ Ascii.eqb c "+" = false.
Proof.
  pose proof (Unsigned.to_uint_nonnil p) as Hnil.
  destruct (Pos.to_uint p); [contradiction|..]; simpl; eauto.
Qed.

Lemma parse_decimal_Itoa (n : Z) : strconv.parse_decimal (strconv.Itoa n) = Some n.
Proof.
  unfold strconv.Itoa, NilZero.string_of_int, NilZero.string_of_uint.
  pose proof (of_to n) as Hback. unfold Z.of_int, Z.of_uint in Hback.
  destruct n as [|p|p]; simpl Z.to_int in *.
  - reflexivity.
  - pose proof (Unsigned.to_uint_nonnil p) as Hnil.
    destruct (uint_text_pos p) as (c & r & Htext & Hminus & Hplus).
    assert (Hsame : match Pos.to_uint p with
                    | Decimal.Nil => "0"
                    | _ => NilEmpty.string_of_uint (Pos.to_uint p)
                    end = NilEmpty.string_of_uint (Pos.to_uint p))
      by (destruct (Pos.to_uint p); [contradiction|reflexivity..]).
    rewrite Hsame. unfold strconv.parse_decimal. rewrite Htext, Hminus, Hplus, <- Htext.
    now rewrite digits_of_uint, Hback.
  - pose proof (Unsigned.to_uint_nonnil p) as Hnil.
    destruct (uint_text_pos p) as (c & r & Htext & _ & _).
    assert (Hsame : match Pos.to_uint p with
                    | Decimal.Nil => "0"
                    | _ => NilEmpty.string_of_uint (Pos.to_uint p)
                    end = NilEmpty.string_of_uint (Pos.to_uint p))
      by (destruct (Pos.to_uint p); [contradiction|reflexivity..]).
    rewrite Hsame. unfold strconv.parse_decimal. cbn [Ascii.eqb]. simpl.
    rewrite Htext, <- Htext, digits_of_uint. simpl. f_equal. lia.
Qed.

Lemma Atoi_Itoa (n : Z) :
  strconv.minInt <= n <= strconv.maxInt -> strconv.Atoi (strconv.Itoa n) = (n, true).
Proof.
  intros [Hmin Hmax]. unfold strconv.Atoi. rewrite parse_decimal_Itoa.
  destruct (Z.ltb_spec n strconv.minInt); [lia|].
  destruct (Z.ltb_spec strconv.maxInt n); [lia|]. reflexivity.
Qed.

(** ** Further properties of the patcher *)

(** Property X2.  [replaceCallExpr] on a call that starts on one line and
    ends on a later one puts the new code between what stands before the
    call on its first line and what stands after it on its last line: the
    lines of the call become that one line, and the lines before and after
    are kept. *)
Theorem multi_line_call_is_replaced (ls : list string) (i j : nat) (a first last b new : string)
  (fn : Expr) (args : list Expr) :
  Forall (absent "010") ls ->
  (i < j)%nat ->
  ls !! i = Some (a +:+ first) ->
  ls !! j = Some (last +:+ b) ->
  transformer.replaceCallExpr
    (CallExpr {| Line := Z.of_nat i + 1; Column := strings.len a + 1 |}
       {| Line := Z.of_nat j + 1; Column := strings.len last + 1 |} fn args)
    new (strings.Join ls nl)
  = Some (strings.Join (take i ls ++ (a +:+ new +:+ b) :: drop (S j) ls) nl).
Proof.
  intros Hls Hij Hi Hj. unfold transformer.replaceCallExpr. cbn [callPos callEnd Line Column].
  rewrite Split_Join_lines; [|intros ->; discriminate|assumption].
  pose proof (lookup_lt_Some _ _ _ Hi) as Hilen. pose proof (lookup_lt_Some _ _ _ Hj) as Hjlen.
  destruct (Z.ltb_spec (Z.of_nat (List.length ls)) (Z.of_nat i + 1)); [lia|].
  destruct (Z.ltb_spec (Z.of_nat (List.length ls)) (Z.of_nat j + 1)); [lia|]. cbn [orb].
  destruct (Z.eqb_spec (Z.of_nat i + 1) (Z.of_nat j + 1)); [lia|].
  unfold transformer.index.
  replace (Z.of_nat i + 1 - 1) with (Z.of_nat i) by lia.
  replace (Z.of_nat j + 1 - 1) with (Z.of_nat j) by lia.
  destruct (Z.ltb_spec (Z.of_nat i) 0); [lia|]. destruct (Z.ltb_spec (Z.of_nat j) 0); [lia|].
  rewrite !Nat2Z.id, Hi, Hj. cbn [mbind option_bind].
  unfold strings.slice_to, strings.slice_from. rewrite !len_append.
  pose proof (len_nonneg a). pose proof (len_nonneg first).
  pose proof (len_nonneg last). pose proof (len_nonneg b).
  replace (strings.len a + 1 - 1) with (strings.len a) by lia.
  replace (strings.len last + 1 - 1) with (strings.len last) by lia.
  destruct (Z.leb_spec 0 (strings.len a)); [|lia].
  destruct (Z.leb_spec (strings.len a) (strings.len a + strings.len first)); [|lia].
  destruct (Z.leb_spec 0 (strings.len last)); [|lia].
  destruct (Z.leb_spec (strings.len last) (strings.len last + strings.len b)); [|lia].
  cbn [andb mbind option_bind].
  rewrite !len_nat, take_append, drop_append.
  replace (Z.to_nat (Z.of_nat j + 1)) with (S j) by lia. reflexivity.
Qed.

(** ** The maps of the transformer *)

Lemma buildUpdateMap_lookup_last (updates : list transformer.LogUpdate)
  (m : gmap string transformer.LogUpdate) (l c : Z) :
  transformer.buildUpdateMap updates m !! transformer.posKey l c
  = match last (filter (fun u => transformer.Line u = l /\ transformer.Column u = c) updates) with
    | Some u => Some u
    | None => m !! transformer.posKey l c
    end.
Proof.
  revert m. induction updates as [|u rest IH]; intros m; simpl; [reflexivity|].
  rewrite IH, filter_cons.
  destruct (decide (transformer.Line u = l /\ transformer.Column u = c)) as [[<- <-]|Hne].
  - rewrite last_cons, lookup_insert_eq. now destruct (last _).
  - rewrite lookup_insert_ne; [reflexivity|].
    intros Heq. apply posKey_inj in Heq. tauto.
Qed.

Lemma groupUpdates_lookup (updates : list transformer.LogUpdate)
  (m : gmap string (list transformer.LogUpdate)) (path : string) :
  transformer.groupUpdates updates m !! path
  = match m !! path,
          filter (fun u => transformer.skipped u = false /\ transformer.FilePath u = path) updates
    with
    | None, [] => None
    | group, rows => Some (default [] group ++ rows)
    end.
Proof.
  revert m. induction updates as [|u rest IH]; intros m; simpl.
  - rewrite filter_nil. destruct (m !! path); simpl; [now rewrite app_nil_r | reflexivity].
  - rewrite filter_cons. destruct (transformer.skipped u) eqn:Hskip.
    + rewrite decide_False by (intros [? _]; discriminate). apply IH.
    + rewrite IH. destruct (decide (transformer.FilePath u = path)) as [Hp|Hp].
      * rewrite decide_True by auto. rewrite Hp, lookup_insert_eq. simpl.
        destruct (filter _ rest); simpl; rewrite <- ?app_assoc; simpl;
          destruct (m !! path); reflexivity.
      * rewrite decide_False by tauto. rewrite lookup_insert_ne by assumption. reflexivity.
Qed.

(** ** The catalog from the collector to the transformer *)

Lemma loadRow_exportRow (entry : collector.LogEntry) (i : Z)
  (acc : list transformer.LogUpdate * list string) :
  positioned entry ->
  transformer.loadRow i (collector.exportRow entry) acc = (fst acc ++ [toUpdate entry], snd acc).
Proof.
  intros [Hline Hcolumn]. destruct acc as [updates warnings].
  unfold transformer.loadRow, collector.exportRow, transformer.cell, toUpdate. simpl.
  now rewrite (Atoi_Itoa _ Hline), (Atoi_Itoa _ Hcolumn).
Qed.

Lemma loadRows_exportRows (entries : list collector.LogEntry) :
  Forall positioned entries ->
  forall i acc,
    transformer.loadRows i (map collector.exportRow entries) acc
    = (fst acc ++ map toUpdate entries, snd acc).
Proof.
  induction 1 as [|entry rest Hentry _ IH]; intros i acc; simpl.
  - now rewrite app_nil_r; destruct acc.
  - rewrite (loadRow_exportRow entry i acc Hentry), IH. simpl. now rewrite <- app_assoc.
Qed.

(** The loop of [loadUpdates] turns every row into an update or into a
    warning, whichever its length says. *)
Lemma loadRows_counts (rows : list (list string)) :
  forall i acc,
    let r := transformer.loadRows i rows acc in
    List.length (fst r)
    = (List.length (fst acc)
       + List.length (List.filter (fun row => negb (List.length row <? 13)%nat) rows))%nat
    /\ List.length (snd r)
       = (List.length (snd acc)
          + List.length (List.filter (fun row => (List.length row <? 13)%nat) rows))%nat.
Proof.
  induction rows as [|row rest IH]; intros i acc; simpl; [lia|].
  specialize (IH (i + 1) (transformer.loadRow i row acc)). cbv zeta in IH.
  destruct IH as [IHu IHw]. rewrite IHu, IHw.
  unfold transformer.loadRow. destruct acc as [updates warnings].
  destruct (List.length row <? 13)%nat; simpl; rewrite ?length_app; simpl; lia.
Qed.

(** The visitor of [parseFile] numbers the calls that it keeps. *)
Lemma scanCalls_numbering (logPattern : string -> bool) (filePath packageName : string)
  (calls : list Expr) :
  forall entryID,
    collector.scanCalls logPattern filePath packageName entryID calls
    = (imap (fun k call => collector.makeEntry filePath packageName (entryID + Z.of_nat k) call)
         (List.filter (isLogCall logPattern) calls),
       entryID + Z.of_nat (List.length (List.filter (isLogCall logPattern) calls))).
Proof.
  induction calls as [|call rest IH]; intros entryID; simpl.
  - f_equal. lia.
  - destruct (isLogCall logPattern call) eqn:Hcall; unfold isLogCall in Hcall.
    + apply negb_true_iff in Hcall. rewrite Hcall, IH. simpl. f_equal.
      * f_equal; [f_equal; lia|]. apply imap_ext. intros k c _. simpl. f_equal. lia.
      * lia.
    + apply negb_false_iff in Hcall. rewrite Hcall. apply IH.
Qed.

(** ** Levels *)

Lemma prefix_append_weaken (p q s : string) :
  String.prefix (p +:+ q) s = true -> String.prefix p s = true.
Proof.
  revert s. induction p as [|c p IH]; intros s; [now destruct s|].
  destruct s as [|d s]; simpl; [discriminate|].
  destruct (ascii_dec c d); [apply IH | discriminate].
Qed.

Lemma Contains_append_weaken (s p q : string) :
  strings.Contains s (p +:+ q) = true -> strings.Contains s p = true.
Proof.
  unfold strings.Contains. induction s as [|c s IH].
  - cbn [strings.Index]. destruct (String.prefix (p +:+ q) "") eqn:Hpq.
    + now rewrite (prefix_append_weaken _ _ _ Hpq).
    + discriminate.
  - cbn [strings.Index].
    destruct (String.prefix (p +:+ q) (String c s)) eqn:Hpq.
    + now rewrite (prefix_append_weaken _ _ _ Hpq).
    + destruct (String.prefix p (String c s)); [reflexivity|].
      destruct (strings.Index s (p +:+ q) <? 0) eqn:Hneg; [discriminate|].
      intros _. apply Z.ltb_ge in Hneg.
      assert (Hs : 0 <= strings.Index s p) by (apply Z.leb_le, IH, Z.leb_le, Hneg).
      destruct (strings.Index s p <? 0) eqn:Hneg'; [apply Z.ltb_lt in Hneg'; lia|].
      apply Z.leb_le. lia.
Qed.

Lemma extractLogLevel_range (funcName : string) :
  collector.extractLogLevel funcName ∈ scannedLevels.
Proof.
  unfold collector.extractLogLevel, collector.levels, scannedLevels.
  cbn [List.find].
  set (lowered := strings.ToLower funcName).
  destruct (strings.Contains lowered "trace"); [set_solver|].
  destruct (strings.Contains lowered "debug"); [set_solver|].
  destruct (strings.Contains lowered "info"); [set_solver|].
  destruct (strings.Contains lowered "warn") eqn:Hwarn; [set_solver|].
  destruct (strings.Contains lowered "warning") eqn:Hwarning.
  { apply (Contains_append_weaken lowered "warn" "ing") in Hwarning. congruence. }
  destruct (strings.Contains lowered "error"); [set_solver|].
  destruct (strings.Contains lowered "fatal"); [set_solver|].
  destruct (strings.Contains lowered "panic"); [set_solver|].
  destruct (strings.Contains lowered "print"); set_solver.
Qed.

(** ** Keys *)

Lemma lower_idem (c : ascii) : strings.lower (strings.lower c) = strings.lower c.
Proof. destruct c as [[] [] [] [] [] [] [] []]; reflexivity. Qed.

Lemma ToLower_idem (s : string) : strings.ToLower (strings.ToLower s) = strings.ToLower s.
Proof. induction s as [|c s IH]; simpl; [reflexivity|]. now rewrite lower_idem, IH. Qed.

Lemma ToLower_drop (n : nat) (s : string) :
  strings.ToLower (strings.drop n s) = strings.drop n (strings.ToLower s).
Proof. revert s. induction n as [|n IH]; intros [|c s]; simpl; auto. Qed.

Lemma TrimPrefix_lower (s p : string) :
  strings.ToLower s = s -> strings.ToLower (strings.TrimPrefix s p) = strings.TrimPrefix s p.
Proof.
  intros Hs. unfold strings.TrimPrefix. destruct (strings.HasPrefix s p); [|exact Hs].
  now rewrite ToLower_drop, Hs.
Qed.

Lemma generateFieldKey_lower (varName formatVerb inferredType : string) :
  strings.ToLower (collector.generateFieldKey varName formatVerb inferredType)
  = collector.generateFieldKey varName formatVerb inferredType.
Proof.
  unfold collector.generateFieldKey, collector.toSnakeCase.
  set (key := strings.TrimPrefix (strings.TrimPrefix _ "p_") "m_").
  assert (Hkey : strings.ToLower key = key)
    by (subst key; apply TrimPrefix_lower, TrimPrefix_lower, ToLower_idem).
  repeat match goal with |- context [if ?b then _ else _] => destruct b end;
    solve [reflexivity | exact Hkey].
Qed.

(** ** Format verbs *)

Lemma take_plus (a b : nat) (s : string) :
  strings.take (a + b) s = strings.take a s +:+ strings.take b (strings.drop a s).
Proof.
  revert s. induction a as [|a IH]; intros s; [reflexivity|].
  destruct s as [|c s]; simpl; [now destruct b|]. now rewrite IH.
Qed.

Lemma drop_plus (a b : nat) (s : string) :
  strings.drop (a + b) s = strings.drop b (strings.drop a s).
Proof.
  revert s. induction a as [|a IH]; intros s; [reflexivity|].
  destruct s as [|c s]; simpl; [now destruct b|]. apply IH.
Qed.

Lemma allBytes_append (f : ascii -> bool) (a b : string) :
  allBytes f (a +:+ b) = allBytes f a && allBytes f b.
Proof. induction a as [|c a IH]; simpl; [reflexivity|]. now rewrite IH, andb_assoc. Qed.

Lemma allBytes_span (f : ascii -> bool) (s : string) :
  allBytes f (strings.take (collector.span f s) s) = true.
Proof.
  induction s as [|c s IH]; simpl; [reflexivity|].
  destruct (f c) eqn:Hc; simpl; [now rewrite Hc|reflexivity].
Qed.

Lemma allBytes_weaken (f g : ascii -> bool) (s : string) :
  (forall c, f c = true -> g c = true) -> allBytes f s = true -> allBytes g s = true.
Proof.
  intros Hfg. induction s as [|c s IH]; simpl; [reflexivity|].
  intros [Hc Hs]%andb_true_iff. now rewrite (Hfg c Hc), IH.
Qed.

Lemma allBytes_absent (f : ascii -> bool) (c : ascii) (s : string) :
  f c = false -> allBytes f s = true -> absent c s.
Proof.
  intros Hc. induction s as [|d s IH]; simpl; [intros _; apply absent_nil|].
  intros [Hd Hs]%andb_true_iff. apply absent_cons. split; [congruence|auto].
Qed.

Lemma matchVerb_shape (s : string) (n : nat) :
  collector.matchVerb s = Some n ->
  exists body c, strings.take n s = "%" +:+ body +:+ String c ""
                 /\ allBytes isVerbBody body = true
                 /\ collector.isVerbLetter c = true.
Proof.
  unfold collector.matchVerb.
  destruct s as [|p r0]; [discriminate|].
  destruct (Ascii.eqb_spec p "%") as [->|Hp].
  2:{ destruct p as [[] [] [] [] [] [] [] []]; try discriminate. now contradiction Hp. }
  cbv zeta.
  set (n1 := collector.span collector.isFlag r0).
  set (r1 := strings.drop n1 r0).
  set (n2 := collector.span collector.isDigit r1).
  set (r2 := strings.drop n2 r1).
  set (n3 := match r2 with String "." _ => 1%nat | _ => 0%nat end).
  set (r3 := strings.drop n3 r2).
  set (n4 := collector.span collector.isDigit r3).
  destruct (strings.drop n4 r3) as [|c rest] eqn:Hrest; [discriminate|].
  destruct (collector.isVerbLetter c) eqn:Hc; [|discriminate].
  intros [= <-].
  exists (strings.take n1 r0 +:+ strings.take n2 r1 +:+ strings.take n3 r2
          +:+ strings.take n4 r3), c.
  split; [|split; [|exact Hc]].
  - cbn [strings.take]. rewrite !take_plus, !drop_plus. fold r1. fold n2 r2. fold n3 r3.
    fold n4. rewrite Hrest.
    cbn [strings.take]. simpl. now rewrite !append_assoc.
  - rewrite !allBytes_append.
    assert (H1 : allBytes isVerbBody (strings.take n1 r0) = true).
    { apply (allBytes_weaken collector.isFlag); [|apply allBytes_span].
      intros b Hb. unfold isVerbBody. now rewrite Hb. }
    assert (H2 : allBytes isVerbBody (strings.take n2 r1) = true).
    { apply (allBytes_weaken collector.isDigit); [|apply allBytes_span].
      intros b Hb. unfold isVerbBody. rewrite Hb. now rewrite orb_true_r. }
    assert (H4 : allBytes isVerbBody (strings.take n4 r3) = true).
    { apply (allBytes_weaken collector.isDigit); [|apply allBytes_span].
      intros b Hb. unfold isVerbBody. rewrite Hb. now rewrite orb_true_r. }
    assert (H3 : allBytes isVerbBody (strings.take n3 r2) = true).
    { subst n3. destruct r2 as [|d r2']; [reflexivity|].
      destruct d as [[] [] [] [] [] [] [] []]; reflexivity. }
    now rewrite H1, H2, H3, H4.
Qed.

Lemma findAll_shape (P : string -> Prop) :
  (forall s n, collector.matchVerb s = Some n -> P (strings.take n s)) ->
  forall s skip, Forall P (collector.findAll skip s).
Proof.
  intros HP. induction s as [|c s IH]; intros skip; [constructor|].
  destruct skip as [|k]; [|apply IH].
  cbn [collector.findAll].
  destruct (collector.matchVerb (String c s)) as [n|] eqn:Hn; [|apply IH].
  constructor; [now apply HP|apply IH].
Qed.

(** ** Variable names *)

Lemma Join_Split (c : ascii) (s : string) :
  strings.Join (strings.Split s c) (String c "") = s.
Proof.
  induction s as [|d s IH]; [reflexivity|].
  cbn [strings.Split].
  destruct (strings.Split s c) as [|h t] eqn:Hsplit; [now destruct (Split_nonempty c s)|].
  destruct (Ascii.eqb_spec d c) as [->|Hd].
  - change (strings.Join ("" :: h :: t) (String c ""))
      with ("" +:+ String c "" +:+ strings.Join (h :: t) (String c "")).
    now rewrite IH.
  - destruct t as [|h' t]; simpl in *; now rewrite <- IH.
Qed.

Lemma Split_parts_absent (c : ascii) (s : string) : Forall (absent c) (strings.Split s c).
Proof.
  induction s as [|d s IH]; [repeat constructor|].
  cbn [strings.Split].
  destruct (strings.Split s c) as [|h t]; [constructor|].
  destruct (Ascii.eqb_spec d c) as [->|Hd].
  - constructor; [apply absent_nil|exact IH].
  - inversion IH as [|? ? Hh Ht]; subst. constructor; [|exact Ht].
    apply absent_cons. split; [congruence|exact Hh].
Qed.

Lemma last_in {A} (l : list A) (d : A) : l <> [] -> List.last l d ∈ l.
Proof.
  induction l as [|x l IH]; [congruence|]. intros _.
  destruct l as [|y l]; [set_solver|].
  change (List.last (x :: y :: l) d) with (List.last (y :: l) d). right. apply IH. congruence.
Qed.

Lemma last_Split_segment (c : ascii) (s d : string) :
  s = List.last (strings.Split s c) d
  \/ exists front, s = front +:+ String c (List.last (strings.Split s c) d).
Proof.
  induction s as [|a s IH]; [now left|].
  cbn [strings.Split].
  destruct (strings.Split s c) as [|h t] eqn:Hsplit; [now destruct (Split_nonempty c s)|].
  destruct (Ascii.eqb_spec a c) as [->|Ha].
  - right. change (List.last ("" :: h :: t) d) with (List.last (h :: t) d).
    destruct IH as [Hs|[front Hs]].
    + exists "". now rewrite <- Hs.
    + exists (String c front). now rewrite append_cons, <- Hs.
  - destruct t as [|h' t].
    + left. simpl. f_equal.
      pose proof (Join_Split c s) as Hjoin. rewrite Hsplit in Hjoin. now simpl in Hjoin.
    + right. change (List.last (String a h :: h' :: t) d) with (List.last (h' :: t) d).
      change (List.last (h :: h' :: t) d) with (List.last (h' :: t) d) in IH.
      destruct IH as [Hs|[front Hs]].
      * exfalso.
        pose proof (Split_parts_absent c s) as Hparts. rewrite Hsplit in Hparts.
        assert (Hlast : List.last (h' :: t) d ∈ h :: h' :: t)
          by (right; apply last_in; discriminate).
        eapply Forall_forall in Hparts; [|exact Hlast]. rewrite <- Hs in Hparts.
        pose proof (Split_absent c s Hparts) as Hone. rewrite Hsplit in Hone.
        discriminate.
      * exists (String a front). now rewrite append_cons, <- Hs.
Qed.

(** ** The preview of a call *)

Lemma length_take_string (n : nat) (s : string) :
  String.length (strings.take n s) = Nat.min n (String.length s).
Proof. revert s. induction n as [|n IH]; intros [|c s]; simpl; auto. Qed.

(** Property X13.  What [truncateCode] returns for a width of at least 3
    is at most that many bytes long. *)
Theorem preview_fits_its_width (code : string) (maxLen : Z) :
  3 <= maxLen -> strings.len (transformer.truncateCode code maxLen) <= maxLen.
Proof.
  intros Hmax. unfold transformer.truncateCode.
  set (flat := strings.Join (strings.Fields code) " ").
  destruct (strings.len flat <=? maxLen) eqn:Hlen; [now apply Z.leb_le|].
  apply Z.leb_gt in Hlen. unfold strings.len in *.
  rewrite length_append, length_take_string. simpl. lia.
Qed.

(** ** The message of a row *)

Lemma TrimRightFunc_drop_last (f : ascii -> bool) (a : string) (c : ascii) :
  f c = true -> strings.TrimRightFunc f (a +:+ String c "") = strings.TrimRightFunc f a.
Proof.
  intros Hc. induction a as [|d a IH]; simpl; [now rewrite Hc|]. now rewrite IH.
Qed.

Lemma Trim_fixed_left (s cutset : string) :
  strings.Trim s cutset = s -> strings.TrimLeftFunc (fun c => strings.mem c cutset) s = s.
Proof.
  unfold strings.Trim. set (f := fun c => strings.mem c cutset). intros Heq.
  pose proof (TrimRightFunc_length f (strings.TrimLeftFunc f s)) as Hr.
  rewrite Heq in Hr.
  apply TrimLeftFunc_fixed. destruct s as [|c r]; [exact I|]. simpl in *.
  destruct (f c); [|reflexivity].
  pose proof (TrimLeftFunc_length f r). lia.
Qed.

Lemma Trim_quoted (t : string) :
  unquoted t -> strings.Trim (dq +:+ t +:+ dq) quoteCutset = t.
Proof.
  intros Ht. pose proof (Trim_fixed_left _ _ Ht) as Hleft.
  unfold unquoted, strings.Trim in *. rewrite Hleft in Ht.
  set (f := fun c => strings.mem c quoteCutset) in *.
  change (dq +:+ t +:+ dq) with (String "034" (t +:+ dq)).
  rewrite TrimLeftFunc_skip by reflexivity.
  destruct t as [|c r]; [reflexivity|].
  apply TrimLeftFunc_fixed in Hleft.
  replace (strings.TrimLeftFunc f (String c r +:+ dq)) with (String c r +:+ dq)
    by (symmetry; now apply TrimLeftFunc_fixed).
  unfold dq. now rewrite TrimRightFunc_drop_last.
Qed.

(** Property X10.  The message that [generateStructuredLogCall] puts in
    the call is NewMessage, or MessageTemplate when NewMessage is empty,
    without the quotes around it: for a text without a quote byte at
    either end, NewMessage may be given quoted or not, and an empty
    NewMessage keeps the text of the literal of the source. *)
Theorem message_quotes_are_stripped (update : transformer.LogUpdate) (t : string) :
  unquoted t ->
  transformer.NewMessage update = dq +:+ t +:+ dq
  \/ (transformer.NewMessage update = t /\ t <> "")
  \/ (transformer.NewMessage update = "" /\ transformer.MessageTemplate update = dq +:+ t +:+ dq) ->
  transformer.resolveMessage update = t.
Proof.
  intros Ht Hcases. unfold transformer.resolveMessage.
  destruct Hcases as [Hnew|[[Hnew Hne]|[Hnew Hold]]]; rewrite Hnew.
  - change (String.eqb (dq +:+ t +:+ dq) "") with false. cbv iota. now apply Trim_quoted.
  - destruct (String.eqb_spec t ""); [contradiction|exact Ht].
  - rewrite Hold. simpl. now apply Trim_quoted.
Qed.

(** ** Calls without a literal message *)

Lemma analyseArguments_no_verbs (args : list Expr) :
  forall idx, Forall (fun a => collector.FormatVerb a = "")
                (collector.analyseArguments [] idx args).
Proof.
  induction args as [|arg rest IH]; intros idx; simpl; constructor; [|apply IH].
  simpl. now destruct idx.
Qed.

(** ** The identifiers of the entries *)

Lemma digits_zeros (zeros d : string) :
  allBytes (fun c => Ascii.eqb c "0") zeros = true ->
  strconv.digits 0 (zeros +:+ d) = strconv.digits 0 d.
Proof.
  induction zeros as [|c zeros IH]; [reflexivity|]. simpl.
  intros [Hc Hz]%andb_true_iff. apply Ascii.eqb_eq in Hc. subst c. simpl. now apply IH.
Qed.

Lemma allBytes_drop (f : ascii -> bool) (n : nat) (s : string) :
  allBytes f s = true -> allBytes f (strings.drop n s) = true.
Proof.
  revert s. induction n as [|n IH]; intros [|c s]; simpl; auto.
  intros [_ Hs]%andb_true_iff. now apply IH.
Qed.

Lemma Itoa_pos (p : positive) :
  strconv.Itoa (Z.pos p) = NilEmpty.string_of_uint (Pos.to_uint p).
Proof.
  unfold strconv.Itoa, NilZero.string_of_int, NilZero.string_of_uint. simpl Z.to_int.
  pose proof (Unsigned.to_uint_nonnil p) as Hnil.
  destruct (Pos.to_uint p); [contradiction|reflexivity..].
Qed.

Lemma digits_Itoa (n : Z) : 0 <= n -> strconv.digits 0 (strconv.Itoa n) = Some n.
Proof.
  intros Hn. destruct n as [|p|p]; [reflexivity| |lia].
  rewrite Itoa_pos, digits_of_uint.
  pose proof (of_to (Z.pos p)) as Hback. unfold Z.of_int, Z.of_uint in Hback.
  simpl Z.to_int in Hback. now rewrite Hback.
Qed.

Lemma digits_pad4 (n : Z) : 0 <= n -> strconv.digits 0 (pad4 n) = Some n.
Proof.
  intros Hn. unfold pad4. destruct (n <? 0) eqn:Hneg; [apply Z.ltb_lt in Hneg; lia|].
  rewrite digits_zeros; [now apply digits_Itoa|]. now apply allBytes_drop.
Qed.

Lemma entryName_inj (n m : Z) : 0 <= n -> 0 <= m -> entryName n = entryName m -> n = m.
Proof.
  intros Hn Hm Heq. unfold entryName in Heq. simpl in Heq. injection Heq as Heq.
  pose proof (digits_pad4 n Hn) as Hdn. pose proof (digits_pad4 m Hm) as Hdm.
  rewrite Heq in Hdn. congruence.
Qed.

(** ** The walk of [transformFile] in closed form *)

Section Report.
Context `{transformer.Env}.
Variables (filePath : string) (updateMap : gmap string transformer.LogUpdate)
  (config : transformer.TemplateConfig) (autoMap : bool).

Lemma visit_report (dryRun : bool) (call : Expr) (st st' : transformer.Patch) :
  transformer.visit filePath updateMap config dryRun autoMap call st = Some st' ->
  transformer.modifications st'
  = transformer.modifications st
    ++ option_list (plannedModification filePath updateMap config autoMap call)
  /\ transformer.warnings st'
     = transformer.warnings st ++ option_list (plannedWarning updateMap config autoMap call).
Proof.
  unfold transformer.visit, plannedModification, plannedWarning, plannedCode, updateAt.
  destruct (updateMap !! _) as [update|]; simpl.
  2:{ intros [= <-]. now rewrite !app_nil_r. }
  destruct (transformer.generateStructuredLogCall update config autoMap) as [newCode|err]; simpl.
  - destruct dryRun.
    + intros [= <-]. simpl. now rewrite app_nil_r.
    + destruct (transformer.replaceCallExpr call newCode (transformer.content st));
        [|discriminate].
      intros [= <-]. simpl. now rewrite app_nil_r.
  - intros [= <-]. simpl. now rewrite app_nil_r.
Qed.

Lemma inspect_report (dryRun : bool) (calls : list Expr) :
  forall st st',
    transformer.inspect filePath updateMap config dryRun autoMap calls st = (st', false) ->
    transformer.modifications st'
    = transformer.modifications st
      ++ omap (plannedModification filePath updateMap config autoMap) calls
    /\ transformer.warnings st'
       = transformer.warnings st ++ omap (plannedWarning updateMap config autoMap) calls.
Proof.
  induction calls as [|call rest IH]; intros st st'; simpl.
  - intros [= <-]. now rewrite !app_nil_r.
  - destruct (transformer.visit _ _ _ _ _ call st) as [st1|] eqn:Hvisit; [|discriminate].
    intros Hrest. destruct (visit_report _ _ _ _ Hvisit) as [Hm Hw].
    destruct (IH _ _ Hrest) as [Hm' Hw']. rewrite Hm', Hw', Hm, Hw, <- !app_assoc.
    split; f_equal.
    + now destruct (plannedModification filePath updateMap config autoMap call).
    + now destruct (plannedWarning updateMap config autoMap call).
Qed.

(** A walk over calls none of which is at the position of a row changes
    nothing. *)
Lemma inspect_unmatched (dryRun : bool) (calls : list Expr) (st : transformer.Patch) :
  Forall (fun call => updateAt updateMap call = None) calls ->
  transformer.inspect filePath updateMap config dryRun autoMap calls st = (st, false).
Proof.
  induction 1 as [|call rest Hcall _ IH]; simpl; [reflexivity|].
  unfold transformer.visit. unfold updateAt in Hcall. now rewrite Hcall.
Qed.

End Report.

(** ** Replacements on separate lines *)

Lemma take_drop_string (n : nat) (s : string) : strings.take n s +:+ strings.drop n s = s.
Proof. revert s. induction n as [|n IH]; intros [|c s]; simpl; auto. now rewrite IH. Qed.

Lemma absent_take (c : ascii) (n : nat) (s : string) : absent c s -> absent c (strings.take n s).
Proof. intros Hs. rewrite <- (take_drop_string n s) in Hs. now apply absent_append in Hs as [? _]. Qed.

Lemma absent_drop (c : ascii) (n : nat) (s : string) : absent c s -> absent c (strings.drop n s).
Proof. intros Hs. rewrite <- (take_drop_string n s) in Hs. now apply absent_append in Hs as [_ ?]. Qed.

Lemma absent_splice (c : ascii) (call : Expr) (newCode line : string) :
  absent c newCode -> absent c line -> absent c (splice call newCode line).
Proof.
  intros Hnew Hline. unfold splice. rewrite !absent_append.
  auto using absent_take, absent_drop.
Qed.

(** A call within one line is replaced within that line. *)
Lemma replaceCallExpr_in_line (ls : list string) (call : Expr) (newCode line : string) :
  Forall (absent "010") ls ->
  inLine ls call ->
  ls !! lineIndex call = Some line ->
  transformer.replaceCallExpr call newCode (strings.Join ls nl)
  = Some (strings.Join (<[lineIndex call := splice call newCode line]> ls) nl).
Proof.
  intros Hls (Hsame & Hfirst & line' & Hline' & Hstart & Hend) Hline.
  rewrite Hline in Hline'. injection Hline' as <-.
  unfold transformer.replaceCallExpr, splice, lineIndex in *.
  rewrite Split_Join_lines; [|intros ->; discriminate|assumption].
  pose proof (lookup_lt_Some _ _ _ Hline) as Hi.
  rewrite <- Hsame.
  destruct (Z.ltb_spec (Z.of_nat (List.length ls)) (Line (callPos call))); [lia|]. cbn [orb].
  rewrite Z.eqb_refl. unfold transformer.index.
  destruct (Z.ltb_spec (Line (callPos call) - 1) 0); [lia|]. rewrite Hline.
  cbn [mbind option_bind].
  unfold strings.slice_to, strings.slice_from.
  destruct (Z.leb_spec 0 (Column (callPos call) - 1)); [|lia].
  destruct (Z.leb_spec (Column (callPos call) - 1) (strings.len line)); [|lia].
  destruct (Z.leb_spec 0 (Column (callEnd call) - 1)); [|lia].
  destruct (Z.leb_spec (Column (callEnd call) - 1) (strings.len line)); [|lia].
  reflexivity.
Qed.

Section Exact.
Context `{transformer.Env}.
Variables (filePath : string) (updateMap : gmap string transformer.LogUpdate)
  (config : transformer.TemplateConfig) (autoMap : bool).

Lemma visit_planned (call : Expr) (st : transformer.Patch) (newCode : string) :
  plannedCode updateMap config autoMap call = Some newCode ->
  transformer.visit filePath updateMap config false autoMap call st
  = content' ← transformer.replaceCallExpr call newCode (transformer.content st);
    Some {| transformer.content := content';
            transformer.modifications :=
              transformer.modifications st
              ++ [transformer.modificationText filePath call newCode];
            transformer.modified := true;
            transformer.warnings := transformer.warnings st |}.
Proof.
  unfold plannedCode, updateAt, transformer.visit.
  destruct (updateMap !! _) as [update|]; [|discriminate].
  destruct (transformer.generateStructuredLogCall update config autoMap); [|discriminate].
  now intros [= ->].
Qed.

Lemma visit_unplanned (dryRun : bool) (call : Expr) (st : transformer.Patch) :
  plannedCode updateMap config autoMap call = None ->
  exists st', transformer.visit filePath updateMap config dryRun autoMap call st = Some st'
              /\ transformer.content st' = transformer.content st
              /\ transformer.modified st' = transformer.modified st.
Proof.
  unfold plannedCode, updateAt, transformer.visit.
  destruct (updateMap !! _) as [update|]; [|now exists st].
  destruct (transformer.generateStructuredLogCall update config autoMap); [discriminate|].
  intros _. eexists. split; [reflexivity|]. split; reflexivity.
Qed.

Lemma editedLines_cons (call : Expr) (rest : list Expr) :
  editedLines updateMap config autoMap (call :: rest)
  = match plannedCode updateMap config autoMap call with
    | Some _ => lineIndex call :: editedLines updateMap config autoMap rest
    | None => editedLines updateMap config autoMap rest
    end.
Proof.
  unfold editedLines. cbn [omap list_omap].
  now destruct (plannedCode updateMap config autoMap call).
Qed.

Lemma placed_insert (ls : list string) (calls : list Expr) (i : nat) (line : string) :
  i ∉ editedLines updateMap config autoMap calls ->
  placed updateMap config autoMap ls calls -> placed updateMap config autoMap (<[i := line]> ls) calls.
Proof.
  intros Hi Hplaced. induction Hplaced as [|call rest Hcall _ IH]; [constructor|].
  rewrite editedLines_cons in Hi.
  constructor.
  - intros newCode Hnew. rewrite Hnew in Hi. apply not_elem_of_cons in Hi as [Hne _].
    destruct (Hcall newCode Hnew) as [(Hsame & Hfirst & l & Hl & Hcols) Habsent].
    split; [|exact Habsent]. split; [exact Hsame|]. split; [exact Hfirst|].
    exists l. split; [|exact Hcols]. now rewrite list_lookup_insert_ne.
  - apply IH. destruct (plannedCode updateMap config autoMap call); [|exact Hi].
    now apply not_elem_of_cons in Hi as [_ ?].
Qed.

(** With at most one replaced call on a line, every replaced call is cut
    out of its line as the line was at the start and every other line is
    kept. *)
Lemma inspect_separate_lines (calls : list Expr) :
  forall (ls : list string) (st : transformer.Patch),
    Forall (absent "010") ls ->
    transformer.content st = strings.Join ls nl ->
    placed updateMap config autoMap ls calls ->
    NoDup (editedLines updateMap config autoMap calls) ->
    exists st' ls',
      transformer.inspect filePath updateMap config false autoMap calls st = (st', false)
      /\ transformer.content st' = strings.Join ls' nl
      /\ Forall (absent "010") ls'
      /\ transformer.modified st'
         = transformer.modified st
           || negb (bool_decide (editedLines updateMap config autoMap calls = []))
      /\ (forall call newCode,
            call ∈ calls -> plannedCode updateMap config autoMap call = Some newCode ->
            ls' !! lineIndex call = splice call newCode <$> ls !! lineIndex call)
      /\ (forall i, i ∉ editedLines updateMap config autoMap calls -> ls' !! i = ls !! i).
Proof.
  induction calls as [|call rest IH]; intros ls st Hls Hcontent Hplaced Hdup.
  - exists st, ls. simpl. rewrite orb_false_r. repeat split; try assumption.
    intros call newCode Hin. now apply elem_of_nil in Hin.
  - inversion Hplaced as [|? ? Hcall Hrest]; subst.
    rewrite editedLines_cons in Hdup. cbn [transformer.inspect].
    destruct (plannedCode updateMap config autoMap call) as [newCode|] eqn:Hplan.
    + destruct (Hcall newCode eq_refl) as [Hin Hnew].
      apply NoDup_cons in Hdup as [Hfresh Hdup].
      pose proof Hin as (_ & _ & line & Hline & _).
      rewrite (visit_planned call st newCode Hplan), Hcontent,
        (replaceCallExpr_in_line ls call newCode line Hls Hin Hline).
      cbn [mbind option_bind].
      set (ls1 := <[lineIndex call := splice call newCode line]> ls).
      destruct (IH ls1 {| transformer.content := strings.Join ls1 nl;
                          transformer.modifications :=
                            transformer.modifications st
                            ++ [transformer.modificationText filePath call newCode];
                          transformer.modified := true;
                          transformer.warnings := transformer.warnings st |})
        as (st' & ls' & Hwalk & Hcontent' & Hls' & Hflag & Hedited & Hkept).
      * apply Forall_insert; [exact Hls|]. apply absent_splice; [exact Hnew|].
        eapply Forall_lookup_1; eassumption.
      * reflexivity.
      * now apply placed_insert.
      * exact Hdup.
      * exists st', ls'. split; [exact Hwalk|]. split; [exact Hcontent'|].
        split; [exact Hls'|]. split; [|split].
        -- rewrite Hflag, editedLines_cons, Hplan. simpl. now rewrite orb_true_r.
        -- intros c code [->|Hc]%elem_of_cons Hcode.
           ++ assert (code = newCode) as -> by congruence.
              rewrite (Hkept _ Hfresh). subst ls1.
              rewrite list_lookup_insert_eq by (eapply lookup_lt_Some; eassumption).
              now rewrite Hline.
           ++ rewrite (Hedited c code Hc Hcode). subst ls1.
              rewrite list_lookup_insert_ne; [reflexivity|].
              intros Heq. apply Hfresh. rewrite Heq.
              unfold editedLines. apply list_elem_of_omap. exists c. now rewrite Hcode.
        -- intros i Hi. rewrite editedLines_cons, Hplan in Hi.
           apply not_elem_of_cons in Hi as [Hne Hi].
           rewrite (Hkept i Hi). subst ls1. now rewrite list_lookup_insert_ne.
    + destruct (visit_unplanned false call st Hplan) as (st1 & -> & Hc1 & Hm1).
      destruct (IH ls st1) as (st' & ls' & Hwalk & Hcontent' & Hls' & Hflag & Hedited & Hkept);
        [exact Hls|congruence|exact Hrest|exact Hdup|].
      exists st', ls'. split; [exact Hwalk|]. split; [exact Hcontent'|].
      split; [exact Hls'|]. split; [|split].
      * now rewrite Hflag, Hm1, editedLines_cons, Hplan.
      * intros c code [->|Hc]%elem_of_cons Hcode; [congruence|]. now apply Hedited.
      * intros i Hi. rewrite editedLines_cons, Hplan in Hi. now apply Hkept.
Qed.

End Exact.

(** ** One file *)

Lemma warnAll_nil (w : World) : transformer.warnAll [] w = w.
Proof. destruct w. unfold transformer.warnAll. simpl. now rewrite app_nil_r. Qed.

Lemma printModifications_nil (w : World) : transformer.printModifications [] w = w.
Proof. destruct w. unfold transformer.printModifications. simpl. now rewrite app_nil_r. Qed.

Lemma updateAt_no_row (updates : list transformer.LogUpdate) (call : Expr) :
  Forall (fun update => ~ (transformer.Line update = Line (callPos call)
                           /\ transformer.Column update = Column (callPos call))) updates ->
  updateAt (transformer.buildUpdateMap updates ∅) call = None.
Proof.
  intros Hrows. unfold updateAt. rewrite buildUpdateMap_lookup_last.
  replace (filter _ updates) with (@nil transformer.LogUpdate); [reflexivity|].
  symmetry. induction Hrows as [|update rest Hrow _ IH]; [reflexivity|].
  rewrite filter_cons. destruct (decide _) as [Hyes|_]; [now destruct Hrow|exact IH].
Qed.

Section OneFile.
Context `{GoParser} `{transformer.Env}.

(** Property X3.  When no call expression of a file starts at the line and
    column of any of the rows given for it, [transformFile] changes
    nothing at all, in a dry run or not: no file is written, nothing is
    printed, no warning is given, and the error is nil.  A catalog that
    no longer fits the source is passed over in silence. *)
Theorem rows_without_a_call_change_nothing (w : World) (filePath : string)
  (updates : list transformer.LogUpdate) (config : transformer.TemplateConfig)
  (dryRun autoMap : bool) (original : string) (node : File) :
  files w !! filePath = Some original ->
  ParseFile filePath original = Ok node ->
  (forall call update,
      call ∈ fileCalls node -> update ∈ updates ->
      ~ (transformer.Line update = Line (callPos call)
         /\ transformer.Column update = Column (callPos call))) ->
  transformer.transformFile w filePath updates config dryRun autoMap = (w, transformer.Done).
Proof.
  intros Hfile Hparse Hrows. unfold transformer.transformFile, readFile.
  rewrite Hfile, Hparse. cbv zeta. rewrite inspect_unmatched.
  - unfold transformer.finishFile. simpl. rewrite warnAll_nil, printModifications_nil.
    reflexivity.
  - apply Forall_forall. intros call Hcall. apply updateAt_no_row.
    apply Forall_forall. intros update Hupdate. now apply Hrows.
Qed.

(** Property X1.  When the calls that [transformFile] replaces in a file lie
    each within one line, no two of them on the same line, and the code
    generated for them holds no line feed, the run on a file that can be
    written ends without error and writes the file whose lines are those of
    the source with every such call cut out of its own line, from its
    start column to its end column, and the generated code put in its
    place; every other line is the line of the source. *)
Theorem edits_on_separate_lines_are_exact (w : World) (filePath : string)
  (updates : list transformer.LogUpdate) (config : transformer.TemplateConfig)
  (autoMap : bool) (ls : list string) (node : File) :
  Forall (absent "010") ls ->
  files w !! filePath = Some (strings.Join ls nl) ->
  ParseFile filePath (strings.Join ls nl) = Ok node ->
  filePath ∉ locked w ->
  placed (transformer.buildUpdateMap updates ∅) config autoMap ls (fileCalls node) ->
  NoDup (editedLines (transformer.buildUpdateMap updates ∅) config autoMap (fileCalls node)) ->
  exists ls',
    snd (transformer.transformFile w filePath updates config false autoMap) = transformer.Done
    /\ files (fst (transformer.transformFile w filePath updates config false autoMap))
       = <[filePath := strings.Join ls' nl]> (files w)
    /\ splicedLines (transformer.buildUpdateMap updates ∅) config autoMap (fileCalls node)
         ls ls'.
Proof.
  intros Hls Hfile Hparse Hfree Hplaced Hdup.
  unfold transformer.transformFile, readFile. rewrite Hfile, Hparse. cbv zeta.
  destruct (inspect_separate_lines filePath (transformer.buildUpdateMap updates ∅) config
              autoMap (fileCalls node) ls
              {| transformer.content := strings.Join ls nl; transformer.modifications := [];
                 transformer.modified := false; transformer.warnings := [] |}
              Hls eq_refl Hplaced Hdup)
    as (st' & ls' & -> & Hcontent & _ & Hflag & Hedited & Hkept).
  exists ls'. unfold transformer.finishFile. rewrite Hflag. cbn [orb negb andb].
  rewrite andb_true_r.
  destruct (bool_decide_reflect
              (editedLines (transformer.buildUpdateMap updates ∅) config autoMap (fileCalls node)
               = [])) as [Hnone|Hsome]; cbn [negb].
  - assert (ls' = ls) as ->.
    { apply list_eq. intros i. apply Hkept. rewrite Hnone. apply not_elem_of_nil. }
    rewrite andb_false_r. cbn [snd fst transformer.warnAll transformer.printModifications files].
    split; [reflexivity|]. split; [|split; assumption].
    now rewrite insert_id.
  - unfold writeFile. cbn [locked transformer.warnAll transformer.printModifications].
    destruct (decide (filePath ∈ locked w)) as [Hlocked|_]; [contradiction|].
    cbn [fst snd files print]. rewrite Hcontent. split; [reflexivity|].
    split; [reflexivity|]. split; assumption.
Qed.

End OneFile.

(** ** The column NewCall *)

Section NewCall.
Context `{GoParser} `{transformer.Env}.
Variable newCall : transformer.LogUpdate -> string.

Lemma buildUpdateMap_NewCall (updates : list transformer.LogUpdate) :
  forall m, transformer.buildUpdateMap (map (rewriteNewCall newCall) updates) (rewriteNewCall newCall <$> m)
            = rewriteNewCall newCall <$> transformer.buildUpdateMap updates m.
Proof.
  induction updates as [|update rest IH]; intros m; simpl; [reflexivity|].
  now rewrite <- IH, fmap_insert.
Qed.

Lemma visit_NewCall (filePath : string) (m : gmap string transformer.LogUpdate)
  (config : transformer.TemplateConfig) (dryRun autoMap : bool) (call : Expr)
  (st : transformer.Patch) :
  transformer.visit filePath (rewriteNewCall newCall <$> m) config dryRun autoMap call st
  = transformer.visit filePath m config dryRun autoMap call st.
Proof.
  unfold transformer.visit. rewrite lookup_fmap.
  now destruct (m !! _) as [update|].
Qed.

Lemma inspect_NewCall (filePath : string) (m : gmap string transformer.LogUpdate)
  (config : transformer.TemplateConfig) (dryRun autoMap : bool) (calls : list Expr) :
  forall st,
    transformer.inspect filePath (rewriteNewCall newCall <$> m) config dryRun autoMap calls st
    = transformer.inspect filePath m config dryRun autoMap calls st.
Proof.
  induction calls as [|call rest IH]; intros st; simpl; [reflexivity|].
  rewrite visit_NewCall. now destruct (transformer.visit _ _ _ _ _ call st).
Qed.

(** Property X9.  [transformFile] never reads the NewCall cell of a row:
    with other NewCall cells in the rows given to it, it does the same.  The
    cell only counts in the test of [Transform] that leaves a row out. *)
Theorem new_call_cell_is_not_read (w : World) (filePath : string)
  (updates : list transformer.LogUpdate) (config : transformer.TemplateConfig)
  (dryRun autoMap : bool) :
  transformer.transformFile w filePath (map (rewriteNewCall newCall) updates) config dryRun autoMap
  = transformer.transformFile w filePath updates config dryRun autoMap.
Proof.
  unfold transformer.transformFile.
  destruct (readFile filePath w) as [original|]; [|reflexivity].
  destruct (ParseFile filePath original) as [node|]; [|reflexivity].
  cbv zeta. rewrite <- (fmap_empty (rewriteNewCall newCall)), buildUpdateMap_NewCall, inspect_NewCall.
  reflexivity.
Qed.

End NewCall.

(** ** The files of a run *)

Section Run.
Context `{GoParser} `{transformer.Env}.

Lemma transformFile_frame (w : World) (filePath : string)
  (updates : list transformer.LogUpdate) (config : transformer.TemplateConfig)
  (dryRun autoMap : bool) :
  let w' := fst (transformer.transformFile w filePath updates config dryRun autoMap) in
  (forall path, path <> filePath -> files w' !! path = files w !! path)
  /\ (exists written, writes w' = writes w ++ written /\ Forall (eq filePath) written)
  /\ locked w' = locked w.
Proof.
  unfold transformer.transformFile.
  assert (Hsame : forall w0 : World,
             (forall path, path <> filePath -> files w0 !! path = files w0 !! path)
             /\ (exists written, writes w0 = writes w0 ++ written /\ Forall (eq filePath) written)
             /\ locked w0 = locked w0).
  { intros w0. split; [reflexivity|]. split; [|reflexivity].
    exists []. now rewrite app_nil_r. }
  destruct (readFile filePath w) as [original|]; [|apply Hsame].
  destruct (ParseFile filePath original) as [node|]; [|apply Hsame].
  cbv zeta. destruct (transformer.inspect _ _ _ _ _ _ _) as [st [|]]; [apply (Hsame w)|].
  unfold transformer.finishFile.
  destruct (transformer.modified st && negb dryRun).
  - unfold writeFile. cbn [locked transformer.warnAll transformer.printModifications].
    destruct (decide (filePath ∈ locked w)); [apply (Hsame w)|].
    cbn [fst files writes locked print]. split; [|split; [|reflexivity]].
    + intros path Hpath. now rewrite lookup_insert_ne.
    + exists [filePath]. split; [reflexivity|]. now constructor.
  - destruct (_ && dryRun); apply (Hsame w).
Qed.

Lemma transformFiles_frame (fileUpdates : list (string * list transformer.LogUpdate))
  (config : transformer.TemplateConfig) (dryRun autoMap : bool) :
  forall w,
    let w' := fst (transformer.transformFiles w fileUpdates config dryRun autoMap) in
    (forall path, path ∉ fileUpdates.*1 -> files w' !! path = files w !! path)
    /\ (exists written, writes w' = writes w ++ written
                        /\ Forall (fun path => path ∈ fileUpdates.*1) written).
Proof.
  induction fileUpdates as [|[filePath updates] rest IH]; intros w; cbv zeta.
  - simpl. split; [reflexivity|]. exists []. now rewrite app_nil_r.
  - cbn [transformer.transformFiles].
    destruct (transformFile_frame w filePath updates config dryRun autoMap)
      as (Hfiles & (written & Hwrites & Hwritten) & _).
    assert (Hhere : Forall (fun path => path ∈ ((filePath, updates) :: rest).*1) written).
    { eapply Forall_impl; [exact Hwritten|]. intros path <-. simpl. left. }
    destruct (transformer.transformFile w filePath updates config dryRun autoMap)
      as [w1 [|err|]]; cbn [fst] in *.
    + destruct (IH w1) as (Hfiles' & written' & Hwrites' & Hwritten').
      split.
      * intros path Hpath. simpl in Hpath. apply not_elem_of_cons in Hpath as [Hne Hpath].
        now rewrite (Hfiles' path Hpath), Hfiles.
      * exists (written ++ written'). rewrite Hwrites', Hwrites, app_assoc. split; [reflexivity|].
        apply Forall_app. split; [exact Hhere|].
        eapply Forall_impl; [exact Hwritten'|]. intros path Hpath. simpl. now right.
    + split; [|now exists written].
      intros path Hpath. simpl in Hpath. apply not_elem_of_cons in Hpath as [Hne _]. auto.
    + split; [|now exists written].
      intros path Hpath. simpl in Hpath. apply not_elem_of_cons in Hpath as [Hne _]. auto.
Qed.

Lemma groupUpdates_paths (updates : list transformer.LogUpdate) (path : string) :
  is_Some (transformer.groupUpdates updates ∅ !! path) -> path ∈ editedPaths updates.
Proof.
  rewrite groupUpdates_lookup, lookup_empty. unfold editedPaths.
  destruct (filter _ updates) as [|update rows] eqn:Hrows; [now intros [? ?]|].
  intros _.
  assert (Hin : update ∈ filter (fun u => transformer.skipped u = false
                                          /\ transformer.FilePath u = path) updates)
    by (rewrite Hrows; left).
  apply list_elem_of_filter in Hin as [[Hskip <-] Hin].
  apply list_elem_of_fmap. exists update. split; [reflexivity|].
  apply list_elem_of_In, List.filter_In. split; [now apply list_elem_of_In|].
  now rewrite Hskip.
Qed.

(** Property X6.  A run of [Transform] whose catalog loads writes only
    files that a row which is not left out names: every path it writes is
    the FilePath of such a row, and the content of every other file is
    what it was, in whichever order the files are ranged over. *)
Theorem run_writes_only_catalog_files (w : World) (csvFile rootPath configFile : string)
  (dryRun autoMap : bool) (updates : list transformer.LogUpdate) (skippedRows : list string) :
  transformer.loadUpdates w csvFile = Ok (updates, skippedRows) ->
  let w' := fst (transformer.Transform w csvFile rootPath dryRun configFile autoMap) in
  (forall path, path ∉ editedPaths updates -> files w' !! path = files w !! path)
  /\ (exists written, writes w' = writes w ++ written
                      /\ Forall (fun path => path ∈ editedPaths updates) written).
Proof.
  intros Hload. unfold transformer.Transform. rewrite Hload.
  assert (Hsame : forall w0 : World,
             files w0 = files w -> writes w0 = writes w ->
             (forall path, path ∉ editedPaths updates -> files w0 !! path = files w !! path)
             /\ (exists written, writes w0 = writes w ++ written
                                 /\ Forall (fun path => path ∈ editedPaths updates) written)).
  { intros w0 -> ->. split; [reflexivity|]. exists []. now rewrite app_nil_r. }
  destruct (transformer.loadTemplateConfig w configFile) as [config|]; [|now apply Hsame].
  cbv zeta. destruct (_ =? _)%nat; [now apply Hsame|].
  set (m := transformer.groupUpdates updates ∅).
  assert (Hpaths : forall path, path ∈ (transformer.range_files m).*1 -> path ∈ editedPaths updates).
  { intros path Hpath. apply groupUpdates_paths. fold m.
    apply list_elem_of_fmap in Hpath as ([p us] & -> & Hin).
    rewrite (transformer.range_files_perm m) in Hin.
    apply elem_of_map_to_list in Hin. simpl. now rewrite Hin. }
  destruct (transformFiles_frame (transformer.range_files m) config dryRun autoMap
              (transformer.warnAll skippedRows w)) as (Hfiles & written & Hwrites & Hwritten).
  split.
  - intros path Hpath. rewrite Hfiles; [reflexivity|]. intros Hin. apply Hpath, Hpaths, Hin.
  - exists written. split; [exact Hwrites|].
    eapply Forall_impl; [exact Hwritten|]. exact Hpaths.
Qed.

End Run.

(** ** The catalog, exported and loaded *)

(** Property X14.  The records that [exportToCSV] writes for a non-empty
    list of entries at positions that an int holds are loaded by
    [loadUpdates] without a warning, one update for every entry in the same
    order, with the identifier, the path, the line and the column, the
    call, the level, the message and the rendered arguments of the
    entry. *)
Theorem exported_catalog_loads_back (entries : list collector.LogEntry) :
  entries <> [] ->
  Forall positioned entries ->
  transformer.loadRecords (collector.exportRecords entries) = Ok (map toUpdate entries, []).
Proof.
  intros Hsome Hentries. unfold transformer.loadRecords, collector.exportRecords.
  destruct entries as [|entry rest]; [contradiction|].
  change (List.tl (collector.header :: map collector.exportRow (entry :: rest)))
    with (map collector.exportRow (entry :: rest)).
  now rewrite (loadRows_exportRows (entry :: rest) Hentries 1 ([], [])).
Qed.

(** ** The identifiers of a scan *)

Section Scan.
Context `{GoParser}.
Variable logPattern : string -> bool.

Lemma scanCalls_ids (filePath packageName : string) (calls : list Expr) (entryID : Z) :
  let r := collector.scanCalls logPattern filePath packageName entryID calls in
  map collector.ID (fst r)
  = map (fun k => entryName (entryID + Z.of_nat k)) (seq 0 (List.length (fst r)))
  /\ snd r = entryID + Z.of_nat (List.length (fst r)).
Proof.
  cbv zeta. rewrite scanCalls_numbering. cbn [fst snd].
  set (kept := List.filter (isLogCall logPattern) calls).
  rewrite length_imap. split; [|reflexivity].
  apply list_eq. intros k. rewrite !list_lookup_fmap, list_lookup_imap.
  destruct (kept !! k) as [call|] eqn:Hk; simpl.
  - rewrite lookup_seq_lt by (eapply lookup_lt_Some; eassumption). simpl.
    unfold collector.makeEntry. now destruct (collector.extractLogDetails call).
  - rewrite lookup_seq_ge; [reflexivity|]. now apply lookup_ge_None.
Qed.

Lemma names_app (first : Z) (n m : nat) :
  map (fun k => entryName (first + Z.of_nat k)) (seq 0 (n + m))
  = map (fun k => entryName (first + Z.of_nat k)) (seq 0 n)
    ++ map (fun k => entryName (first + Z.of_nat n + Z.of_nat k)) (seq 0 m).
Proof.
  rewrite seq_app, map_app. f_equal. simpl.
  replace (seq n m) with ((fun k => n + k)%nat <$> seq 0 m)
    by (rewrite fmap_add_seq; f_equal; lia).
  rewrite <- list_fmap_compose.
  apply list_fmap_ext. intros _ k _. simpl. f_equal. lia.
Qed.

Lemma scan_ids (paths : list string) :
  forall w entryID,
    map collector.ID (fst (collector.scan w logPattern entryID paths))
    = map (fun k => entryName (entryID + Z.of_nat k))
        (seq 0 (List.length (fst (collector.scan w logPattern entryID paths)))).
Proof.
  induction paths as [|path rest IH]; intros w entryID; simpl; [reflexivity|].
  destruct (negb _); [apply IH|].
  destruct (collector.parseFile w path logPattern entryID) as [[fileEntries next]|e] eqn:Hparse;
    [|apply IH].
  specialize (IH w next).
  destruct (collector.scan w logPattern next rest) as [entries w']; cbn [fst] in *.
  unfold collector.parseFile in Hparse.
  destruct (readFile path w) as [content|]; [|discriminate].
  destruct (ParseFile path content) as [node|]; [|discriminate].
  injection Hparse as Hscan.
  destruct (scanCalls_ids path (PkgName node) (fileCalls node) entryID) as [Hids Hnext].
  rewrite Hscan in Hids, Hnext. cbn [fst snd] in *.
  rewrite map_app, length_app, names_app, Hids, IH, Hnext. reflexivity.
Qed.

End Scan.

(** ** The built-in styles *)

Lemma prefix_append_self (a b : string) : String.prefix a (a +:+ b) = true.
Proof.
  induction a as [|c a IH]; simpl; [now destruct b|].
  destruct (ascii_dec c c); [exact IH|contradiction].
Qed.

Lemma HasSuffix_append (a p : string) : strings.HasSuffix (a +:+ p) p = true.
Proof.
  unfold strings.HasSuffix. rewrite length_append.
  replace (String.length a + String.length p - String.length p)%nat with (String.length a) by lia.
  rewrite drop_append, String.eqb_refl, andb_true_r. apply Nat.leb_le. lia.
Qed.

Lemma Join_head (h : string) (t : list string) (sep : string) :
  exists rest, strings.Join (h :: t) sep = h +:+ rest.
Proof.
  destruct t as [|h' t]; [exists ""; simpl; now rewrite append_nil_r|].
  now exists (sep +:+ strings.Join (h' :: t) sep).
Qed.

Lemma Join_last (parts : list string) (final sep : string) :
  exists front, strings.Join (parts ++ [final]) sep = front +:+ final.
Proof.
  induction parts as [|h t [front IH]]; [now exists ""|].
  destruct t as [|h' t].
  - exists (h +:+ sep). simpl. now rewrite append_assoc.
  - exists (h +:+ sep +:+ front).
    change (strings.Join ((h :: h' :: t) ++ [final]) sep)
      with (h +:+ sep +:+ strings.Join ((h' :: t) ++ [final]) sep).
    now rewrite IH, !append_assoc.
Qed.

Section Styles.
Context `{transformer.Env}.

(** Property X11.  For each of the styles slog, zap, zerolog and logrus,
    [generateStructuredLogCall] succeeds on every row, and the code is a
    call on the logger variable of the configuration: it starts with that
    variable and a dot and ends with a closing parenthesis. *)
Theorem builtin_styles_always_generate (update : transformer.LogUpdate) (config : transformer.TemplateConfig)
  (autoMap : bool) :
  transformer.Style config ∈ builtinStyles ->
  exists code,
    transformer.generateStructuredLogCall update config autoMap = Ok code
    /\ strings.HasPrefix code (transformer.LoggerVar config +:+ ".") = true
    /\ strings.HasSuffix code ")" = true.
Proof.
  intros Hstyle. unfold transformer.generateStructuredLogCall.
  set (fields := transformer.resolveFields update autoMap).
  set (message := transformer.resolveMessage update).
  set (logger := transformer.LoggerVar config).
  set (level := transformer.LogLevel update).
  unfold builtinStyles in Hstyle.
  assert (Hcases : transformer.Style config = "slog" \/ transformer.Style config = "zap"
                   \/ transformer.Style config = "zerolog"
                   \/ transformer.Style config = "logrus").
  { repeat (apply elem_of_cons in Hstyle as [Hstyle|Hstyle]; [tauto|]).
    now apply elem_of_nil in Hstyle. }
  destruct Hcases as [-> | [-> | [-> | -> ]]]; cbn [String.eqb Ascii.eqb Bool.eqb];
    eexists; (split; [reflexivity|]); unfold strings.HasPrefix.
  - unfold transformer.generateSlogCall, transformer.callHead.
    destruct (Join_head (logger +:+ "." +:+ transformer.lowerLevel level +:+ "(" +:+ dq
                         +:+ message +:+ dq)
                (map (fun field => "slog.Any(" +:+ dq +:+ transformer.Key field +:+ dq +:+ ", "
                                   +:+ transformer.Expression field +:+ ")") fields) ", ")
      as [rest ->].
    split; [|apply HasSuffix_append].
    rewrite !append_assoc, <- (append_assoc logger "."). apply prefix_append_self.
  - unfold transformer.generateZapCall, transformer.callHead.
    destruct (Join_head (logger +:+ "." +:+ transformer.titleLevel level +:+ "(" +:+ dq
                         +:+ message +:+ dq)
                (map (fun field => "zap." +:+ transformer.getZapFieldFunc (transformer.Type_ field)
                                   +:+ "(" +:+ dq +:+ transformer.Key field +:+ dq +:+ ", "
                                   +:+ transformer.Expression field +:+ ")") fields) ", ")
      as [rest ->].
    split; [|apply HasSuffix_append].
    rewrite !append_assoc, <- (append_assoc logger "."). apply prefix_append_self.
  - unfold transformer.generateZerologCall.
    set (parts := map _ fields). split.
    + destruct (Join_head (logger +:+ "." +:+ transformer.lowerLevel level +:+ "()")
                  (parts ++ ["Msg(" +:+ dq +:+ message +:+ dq +:+ ")"]) ".") as [rest ->].
      rewrite !append_assoc, <- (append_assoc logger "."). apply prefix_append_self.
    + destruct (Join_last ((logger +:+ "." +:+ transformer.lowerLevel level +:+ "()") :: parts)
                  ("Msg(" +:+ dq +:+ message +:+ dq +:+ ")") ".") as [front Hjoin].
      cbn [app] in Hjoin. rewrite Hjoin.
      replace (front +:+ "Msg(" +:+ dq +:+ message +:+ dq +:+ ")")
        with ((front +:+ "Msg(" +:+ dq +:+ message +:+ dq) +:+ ")")
        by now rewrite !append_assoc.
      apply HasSuffix_append.
  - unfold transformer.generateLogrusCall, transformer.callHead.
    destruct fields as [|field rest].
    + split.
      * rewrite !append_assoc, <- (append_assoc logger "."). apply prefix_append_self.
      * apply HasSuffix_append.
    + split.
      * replace (logger +:+ ".WithFields(" +:+ logger +:+ ".Fields{"
                 +:+ strings.Join (map (fun f => dq +:+ transformer.Key f +:+ dq +:+ ": "
                                                 +:+ transformer.Expression f) (field :: rest)) ", "
                 +:+ "})." +:+ transformer.titleLevel level +:+ "(" +:+ dq +:+ message +:+ dq
                 +:+ ")")
          with ((logger +:+ ".") +:+ "WithFields(" +:+ logger +:+ ".Fields{"
                 +:+ strings.Join (map (fun f => dq +:+ transformer.Key f +:+ dq +:+ ": "
                                                 +:+ transformer.Expression f) (field :: rest)) ", "
                 +:+ "})." +:+ transformer.titleLevel level +:+ "(" +:+ dq +:+ message +:+ dq
                 +:+ ")")
          by now rewrite !append_assoc.
        apply prefix_append_self.
      * rewrite <- !append_assoc. apply HasSuffix_append.
Qed.

End Styles.

(** ** Fields written by hand *)

Lemma parseSimpleFields_unknown (fieldsStr : string) :
  Forall (fun field => transformer.Type_ field = "unknown")
    (transformer.parseSimpleFields fieldsStr).
Proof.
  unfold transformer.parseSimpleFields. apply Forall_forall. intros field Hfield.
  apply list_elem_of_omap in Hfield as (part & _ & Hpart).
  unfold transformer.parseSimpleField in Hpart.
  destruct (String.eqb _ ""); [discriminate|].
  destruct (strings.Contains _ "="); [now injection Hpart as <-|].
  destruct (strings.Contains _ ":"); now injection Hpart as <-.
Qed.

Lemma map_unknown {A} (f g : transformer.FieldMapping -> A)
  (fields : list transformer.FieldMapping) :
  (forall field, transformer.Type_ field = "unknown" -> f field = g field) ->
  Forall (fun field => transformer.Type_ field = "unknown") fields ->
  map f fields = map g fields.
Proof.
  intros Hfg Hfields. induction Hfields as [|field rest Hfield _ IH]; simpl; [reflexivity|].
  now rewrite (Hfg field Hfield), IH.
Qed.

(** ** A run stops at the first file that fails *)

Section Stop.
Context `{GoParser} `{transformer.Env}.

Lemma transformFiles_app (before after : list (string * list transformer.LogUpdate))
  (config : transformer.TemplateConfig) (dryRun autoMap : bool) :
  forall w,
    transformer.transformFiles w (before ++ after) config dryRun autoMap
    = match transformer.transformFiles w before config dryRun autoMap with
      | (w', transformer.Done) => transformer.transformFiles w' after config dryRun autoMap
      | stopped => stopped
      end.
Proof.
  induction before as [|[filePath updates] rest IH]; intros w; simpl; [reflexivity|].
  destruct (transformer.transformFile w filePath updates config dryRun autoMap)
    as [w' [|err|]]; [apply IH|reflexivity..].
Qed.

Lemma transformFile_failed (w w' : World) (filePath : string)
  (updates : list transformer.LogUpdate) (config : transformer.TemplateConfig)
  (dryRun autoMap : bool) (err : string) :
  transformer.transformFile w filePath updates config dryRun autoMap
  = (w', transformer.Failed err) ->
  files w' = files w /\ writes w' = writes w.
Proof.
  unfold transformer.transformFile.
  destruct (readFile filePath w) as [original|]; [|now intros [= <- _]].
  destruct (ParseFile filePath original) as [node|]; [|now intros [= <- _]].
  cbv zeta. destruct (transformer.inspect _ _ _ _ _ _ _) as [st [|]]; [discriminate|].
  unfold transformer.finishFile.
  destruct (transformer.modified st && negb dryRun).
  - destruct (writeFile _ _ _); [discriminate|]. now intros [= <- _].
  - destruct (_ && dryRun); discriminate.
Qed.

End Stop.

(** ** The remaining properties *)

(** Property X4.  Of several rows of a file with the same line and column,
    the visitor of [transformFile] finds the one that comes last in the
    catalog, and it finds no row for a call at whose position there is
    none: the keys line:column of two positions are equal only if the
    positions are. *)
Theorem last_row_at_a_position_wins (updates : list transformer.LogUpdate) (call : Expr) :
  updateAt (transformer.buildUpdateMap updates ∅) call
  = last (filter (fun update => transformer.Line update = Line (callPos call)
                                /\ transformer.Column update = Column (callPos call)) updates).
Proof.
  unfold updateAt. rewrite buildUpdateMap_lookup_last, lookup_empty.
  now destruct (last _).
Qed.

(** Property X5.  The first loop of [Transform] gives every file the rows
    of the catalog that name it and are not left out, in the order of the
    catalog; a file that only rows left out name has no group. *)
Theorem updates_are_grouped_in_catalog_order (updates : list transformer.LogUpdate)
  (path : string) :
  transformer.groupUpdates updates ∅ !! path
  = match filter (fun update => transformer.skipped update = false
                                /\ transformer.FilePath update = path) updates with
    | [] => None
    | rows => Some rows
    end.
Proof. rewrite groupUpdates_lookup, lookup_empty. now destruct (filter _ updates). Qed.

(** Property X17.  The entries of a scan that numbers from a non-negative
    start are numbered consecutively across the files, in the order in
    which they are found, and no two of them have the same identifier. *)
Theorem scan_identifiers_are_distinct `{GoParser} (logPattern : string -> bool)
  (w : World) (entryID : Z) (paths : list string) :
  0 <= entryID ->
  map collector.ID (fst (collector.scan w logPattern entryID paths))
  = map (fun k => entryName (entryID + Z.of_nat k))
      (seq 0 (List.length (fst (collector.scan w logPattern entryID paths))))
  /\ NoDup (map collector.ID (fst (collector.scan w logPattern entryID paths))).
Proof.
  intros Hfirst. split; [apply scan_ids|].
  rewrite scan_ids. apply NoDup_fmap_2_strong; [|apply NoDup_seq].
  intros j k _ _ Heq. apply entryName_inj in Heq; lia.
Qed.

(** Property X16.  The two passes agree on positions: for every call of a
    file that the pattern matches, the rows loaded from the entries that
    [parseFile] collects for the file hold a row that the visitor of
    [transformFile] finds at that call, and this row carries the path of the
    file and the line and column of the call. *)
Theorem scanned_calls_are_found (logPattern : string -> bool) (filePath packageName : string)
  (entryID : Z) (calls : list Expr) (call : Expr) :
  call ∈ calls ->
  isLogCall logPattern call = true ->
  exists update,
    updateAt (transformer.buildUpdateMap
                (map toUpdate
                   (fst (collector.scanCalls logPattern filePath packageName entryID calls))) ∅)
      call = Some update
    /\ transformer.FilePath update = filePath
    /\ transformer.Line update = Line (callPos call)
    /\ transformer.Column update = Column (callPos call).
Proof.
  intros Hcall Hlog. unfold updateAt.
  rewrite buildUpdateMap_lookup_last, scanCalls_numbering. cbn [fst].
  set (entries := imap _ _).
  set (rows := filter _ (map toUpdate entries)).
  assert (Hpaths : forall update, update ∈ map toUpdate entries ->
                                  transformer.FilePath update = filePath).
  { intros update (entry & -> & Hentry)%list_elem_of_fmap.
    apply list_elem_of_lookup in Hentry as [k Hk]. subst entries.
    rewrite list_lookup_imap in Hk.
    destruct (List.filter (isLogCall logPattern) calls !! k) as [c|]; [|discriminate].
    injection Hk as <-. unfold collector.makeEntry.
    now destruct (collector.extractLogDetails c). }
  assert (Hrow : exists update, update ∈ rows).
  { assert (Hkept : call ∈ List.filter (isLogCall logPattern) calls).
    { apply list_elem_of_In, List.filter_In. split; [now apply list_elem_of_In|exact Hlog]. }
    apply list_elem_of_lookup in Hkept as [k Hk].
    exists (toUpdate (collector.makeEntry filePath packageName (entryID + Z.of_nat k) call)).
    apply list_elem_of_filter. split.
    - unfold collector.makeEntry. now destruct (collector.extractLogDetails call).
    - apply list_elem_of_fmap. eexists. split; [reflexivity|].
      apply list_elem_of_lookup. exists k. subst entries.
      now rewrite list_lookup_imap, Hk. }
  destruct (last rows) as [update|] eqn:Hlast.
  - exists update. split; [reflexivity|].
    assert (Hin : update ∈ rows).
    { apply last_Some in Hlast as [front ->]. apply elem_of_app. right. left. }
    apply list_elem_of_filter in Hin as [[Hline Hcolumn] Hin]. auto.
  - apply last_None in Hlast. destruct Hrow as [update Hin]. rewrite Hlast in Hin.
    now apply elem_of_nil in Hin.
Qed.

(** Property X18.  [extractLogLevel] gives one of the eight levels Trace,
    Debug, Info, Warn, Error, Fatal, Panic and Unknown for every function
    name; it never gives Warning, as a name that holds warning holds warn,
    which the loop tests first. *)
Theorem level_is_one_of_eight (funcName : string) :
  collector.extractLogLevel funcName ∈ scannedLevels.
Proof. apply extractLogLevel_range. Qed.

(** Property X19.  For a level as the scan records it, the method of the
    generated call is that level: in lower case for the slog and zerolog
    styles, as it is for the zap and logrus styles.  The replacement of
    warning by warn never applies to it. *)
Theorem scanned_level_names_the_method (funcName : string) :
  transformer.lowerLevel (collector.extractLogLevel funcName)
  = strings.ToLower (collector.extractLogLevel funcName)
  /\ transformer.titleLevel (collector.extractLogLevel funcName)
     = collector.extractLogLevel funcName.
Proof.
  pose proof (extractLogLevel_range funcName) as Hlevel. unfold scannedLevels in Hlevel.
  repeat (apply elem_of_cons in Hlevel as [->|Hlevel]; [split; reflexivity|]).
  now apply elem_of_nil in Hlevel.
Qed.

(** Property X23.  The key that [generateFieldKey] suggests for an ASCII
    name holds no upper-case letter: lower-casing it changes nothing. *)
Theorem suggested_key_is_lower_case (varName formatVerb inferredType : string) :
  strings.ascii_text varName = true ->
  strings.ToLower (collector.generateFieldKey varName formatVerb inferredType)
  = collector.generateFieldKey varName formatVerb inferredType.
Proof. intros _. apply generateFieldKey_lower. Qed.

(** Property X20.  Every verb that [extractFormatVerbs] returns is a
    percent sign, then flags, digits and dots only, then one verb letter;
    so no verb holds a semicolon, the byte at which the reader of the
    rendered arguments cuts them. *)
Theorem format_verbs_are_well_formed (formatStr : string) :
  Forall verbShaped (collector.extractFormatVerbs formatStr)
  /\ Forall (absent ";") (collector.extractFormatVerbs formatStr).
Proof.
  assert (Hshape : Forall verbShaped (collector.extractFormatVerbs formatStr)).
  { unfold collector.extractFormatVerbs. apply findAll_shape.
    intros s n Hmatch. now apply matchVerb_shape. }
  split; [exact Hshape|].
  eapply Forall_impl; [exact Hshape|].
  intros verb (body & c & -> & Hbody & Hc).
  apply absent_cons. split; [discriminate|].
  apply absent_append. split; [now apply (allBytes_absent isVerbBody)|].
  apply absent_cons. split; [|apply absent_nil].
  intros <-. discriminate Hc.
Qed.

(** Property X21.  When the first argument of a call is not a string
    literal, [extractLogDetails] gives its rendering as the message and one
    candidate for every other argument, none of which carries a format
    verb. *)
Theorem no_literal_no_verbs (call first : Expr) (rest : list Expr) :
  callArgs call = first :: rest ->
  (forall value, first <> BasicLit STRING value) ->
  fst (collector.extractLogDetails call) = collector.formatExpr first
  /\ List.length (snd (collector.extractLogDetails call)) = List.length rest
  /\ Forall (fun candidate => collector.FormatVerb candidate = "")
       (snd (collector.extractLogDetails call)).
Proof.
  intros Hargs Hfirst. unfold collector.extractLogDetails. rewrite Hargs.
  assert (Hcase : (match first with
                   | BasicLit STRING value => (value, collector.extractFormatVerbs value)
                   | _ => (collector.formatExpr first, [])
                   end) = (collector.formatExpr first, [])).
  { destruct first as [[] value| | | | | | |]; try reflexivity. now destruct (Hfirst value eq_refl). }
  rewrite Hcase. cbn [fst snd]. split; [reflexivity|].
  split; [apply analyseArguments_length|apply analyseArguments_no_verbs].
Qed.

(** Property X22.  [extractVarName] gives the text after the last dot: the
    name holds no dot, and the expression is the name itself or ends with a
    dot and the name. *)
Theorem variable_name_is_last_segment (expr : string) :
  absent "." (collector.extractVarName expr)
  /\ (expr = collector.extractVarName expr
      \/ exists front, expr = front +:+ "." +:+ collector.extractVarName expr).
Proof.
  unfold collector.extractVarName. split.
  - pose proof (Split_parts_absent "." expr) as Hparts.
    pose proof (last_in (strings.Split expr ".") expr (Split_nonempty "." expr)) as Hlast.
    eapply Forall_forall in Hparts; eassumption.
  - apply (last_Split_segment "." expr expr).
Qed.

(** Property X12.  Every field that [parseSimpleFields] reads has the type
    unknown, so the zap style wraps each of them in [zap.Any] and the
    zerolog style in [Interface], whatever the expressions are. *)
Theorem hand_written_fields_are_untyped (loggerVar level message fieldsStr : string) :
  Forall (fun field => transformer.Type_ field = "unknown")
    (transformer.parseSimpleFields fieldsStr)
  /\ transformer.generateZapCall loggerVar level message (transformer.parseSimpleFields fieldsStr)
     = strings.Join
         (transformer.callHead loggerVar (transformer.titleLevel level) message
          :: map (fun field => "zap.Any(" +:+ dq +:+ transformer.Key field +:+ dq +:+ ", "
                               +:+ transformer.Expression field +:+ ")")
               (transformer.parseSimpleFields fieldsStr)) ", " +:+ ")"
  /\ transformer.generateZerologCall loggerVar level message
       (transformer.parseSimpleFields fieldsStr)
     = strings.Join
         ((loggerVar +:+ "." +:+ transformer.lowerLevel level +:+ "()")
          :: map (fun field => "Interface(" +:+ dq +:+ transformer.Key field +:+ dq +:+ ", "
                               +:+ transformer.Expression field +:+ ")")
               (transformer.parseSimpleFields fieldsStr)
          ++ ["Msg(" +:+ dq +:+ message +:+ dq +:+ ")"]) ".".
Proof.
  pose proof (parseSimpleFields_unknown fieldsStr) as Hfields.
  split; [exact Hfields|]. split.
  - unfold transformer.generateZapCall. do 3 f_equal.
    apply map_unknown; [|exact Hfields]. now intros field ->.
  - unfold transformer.generateZerologCall. do 3 f_equal.
    apply map_unknown; [|exact Hfields]. now intros field ->.
Qed.

(** Property X7.  The second loop of [Transform] stops at the first file
    whose transformation fails: the error names that file, the files that
    follow it are not looked at, the failing file is not written, and what
    was written for the files before it stays written. *)
Theorem run_stops_at_first_failing_file `{GoParser} `{transformer.Env}
  (w w1 w2 : World) (before after : list (string * list transformer.LogUpdate))
  (filePath : string) (updates : list transformer.LogUpdate)
  (config : transformer.TemplateConfig) (dryRun autoMap : bool) (err : string) :
  transformer.transformFiles w before config dryRun autoMap = (w1, transformer.Done) ->
  transformer.transformFile w1 filePath updates config dryRun autoMap
  = (w2, transformer.Failed err) ->
  transformer.transformFiles w (before ++ (filePath, updates) :: after) config dryRun autoMap
  = (w2, transformer.Failed ("failed to transform " +:+ filePath +:+ ": " +:+ err))
  /\ files w2 = files w1
  /\ writes w2 = writes w1.
Proof.
  intros Hbefore Hfile. rewrite transformFiles_app, Hbefore.
  cbn [transformer.transformFiles]. rewrite Hfile.
  split; [reflexivity|]. eapply transformFile_failed, Hfile.
Qed.

(** Property X8.  When the walk of a real run does not panic, the
    modifications it records and the warnings it gives are those of the
    dry run on the same input: one modification for every call at the
    position of a row whose code is generated, in visiting order. *)
Theorem dry_run_previews_the_report `{transformer.Env} (filePath : string)
  (updateMap : gmap string transformer.LogUpdate) (config : transformer.TemplateConfig)
  (autoMap : bool) (calls : list Expr) (st st' : transformer.Patch) :
  transformer.inspect filePath updateMap config false autoMap calls st = (st', false) ->
  transformer.modifications st'
  = transformer.modifications
      (fst (transformer.inspect filePath updateMap config true autoMap calls st))
  /\ transformer.warnings st'
     = transformer.warnings
         (fst (transformer.inspect filePath updateMap config true autoMap calls st))
  /\ transformer.modifications st'
     = transformer.modifications st
       ++ omap (plannedModification filePath updateMap config autoMap) calls.
Proof.
  intros Hreal.
  destruct (inspect_dry_run filePath config autoMap updateMap calls st) as (_ & _ & Hdry).
  destruct (transformer.inspect filePath updateMap config true autoMap calls st)
    as [preview stopped] eqn:Hpreview.
  cbn [fst snd] in *. subst stopped.
  destruct (inspect_report _ _ _ _ _ _ _ _ Hreal) as [Hm Hw].
  destruct (inspect_report _ _ _ _ _ _ _ _ Hpreview) as [Hm' Hw'].
  rewrite Hm, Hw, Hm', Hw'. auto.
Qed.

(** ** The further theorems at concrete inputs *)

(** A call wrapped over the lines 3 and 4. *)
Lemma multi_line_call_is_replaced_witness :
  Forall (absent "010") wrappedLines
  /\ (2 < 3)%nat
  /\ transformer.replaceCallExpr (printCall (at_ 3 3) (at_ 4 7) "1") "log.info(1)"
       (strings.Join wrappedLines nl)
     = Some (strings.Join unwrappedLines nl).
Proof.
  assert (Hlines : Forall (absent "010") wrappedLines) by (repeat constructor).
  assert (Horder : (2 < 3)%nat) by lia.
  split; [exact Hlines|]. split; [exact Horder|].
  exact (multi_line_call_is_replaced wrappedLines 2 3 "  " "log.Print(" "    1)" ""
           "log.info(1)" (SelectorExpr (Ident "log") "Print") [BasicLit INT "1"]
           Hlines Horder eq_refl eq_refl).
Defined.

(** The first of the two calls edited alone. *)
Lemma edits_on_separate_lines_are_exact_witness :
  Forall (absent "010") twoCallsLines
  /\ files sources !! "main.go" = Some (strings.Join twoCallsLines nl)
  /\ NoDup (editedLines (H := plainEnv) firstCallUpdates defaultConfig true
              (fileCalls twoCallsFile))
  /\ exists ls',
       files (fst (transformer.transformFile (H := parser) (H0 := plainEnv) sources "main.go"
                     [firstUpdate] defaultConfig false true))
       = <["main.go" := strings.Join ls' nl]> (files sources)
       /\ ls' !! 1%nat = firstCallEdited !! 1%nat.
Proof.
  assert (Hlines : Forall (absent "010") twoCallsLines) by (repeat constructor).
  assert (Hfile : files sources !! "main.go" = Some (strings.Join twoCallsLines nl))
    by reflexivity.
  assert (Hparse : ParseFile (GoParser := parser) "main.go" (strings.Join twoCallsLines nl)
                   = Ok twoCallsFile) by reflexivity.
  assert (Hfree : "main.go" ∉ locked sources) by apply not_elem_of_empty.
  assert (Hcode : plannedCode (H := plainEnv) firstCallUpdates defaultConfig true firstCall
                  = Some ("log.info(" +:+ dq +:+ "one" +:+ dq +:+ ")")) by reflexivity.
  assert (Hplaced : placed (H := plainEnv) firstCallUpdates defaultConfig true twoCallsLines
                      (fileCalls twoCallsFile)).
  { change (fileCalls twoCallsFile) with [firstCall; secondCall].
    constructor; [|constructor; [|constructor]]; intros newCode Hnew.
    - rewrite Hcode in Hnew. injection Hnew as <-. split; [|reflexivity].
      split; [reflexivity|]. split; [vm_compute; discriminate|].
      exists "func f() { log.Print(1); log.Print(2) }".
      split; [reflexivity|]. split; vm_compute; split; discriminate.
    - vm_compute in Hnew. discriminate Hnew. }
  assert (Hdup : NoDup (editedLines (H := plainEnv) firstCallUpdates defaultConfig true
                          (fileCalls twoCallsFile)))
    by (apply (NoDup_singleton 1%nat)).
  split; [exact Hlines|]. split; [exact Hfile|]. split; [exact Hdup|].
  destruct (edits_on_separate_lines_are_exact (H := parser) (H0 := plainEnv) sources "main.go"
              [firstUpdate] defaultConfig true twoCallsLines twoCallsFile
              Hlines Hfile Hparse Hfree Hplaced Hdup)
    as (ls' & _ & Hfiles & Hedited & _).
  exists ls'. split; [exact Hfiles|].
  exact (Hedited firstCall _ (list_elem_of_here _ _) Hcode).
Defined.

(** A row at 1:1, where the source of the two calls has no call. *)
Lemma rows_without_a_call_change_nothing_witness :
  files sources !! "main.go" = Some twoCallsSource
  /\ ParseFile (GoParser := parser) "main.go" twoCallsSource = Ok twoCallsFile
  /\ transformer.transformFile (H := parser) (H0 := plainEnv) sources "main.go" [printfUpdate]
       defaultConfig false true
     = (sources, transformer.Done).
Proof.
  split; [reflexivity|]. split; [reflexivity|].
  apply (rows_without_a_call_change_nothing (H := parser) (H0 := plainEnv) sources "main.go"
           [printfUpdate] defaultConfig false true twoCallsSource twoCallsFile eq_refl eq_refl).
  intros call update Hcall Hupdate.
  apply list_elem_of_singleton in Hupdate as ->.
  change (fileCalls twoCallsFile) with [firstCall; secondCall] in Hcall.
  apply elem_of_cons in Hcall as [->|Hcall];
    [|apply list_elem_of_singleton in Hcall as ->]; intros [Hline _]; discriminate Hline.
Defined.

(** The catalog scanned from the source of the two calls. *)
Lemma exported_catalog_loads_back_witness :
  scanned <> []
  /\ Forall positioned scanned
  /\ transformer.loadRecords (collector.exportRecords scanned) = Ok (map toUpdate scanned, []).
Proof.
  assert (Hsome : scanned <> []) by (intros Hnone; vm_compute in Hnone; discriminate Hnone).
  assert (Hplaces : Forall positioned scanned).
  { change scanned
      with [collector.makeEntry "main.go" "main" 1 firstCall;
            collector.makeEntry "main.go" "main" 2 secondCall].
    repeat constructor; vm_compute; discriminate. }
  split; [exact Hsome|]. split; [exact Hplaces|].
  exact (exported_catalog_loads_back scanned Hsome Hplaces).
Defined.

(** The scan of the source of the two calls, numbered from 1. *)
Lemma scan_identifiers_are_distinct_witness :
  0 <= 1
  /\ NoDup (map collector.ID
              (fst (collector.scan (H := parser) sources logPattern 1 ["main.go"]))).
Proof.
  assert (Hfirst : 0 <= 1) by lia.
  split; [exact Hfirst|].
  exact (proj2 (scan_identifiers_are_distinct (H := parser) logPattern sources 1 ["main.go"]
                  Hfirst)).
Defined.

(** The first of the two calls in the catalog scanned from them. *)
Lemma scanned_calls_are_found_witness :
  firstCall ∈ fileCalls twoCallsFile
  /\ isLogCall logPattern firstCall = true
  /\ exists update,
       updateAt (transformer.buildUpdateMap
                   (map toUpdate
                      (fst (collector.scanCalls logPattern "main.go" "main" 1
                              (fileCalls twoCallsFile)))) ∅) firstCall
       = Some update
       /\ transformer.Line update = 2.
Proof.
  assert (Hcall : firstCall ∈ fileCalls twoCallsFile) by apply list_elem_of_here.
  assert (Hlog : isLogCall logPattern firstCall = true) by reflexivity.
  split; [exact Hcall|]. split; [exact Hlog|].
  destruct (scanned_calls_are_found logPattern "main.go" "main" 1 (fileCalls twoCallsFile)
              firstCall Hcall Hlog) as (update & Hfound & _ & Hline & _).
  exists update. split; [exact Hfound|exact Hline].
Defined.

(** The name userID. *)
Lemma suggested_key_is_lower_case_witness :
  strings.ascii_text "userID" = true
  /\ strings.ToLower (collector.generateFieldKey "userID" "%d" "unknown")
     = collector.generateFieldKey "userID" "%d" "unknown".
Proof.
  split; [reflexivity|].
  exact (suggested_key_is_lower_case "userID" "%d" "unknown" eq_refl).
Defined.

(** [log.Print(1)]: the first argument is no string literal. *)
Lemma no_literal_no_verbs_witness :
  callArgs firstCall = [BasicLit INT "1"]
  /\ fst (collector.extractLogDetails firstCall) = "1".
Proof.
  split; [reflexivity|].
  refine (proj1 (no_literal_no_verbs firstCall (BasicLit INT "1") [] eq_refl _)).
  intros value Hvalue. discriminate Hvalue.
Defined.

(** A preview of 80 bytes. *)
Lemma preview_fits_its_width_witness :
  3 <= 80
  /\ strings.len (transformer.truncateCode twoCallsSource 80) <= 80.
Proof.
  assert (Hwidth : 3 <= 80) by lia.
  split; [exact Hwidth|].
  exact (preview_fits_its_width twoCallsSource 80 Hwidth).
Defined.

(** The row of [log.Printf("error: %v", err)] as exported: the message
    is the literal without its quotes. *)
Lemma message_quotes_are_stripped_witness :
  unquoted "error: %v"
  /\ transformer.NewMessage (toUpdate printfEntry) = ""
  /\ transformer.resolveMessage (toUpdate printfEntry) = "error: %v".
Proof.
  split; [reflexivity|]. split; [reflexivity|].
  exact (message_quotes_are_stripped (toUpdate printfEntry) "error: %v" eq_refl
           (or_intror (or_intror (conj eq_refl eq_refl)))).
Defined.

(** The style zap. *)
Lemma builtin_styles_always_generate_witness :
  transformer.Style (styleConfig "zap") ∈ builtinStyles
  /\ exists code,
       transformer.generateStructuredLogCall (H := plainEnv) printfUpdate (styleConfig "zap") true
       = Ok code
       /\ strings.HasPrefix code "logger." = true.
Proof.
  assert (Hstyle : transformer.Style (styleConfig "zap") ∈ builtinStyles)
    by (right; left).
  split; [exact Hstyle|].
  destruct (builtin_styles_always_generate (H := plainEnv) printfUpdate (styleConfig "zap") true
              Hstyle) as (code & Hcode & Hprefix & _).
  exists code. split; [exact Hcode|exact Hprefix].
Defined.

(** A file that does not exist before the source of the two calls. *)
Lemma run_stops_at_first_failing_file_witness :
  transformer.transformFile (H := parser) (H0 := plainEnv) sources "missing.go" []
    defaultConfig false true
  = (sources, transformer.Failed "open missing.go: no such file or directory")
  /\ transformer.transformFiles (H := parser) (H0 := plainEnv) sources missingFirst
       defaultConfig false true
     = (sources,
        transformer.Failed
          "failed to transform missing.go: open missing.go: no such file or directory").
Proof.
  split; [reflexivity|].
  exact (proj1 (run_stops_at_first_failing_file (H := parser) (H0 := plainEnv)
                  sources sources sources [] [("main.go", [firstUpdate])] "missing.go" []
                  defaultConfig false true "open missing.go: no such file or directory"
                  eq_refl eq_refl)).
Defined.

(** The run on the two calls. *)
Lemma run_writes_only_catalog_files_witness :
  transformer.loadUpdates (H := plainEnv) twoCallsWorld "catalog.csv" = Ok (twoCallsUpdates, [])
  /\ forall path,
       path ∉ editedPaths twoCallsUpdates ->
       files (fst (transformer.Transform (H := parser) (H0 := plainEnv) twoCallsWorld
                     "catalog.csv" "." false "" true)) !! path
       = files twoCallsWorld !! path.
Proof.
  assert (Hload : transformer.loadUpdates (H := plainEnv) twoCallsWorld "catalog.csv"
                  = Ok (twoCallsUpdates, [])) by (vm_compute; reflexivity).
  split; [exact Hload|].
  exact (proj1 (run_writes_only_catalog_files (H := parser) (H0 := plainEnv) twoCallsWorld
                  "catalog.csv" "." "" false true twoCallsUpdates [] Hload)).
Defined.

(** The walk over the two calls with the first one edited. *)
Lemma dry_run_previews_the_report_witness :
  transformer.inspect (H := plainEnv) "main.go" firstCallUpdates defaultConfig false true
    [firstCall; secondCall] (emptyPatch twoCallsSource)
  = (fst (transformer.inspect (H := plainEnv) "main.go" firstCallUpdates defaultConfig false
            true [firstCall; secondCall] (emptyPatch twoCallsSource)), false)
  /\ transformer.modifications
       (fst (transformer.inspect (H := plainEnv) "main.go" firstCallUpdates defaultConfig false
               true [firstCall; secondCall] (emptyPatch twoCallsSource)))
     = transformer.modifications
         (fst (transformer.inspect (H := plainEnv) "main.go" firstCallUpdates defaultConfig true
                 true [firstCall; secondCall] (emptyPatch twoCallsSource))).
Proof.
  assert (Hreal : transformer.inspect (H := plainEnv) "main.go" firstCallUpdates defaultConfig
                    false true [firstCall; secondCall] (emptyPatch twoCallsSource)
                  = (fst (transformer.inspect (H := plainEnv) "main.go" firstCallUpdates
                            defaultConfig false true [firstCall; secondCall]
                            (emptyPatch twoCallsSource)), false))
    by (vm_compute; reflexivity).
  split; [exact Hreal|].
  exact (proj1 (dry_run_previews_the_report (H := plainEnv) "main.go" firstCallUpdates
                  defaultConfig true [firstCall; secondCall] (emptyPatch twoCallsSource) _
                  Hreal)).
Defined.

(** * The verbs of a literal, from left to right *)

Lemma isDigit_digitByte (c : ascii) : collector.isDigit c = digitByte c.
Proof. destruct c as [[] [] [] [] [] [] [] []]; reflexivity. Qed.

Lemma allBytes_ext (f g : ascii -> bool) (s : string) :
  (forall c, f c = g c) -> allBytes f s = allBytes g s.
Proof. intros Hfg. induction s as [|c s IH]; simpl; [reflexivity|]. now rewrite Hfg, IH. Qed.

Lemma span_all (f : ascii -> bool) (a b : string) :
  allBytes f a = true -> collector.span f (a +:+ b) = (String.length a + collector.span f b)%nat.
Proof.
  induction a as [|c a IH]; simpl; [reflexivity|].
  intros [Hc Ha]%andb_true_iff. now rewrite Hc, IH.
Qed.

Lemma span_stop (f : ascii -> bool) (c : ascii) (r : string) :
  f c = false -> collector.span f (String c r) = 0%nat.
Proof. intros Hc. simpl. now rewrite Hc. Qed.

Lemma dot_step (c : ascii) (r : string) :
  match String c r with String "." _ => 1%nat | _ => 0%nat end
  = if Ascii.eqb c "." then 1%nat else 0%nat.
Proof. destruct c as [[] [] [] [] [] [] [] []]; reflexivity. Qed.

Lemma matchVerb_percent (r0 : string) :
  collector.matchVerb (String "%" r0)
  = let n1 := collector.span collector.isFlag r0 in
    let r1 := strings.drop n1 r0 in
    let n2 := collector.span collector.isDigit r1 in
    let r2 := strings.drop n2 r1 in
    let n3 := match r2 with String "." _ => 1%nat | _ => 0%nat end in
    let r3 := strings.drop n3 r2 in
    let n4 := collector.span collector.isDigit r3 in
    match strings.drop n4 r3 with
    | String c _ =>
        if collector.isVerbLetter c then Some (S (n1 + n2 + n3 + n4 + 1)) else None
    | EmptyString => None
    end.
Proof. reflexivity. Qed.

Lemma matchVerb_other (c : ascii) (r : string) :
  c <> "%"%char -> collector.matchVerb (String c r) = None.
Proof.
  intros Hc. destruct c as [[] [] [] [] [] [] [] []]; try reflexivity. now destruct Hc.
Qed.

(** After the zeros that the flags take from a run of digits, the digits
    take the rest of the run. *)
Lemma digits_after_flags (D : string) (c : ascii) (r : string) :
  allBytes collector.isDigit D = true ->
  collector.isFlag c = false -> collector.isDigit c = false ->
  let z := collector.span collector.isFlag (D +:+ String c r) in
  collector.span collector.isDigit (strings.drop z (D +:+ String c r)) = (String.length D - z)%nat
  /\ strings.drop (String.length D - z) (strings.drop z (D +:+ String c r)) = String c r
  /\ (z <= String.length D)%nat.
Proof.
  intros HD Hflag Hdigit. induction D as [|d D IH].
  - simpl. rewrite Hflag. simpl. now rewrite Hdigit.
  - simpl in HD. apply andb_true_iff in HD as [Hd HD]. specialize (IH HD).
    cbv zeta in *. rewrite append_cons. simpl collector.span.
    destruct (collector.isFlag d).
    + simpl. destruct IH as (Hspan & Hdrop & Hle). repeat split; [exact Hspan|exact Hdrop|lia].
    + simpl strings.drop. rewrite Nat.sub_0_r.
      change (String d (D +:+ String c r)) with (String d D +:+ String c r).
      rewrite span_all by (simpl; now rewrite Hd, HD).
      rewrite (span_stop _ c r Hdigit), Nat.add_0_r, drop_append. repeat split; lia.
Qed.

Lemma drop_past (a b : string) (n : nat) :
  strings.drop (String.length a + n) (a +:+ b) = strings.drop n b.
Proof. induction a as [|c a IH]; simpl; [reflexivity|exact IH]. Qed.

Lemma letter_classes (c : ascii) :
  letterByte c = true ->
  collector.isVerbLetter c = true /\ collector.isFlag c = false
  /\ collector.isDigit c = false /\ Ascii.eqb c "." = false.
Proof. destruct c as [[] [] [] [] [] [] [] []]; simpl; intros H; try discriminate H; auto. Qed.

(** A text that the pattern matches is matched where it starts, whole. *)
Lemma verbText_matchVerb (v tail : string) :
  verbText v -> collector.matchVerb (v +:+ tail) = Some (String.length v).
Proof.
  intros (flags & width & dot & precision & letter & -> & Hflags & Hwidth & Hdot & Hprec
          & Hletter).
  destruct (letter_classes letter Hletter) as (Hverb & Hnoflag & Hnodigit & Hnodot).
  rewrite (allBytes_ext digitByte collector.isDigit) in Hwidth, Hprec
    by (intros; symmetry; apply isDigit_digitByte).
  change (("%" +:+ flags +:+ width +:+ dot +:+ precision +:+ String letter "") +:+ tail)
    with (String "%" ((flags +:+ width +:+ dot +:+ precision +:+ String letter "") +:+ tail)).
  rewrite matchVerb_percent.
  rewrite !append_assoc. rewrite append_cons, append_nil_l.
  rewrite (span_all collector.isFlag flags) by exact Hflags.
  destruct Hdot as [-> | ->].
  - rewrite append_nil_l.
    set (D := width +:+ precision).
    assert (HD : allBytes collector.isDigit D = true)
      by (subst D; rewrite allBytes_append; now rewrite Hwidth, Hprec).
    replace (width +:+ precision +:+ String letter tail) with (D +:+ String letter tail)
      by (subst D; now rewrite append_assoc).
    destruct (digits_after_flags D letter tail HD Hnoflag Hnodigit) as (Hspan & Hdrop & Hle).
    cbv zeta in *. set (z := collector.span collector.isFlag (D +:+ String letter tail)) in *.
    rewrite drop_past, Hspan, Hdrop, (dot_step letter tail), Hnodot. cbn [strings.drop].
    rewrite (span_stop _ letter tail Hnodigit). cbn [strings.drop]. rewrite Hverb.
    f_equal. subst D. cbn [String.length]. rewrite !length_append. cbn [String.length].
    rewrite length_append in Hle. lia.
  - assert (Hdotflag : collector.isFlag "." = false) by reflexivity.
    assert (Hdotdigit : collector.isDigit "." = false) by reflexivity.
    change ("." +:+ precision +:+ String letter tail)
      with (String "." (precision +:+ String letter tail)).
    destruct (digits_after_flags width "." (precision +:+ String letter tail)
                Hwidth Hdotflag Hdotdigit) as (Hspan & Hdrop & Hle).
    cbv zeta in *.
    set (z := collector.span collector.isFlag
                (width +:+ String "." (precision +:+ String letter tail))) in *.
    rewrite drop_past, Hspan, Hdrop, (dot_step "." (precision +:+ String letter tail)).
    cbn [Ascii.eqb Bool.eqb strings.drop].
    rewrite (span_all collector.isDigit precision) by exact Hprec.
    rewrite (span_stop _ letter tail Hnodigit), Nat.add_0_r, drop_append, Hverb.
    f_equal. cbn [String.length]. rewrite !length_append. cbn [String.length].
    rewrite ?length_append. cbn [String.length]. lia.
Qed.

(** What is matched where a text starts is a text that the pattern
    matches. *)
Lemma matchVerb_verbText (s : string) (n : nat) :
  collector.matchVerb s = Some n -> verbText (strings.take n s).
Proof.
  destruct s as [|p r0]; [discriminate|].
  destruct (Ascii.eqb_spec p "%") as [->|Hp]; [|now rewrite matchVerb_other].
  rewrite matchVerb_percent. cbv zeta.
  set (n1 := collector.span collector.isFlag r0).
  set (r1 := strings.drop n1 r0).
  set (n2 := collector.span collector.isDigit r1).
  set (r2 := strings.drop n2 r1).
  set (n3 := match r2 with String "." _ => 1%nat | _ => 0%nat end).
  set (r3 := strings.drop n3 r2).
  set (n4 := collector.span collector.isDigit r3).
  destruct (strings.drop n4 r3) as [|c rest] eqn:Hrest; [discriminate|].
  destruct (collector.isVerbLetter c) eqn:Hc; [|discriminate].
  intros [= <-].
  exists (strings.take n1 r0), (strings.take n2 r1), (strings.take n3 r2),
    (strings.take n4 r3), c.
  split; [|repeat split].
  - cbn [strings.take]. rewrite !take_plus, !drop_plus. fold r1. fold n2 r2. fold n3 r3.
    fold n4. rewrite Hrest. cbn [strings.take]. simpl. now rewrite !append_assoc.
  - apply allBytes_span.
  - rewrite (allBytes_ext digitByte collector.isDigit)
      by (intros; symmetry; apply isDigit_digitByte).
    apply allBytes_span.
  - subst n3. destruct r2 as [|d r2']; [now left|].
    rewrite (dot_step d r2'). destruct (Ascii.eqb_spec d ".") as [->|_]; [now right|now left].
  - rewrite (allBytes_ext digitByte collector.isDigit)
      by (intros; symmetry; apply isDigit_digitByte).
    apply allBytes_span.
  - exact Hc.
Qed.

Lemma verbText_length (v : string) : verbText v -> exists m, String.length v = S m.
Proof. intros (flags & width & dot & precision & letter & -> & _). simpl. eauto. Qed.

Lemma findAll_skip (s : string) :
  forall k, collector.findAll k s = collector.findAll 0 (strings.drop k s).
Proof.
  induction s as [|c r IH]; intros k; [now destruct k|].
  destruct k as [|k]; [reflexivity|]. rewrite findAll_cons. simpl strings.drop. apply IH.
Qed.

Lemma findAll_found (s : string) (n : nat) :
  collector.matchVerb s = Some n ->
  collector.findAll 0 s = strings.take n s :: collector.findAll 0 (strings.drop n s).
Proof.
  intros Hmatch. destruct (matchVerb_positive s n Hmatch) as [m ->].
  destruct s as [|c r]; [discriminate|].
  rewrite findAll_cons, Hmatch, findAll_skip. simpl. now rewrite Nat.sub_0_r.
Qed.

Lemma findAll_next (c : ascii) (r : string) :
  collector.matchVerb (String c r) = None ->
  collector.findAll 0 (String c r) = collector.findAll 0 r.
Proof. intros Hmatch. now rewrite findAll_cons, Hmatch. Qed.

Lemma length_drop_string (n : nat) (s : string) :
  String.length (strings.drop n s) = (String.length s - n)%nat.
Proof. revert s. induction n as [|n IH]; intros [|c s]; simpl; auto. Qed.

(** The matcher finds the verbs of the text from left to right. *)
Lemma findAll_verbsOf (s : string) : verbsOf s (collector.findAll 0 s).
Proof.
  remember (String.length s) as len eqn:Hlen.
  revert s Hlen. induction len as [len IH] using lt_wf_ind. intros s Hlen.
  destruct s as [|c r]; [constructor|].
  destruct (collector.matchVerb (String c r)) as [n|] eqn:Hmatch.
  - rewrite (findAll_found _ _ Hmatch).
    rewrite <- (take_drop_string n (String c r)) at 1.
    constructor; [now apply matchVerb_verbText|].
    destruct (matchVerb_positive _ _ Hmatch) as [m ->].
    eapply IH; [|reflexivity]. rewrite length_drop_string. simpl in *. lia.
  - rewrite (findAll_next _ _ Hmatch).
    apply verbsOf_next.
    + intros n Hverb.
      pose proof (verbText_matchVerb _ (strings.drop n (String c r)) Hverb) as Hsome.
      rewrite take_drop_string in Hsome. congruence.
    + eapply IH; [|reflexivity]. simpl in *. lia.
Qed.

(** The verbs of a text are those that the matcher finds: there is one
    list of them. *)
Lemma verbsOf_findAll (s : string) (vs : list string) :
  verbsOf s vs -> vs = collector.findAll 0 s.
Proof.
  induction 1 as [|v rest vs Hverb _ IH|c r vs Hnone _ IH]; [reflexivity| |].
  - pose proof (verbText_matchVerb v rest Hverb) as Hmatch.
    rewrite (findAll_found _ _ Hmatch), take_append, drop_append. now rewrite IH.
  - rewrite findAll_next; [exact IH|].
    destruct (collector.matchVerb (String c r)) as [n|] eqn:Hmatch; [|reflexivity].
    now destruct (Hnone n (matchVerb_verbText _ _ Hmatch)).
Qed.

(** Claim C5.  A call whose first argument is a string literal, followed by
    [m] further arguments, is analysed into exactly [m] candidates.  The
    literal, without the quotes around it, has one list of verbs found from
    left to right, each a text that the pattern of the format verbs
    matches; let [k] be their number.  The candidate at index [i] describes
    the [i]th further argument and carries the [i]th of these verbs when
    there is one and the empty verb otherwise, whatever the verb and the
    argument are; so [min k m] candidates carry a verb. *)
Theorem analyzer_pairs_by_position (pos end_ : Position) (fn : Expr) (lit : string)
  (rest : list Expr) :
  let call := CallExpr pos end_ fn (BasicLit STRING lit :: rest) in
  let candidates := snd (collector.extractLogDetails call) in
  exists verbs,
    verbsOf (strings.Trim lit quoteCutset) verbs
    /\ (forall others, verbsOf (strings.Trim lit quoteCutset) others -> others = verbs)
    /\ List.length candidates = List.length rest
    /\ (forall i d e, (i < List.length rest)%nat ->
          collector.Index (nth i candidates d) = Z.of_nat i
          /\ collector.Expression (nth i candidates d) = collector.formatExpr (nth i rest e)
          /\ collector.Type_ (nth i candidates d) = collector.inferType (nth i rest e)
          /\ collector.FormatVerb (nth i candidates d) = nth i verbs "")
    /\ List.length (List.filter collector.carriesVerb candidates)
       = Nat.min (List.length verbs) (List.length rest).
Proof.
  intros call candidates. subst call candidates. simpl.
  exists (collector.extractFormatVerbs lit). unfold collector.extractFormatVerbs.
  set (verbs := collector.findAll 0 (strings.Trim lit quoteCutset)).
  split; [apply findAll_verbsOf|]. split; [intros others; apply verbsOf_findAll|].
  split; [apply analyseArguments_length|]. split.
  - intros i d e Hi. rewrite (analyseArguments_nth verbs rest 0 i d e Hi). simpl. auto.
  - rewrite analyseArguments_verbs_exact by apply findAll_nonempty.
    now rewrite Nat.sub_0_r.
Qed.

(** [log.Printf("%s scored %5.2f", name, score, round)]: two verbs and
    three further arguments. *)
Lemma analyzer_pairs_by_position_witness :
  let candidates := snd (collector.extractLogDetails scoredCall) in
  verbsOf "%s scored %5.2f" ["%s"; "%5.2f"]
  /\ List.length candidates = 3%nat
  /\ map collector.FormatVerb candidates = ["%s"; "%5.2f"; ""]
  /\ map collector.Expression candidates = ["name"; "score"; "round"]
  /\ List.length (List.filter collector.carriesVerb candidates) = 2%nat.
Proof.
  destruct (analyzer_pairs_by_position (at_ 1 1) (at_ 1 50)
              (SelectorExpr (Ident "log") "Printf") (dq +:+ "%s scored %5.2f" +:+ dq)
              [Ident "name"; Ident "score"; Ident "round"])
    as (verbs & Hverbs & Hunique & Hlength & Hpairs & Hcount).
  assert (Hfound : ["%s"; "%5.2f"] = verbs)
    by (apply Hunique; exact (findAll_verbsOf "%s scored %5.2f")).
  subst verbs. fold scoredCall in Hlength, Hpairs, Hcount.
  set (none := {| collector.Index := 0; collector.Expression := ""; collector.VarName := "";
                  collector.Type_ := "";
                  collector.FormatVerb := ""; collector.SuggestedKey := "" |}).
  destruct (Hpairs 0%nat none (Ident "") ltac:(simpl; lia)) as (_ & Hname & _ & Hs).
  destruct (Hpairs 1%nat none (Ident "") ltac:(simpl; lia)) as (_ & Hscore & _ & Hf).
  destruct (Hpairs 2%nat none (Ident "") ltac:(simpl; lia)) as (_ & Hround & _ & Hnone).
  intros candidates. subst candidates.
  destruct (snd (collector.extractLogDetails scoredCall)) as [|a [|b [|c [|]]]];
    try discriminate Hlength.
  simpl in *. repeat split; [exact Hverbs | | | exact Hcount]; congruence.
Defined.

(** * The report of a dry run *)

(** ** The preview of a change *)









Section Preview.
Context `{transformer.Env}.



Variables (filePath : string) (updateMap : gmap string transformer.LogUpdate)
  (config : transformer.TemplateConfig) (autoMap : bool).



End Preview.


Section DryRunOutput.
Context `{GoParser} `{transformer.Env}.





End DryRunOutput.




(** * A template that fails *)

(** With the custom style, when the template fails on the row of a call,
    the visitor writes the warning with the row's identifier and the error
    and changes nothing else.  The walk over the file goes on: it edits the
    content, records the modifications and panics or not exactly as the
    walk over the file without that call does, its warnings contain the
    warning, and what [transformFile] does after the walk (the files it
    writes, what it prints, the error it returns to the loop over the
    files) is the same for both walks. *)
Lemma failing_row_is_passed_over `{GoParser} `{transformer.Env}
  (filePath : string) (updateMap : gmap string transformer.LogUpdate)
  (config : transformer.TemplateConfig) (dryRun autoMap : bool)
  (before after : list Expr) (call : Expr) (update : transformer.LogUpdate) (err : string)
  (st : transformer.Patch) :
  transformer.Style config = "custom" ->
  updateMap !! transformer.posKey (Line (callPos call)) (Column (callPos call)) = Some update ->
  transformer.generateCustomCall (transformer.Template config) (transformer.LoggerVar config)
    (transformer.LogLevel update) (transformer.resolveMessage update)
    (transformer.resolveFields update autoMap) = Err err ->
  let walk := transformer.inspect filePath updateMap config dryRun autoMap in
  transformer.visit filePath updateMap config dryRun autoMap call st
  = Some (withWarning (generationWarning update err) st)
  /\ sameEdits (fst (walk (before ++ call :: after) st)) (fst (walk (before ++ after) st))
  /\ snd (walk (before ++ call :: after) st) = snd (walk (before ++ after) st)
  /\ (snd (walk before st) = false ->
      generationWarning update err ∈ transformer.warnings (fst (walk (before ++ call :: after) st)))
  /\ (forall w,
        let r := transformer.finishFile w filePath dryRun (walk (before ++ call :: after) st) in
        let r' := transformer.finishFile w filePath dryRun (walk (before ++ after) st) in
        untouched (fst r) (fst r') /\ stdout (fst r) = stdout (fst r') /\ snd r = snd r').
Proof.
  intros Hstyle Hlookup Htemplate walk.
  assert (Hgen : transformer.generateStructuredLogCall update config autoMap = Err err)
    by now rewrite custom_style_generation.
  pose proof (visit_failure filePath config dryRun autoMap updateMap call update err) as Hvisit.
  split; [now apply Hvisit|]. subst walk. cbv beta.
  rewrite !inspect_app. cbv zeta.
  destruct (transformer.inspect filePath updateMap config dryRun autoMap before st)
    as [st1 panicked]; simpl fst; simpl snd.
  destruct panicked.
  - repeat split. discriminate.
  - simpl. rewrite (Hvisit st1 Hlookup Hgen).
    pose proof (inspect_sameEdits filePath config dryRun autoMap updateMap after
                  (withWarning (generationWarning update err) st1) st1) as Hsame.
    cbv zeta in Hsame. destruct Hsame as [Hedits Hpanic]; [repeat split|].
    split; [exact Hedits|]. split; [exact Hpanic|]. split.
    + intros _. apply inspect_keeps_warnings. simpl. apply elem_of_app. right. constructor.
    + intros w.
      destruct (transformer.inspect filePath updateMap config dryRun autoMap after
                  (withWarning (generationWarning update err) st1)) as [st2 p2].
      destruct (transformer.inspect filePath updateMap config dryRun autoMap after st1)
        as [st2' p2'].
      simpl in Hedits, Hpanic. subst p2'.
      now apply finishFile_sameEdits.
Qed.

(** ** The custom style *)

Section Custom.
Context `{transformer.Env}.
Variables (updateMap : gmap string transformer.LogUpdate) (config : transformer.TemplateConfig)
  (autoMap : bool).
Hypothesis custom : transformer.Style config = "custom".

(** In the custom style the code of a row is what the template gives, and
    a row fails where the template does. *)
Lemma plannedCode_custom (call : Expr) :
  plannedCode updateMap config autoMap call = templateCode updateMap config autoMap call.
Proof.
  unfold plannedCode, templateCode. destruct (updateAt updateMap call) as [update|]; [|reflexivity].
  now rewrite custom_style_generation.
Qed.

Lemma plannedWarning_custom (call : Expr) :
  plannedWarning updateMap config autoMap call = templateWarning updateMap config autoMap call.
Proof.
  unfold plannedWarning, templateWarning.
  destruct (updateAt updateMap call) as [update|]; [|reflexivity].
  now rewrite custom_style_generation.
Qed.

Lemma editedLines_custom (calls : list Expr) :
  editedLines updateMap config autoMap calls = templateLines updateMap config autoMap calls.
Proof.
  unfold editedLines, templateLines. induction calls as [|call rest IH]; [reflexivity|].
  now rewrite !omap_cons, plannedCode_custom, IH.
Qed.

Lemma warnings_custom (calls : list Expr) :
  omap (plannedWarning updateMap config autoMap) calls
  = omap (templateWarning updateMap config autoMap) calls.
Proof.
  induction calls as [|call rest IH]; [reflexivity|].
  now rewrite !omap_cons, plannedWarning_custom, IH.
Qed.

End Custom.

(** Claim C9.  With the custom style, take a file that can be written and
    in which the calls that the template gives code for lie each within
    one line, no two of them on the same line, the code without a line
    feed.  The run on the file ends without error.  It warns on the
    standard error about every call at the position of a row on which the
    template fails, with the identifier of the row and the error, in
    visiting order, and about nothing else.  It writes the file whose
    lines are those of the source with every call that the template gives
    code for replaced by that code and every other line, those of the
    failing rows among them, kept.  The loop over the files goes on with
    the files that follow. *)
Theorem custom_template_failure_is_local `{GoParser} `{transformer.Env} (w : World)
  (filePath : string) (rows : list transformer.LogUpdate) (config : transformer.TemplateConfig)
  (autoMap : bool) (ls : list string) (node : File)
  (others : list (string * list transformer.LogUpdate)) :
  transformer.Style config = "custom" ->
  Forall (absent "010") ls ->
  files w !! filePath = Some (strings.Join ls nl) ->
  ParseFile filePath (strings.Join ls nl) = Ok node ->
  filePath ∉ locked w ->
  let updateMap := transformer.buildUpdateMap rows ∅ in
  Forall (fun call => forall newCode,
            templateCode updateMap config autoMap call = Some newCode ->
            inLine ls call /\ absent "010" newCode) (fileCalls node) ->
  NoDup (templateLines updateMap config autoMap (fileCalls node)) ->
  let r := transformer.transformFile w filePath rows config false autoMap in
  exists ls',
    snd r = transformer.Done
    /\ stderr (fst r)
       = (stderr w ++ omap (templateWarning updateMap config autoMap) (fileCalls node))%list
    /\ files (fst r) = <[filePath := strings.Join ls' nl]> (files w)
    /\ (forall call newCode,
          call ∈ fileCalls node -> templateCode updateMap config autoMap call = Some newCode ->
          ls' !! lineIndex call = splice call newCode <$> ls !! lineIndex call)
    /\ (forall i, i ∉ templateLines updateMap config autoMap (fileCalls node) ->
                  ls' !! i = ls !! i)
    /\ transformer.transformFiles w ((filePath, rows) :: others) config false autoMap
       = transformer.transformFiles (fst r) others config false autoMap.
Proof.
  intros Hstyle Hls Hfile Hparse Hfree updateMap Hplaced Hdup r.
  assert (Hplaced' : placed updateMap config autoMap ls (fileCalls node)).
  { unfold placed. eapply Forall_impl; [exact Hplaced|]. intros call Hcall newCode.
    rewrite (plannedCode_custom updateMap config autoMap Hstyle). apply Hcall. }
  rewrite <- (editedLines_custom updateMap config autoMap Hstyle) in Hdup.
  destruct (inspect_separate_lines filePath updateMap config autoMap (fileCalls node) ls
              {| transformer.content := strings.Join ls nl; transformer.modifications := [];
                 transformer.modified := false; transformer.warnings := [] |}
              Hls eq_refl Hplaced' Hdup)
    as (st' & ls' & Hwalk & Hcontent & _ & Hflag & Hedited & Hkept).
  destruct (inspect_report _ _ _ _ _ _ _ _ Hwalk) as [_ Hwarnings].
  cbn [transformer.warnings app] in Hwarnings.
  rewrite (warnings_custom updateMap config autoMap Hstyle) in Hwarnings.
  assert (Hrun : r = transformer.finishFile w filePath false (st', false)).
  { subst r. unfold transformer.transformFile, readFile. rewrite Hfile, Hparse. cbv zeta.
    fold updateMap. now rewrite Hwalk. }
  assert (Hresult : snd r = transformer.Done
                    /\ stderr (fst r) = (stderr w ++ transformer.warnings st')%list
                    /\ files (fst r) = <[filePath := strings.Join ls' nl]> (files w)).
  { rewrite Hrun. unfold transformer.finishFile. rewrite Hflag. cbn [orb negb andb].
    rewrite andb_true_r.
    destruct (bool_decide_reflect (editedLines updateMap config autoMap (fileCalls node) = []))
      as [Hnone|Hsome]; cbn [negb].
    - assert (ls' = ls) as ->.
      { apply list_eq. intros i. apply Hkept. rewrite Hnone. apply not_elem_of_nil. }
      rewrite andb_false_r.
      cbn [snd fst transformer.warnAll transformer.printModifications files stderr].
      split; [reflexivity|]. split; [reflexivity|]. now rewrite insert_id.
    - unfold writeFile. cbn [locked transformer.warnAll transformer.printModifications].
      destruct (decide (filePath ∈ locked w)) as [Hlocked|_]; [contradiction|].
      cbn [fst snd files stderr print]. rewrite Hcontent. auto. }
  destruct Hresult as (Hdone & Herr & Hfiles).
  exists ls'. split; [exact Hdone|]. split; [now rewrite Herr, Hwarnings|].
  split; [exact Hfiles|]. split; [|split].
  - intros call newCode Hin Hcode. apply Hedited; [exact Hin|].
    now rewrite (plannedCode_custom updateMap config autoMap Hstyle).
  - intros i Hi. apply Hkept.
    now rewrite (editedLines_custom updateMap config autoMap Hstyle).
  - cbn [transformer.transformFiles]. fold r. destruct r as [w' status].
    simpl in Hdone. now subst status.
Qed.

(** A file of two calls under a template that takes the expression of the
    second field: the row of the first call has no field, the row of the
    second has two. *)
Lemma custom_template_failure_is_local_witness :
  let r := transformer.transformFile (H := mixedParser) (H0 := plainEnv) mixedWorld "main.go"
             [plainUpdate; countUpdate] indexConfig false true in
  templateCode (H := plainEnv) mixedUpdates indexConfig true plainCall = None
  /\ templateCode (H := plainEnv) mixedUpdates indexConfig true countCall
     = Some "logger.Log(n)"
  /\ snd r = transformer.Done
  /\ stderr (fst r)
     = ["Warning: failed to generate code for LOG-0001: template: log:1:19: executing " +:+ dq
        +:+ "log" +:+ dq
        +:+ " at <index .Fields 1>: error calling index: index out of range: 1" +:+ nl]
  /\ files (fst r) !! "main.go" = Some (strings.Join mixedEdited nl).
Proof.
  assert (Hlines : Forall (absent "010") mixedLines) by (repeat constructor).
  assert (Hfile : files mixedWorld !! "main.go" = Some (strings.Join mixedLines nl))
    by reflexivity.
  assert (Hparse : ParseFile (GoParser := mixedParser) "main.go" (strings.Join mixedLines nl)
                   = Ok mixedFile) by reflexivity.
  assert (Hfree : "main.go" ∉ locked mixedWorld) by apply not_elem_of_empty.
  assert (Hnone : templateCode (H := plainEnv) mixedUpdates indexConfig true plainCall = None)
    by (vm_compute; reflexivity).
  assert (Hcode : templateCode (H := plainEnv) mixedUpdates indexConfig true countCall
                  = Some "logger.Log(n)") by (vm_compute; reflexivity).
  assert (Hplaced : Forall (fun call => forall newCode,
                              templateCode (H := plainEnv) mixedUpdates indexConfig true call
                              = Some newCode ->
                              inLine mixedLines call /\ absent "010" newCode)
                      (fileCalls mixedFile)).
  { change (fileCalls mixedFile) with [plainCall; countCall].
    constructor; [|constructor; [|constructor]]; intros newCode Hnew.
    - rewrite Hnone in Hnew. discriminate Hnew.
    - rewrite Hcode in Hnew. injection Hnew as <-. split; [|reflexivity].
      split; [reflexivity|]. split; [vm_compute; discriminate|].
      exists ("  log.Printf(" +:+ dq +:+ "%v %d" +:+ dq +:+ ", err, n)").
      split; [reflexivity|]. split; vm_compute; split; discriminate. }
  assert (Hedits : templateLines (H := plainEnv) mixedUpdates indexConfig true
                     (fileCalls mixedFile) = [3%nat]) by (vm_compute; reflexivity).
  assert (Hdup : NoDup (templateLines (H := plainEnv) mixedUpdates indexConfig true
                          (fileCalls mixedFile)))
    by (rewrite Hedits; apply NoDup_singleton).
  destruct (custom_template_failure_is_local (H := mixedParser) (H0 := plainEnv) mixedWorld
              "main.go" [plainUpdate; countUpdate] indexConfig true mixedLines mixedFile []
              eq_refl Hlines Hfile Hparse Hfree Hplaced Hdup)
    as (ls' & Hdone & Herr & Hfiles & Hedited & Hkept & _).
  intros r. split; [exact Hnone|]. split; [exact Hcode|]. split; [exact Hdone|].
  split; [exact Herr|].
  assert (Hlines' : ls' = mixedEdited).
  { unfold mixedUpdates in Hedits. rewrite Hedits in Hkept. apply list_eq. intros i.
    destruct (decide (i = 3%nat)) as [-> |Hi].
    - pose proof (Hedited countCall _ (list_elem_of_further _ _ _ (list_elem_of_here _ _))
                    Hcode) as Hline.
      vm_compute in Hline |- *. exact Hline.
    - rewrite Hkept.
      + destruct i as [|[|[|[|[|[|i]]]]]]; try (vm_compute; reflexivity). now destruct Hi.
      + intros Hin. apply list_elem_of_singleton in Hin. contradiction. }
  subst ls'. etrans; [exact (f_equal (fun m => m !! "main.go") Hfiles)|].
  apply lookup_insert_eq.
Defined.

(** A template that refers to a key that the data does not hold does not
    fail: the row is applied, and its code holds [<no value>].  A template
    that refers to a variable that is not defined does not parse: every
    row of the run fails and no call is replaced. *)
Lemma undefined_reference_is_not_local :
  let missing := transformer.transformFile (H := parser) (H0 := plainEnv) sources "main.go"
                   [firstUpdate] (styleConfig "custom") false true in
  let unparsed := transformer.transformFile (H := mixedParser) (H0 := plainEnv) mixedWorld
                    "main.go" [plainUpdate; countUpdate] variableConfig false true in
  transformer.Template (styleConfig "custom") = "{{.Logger}}.Log({{.Missing.Field}})"
  /\ snd missing = transformer.Done
  /\ stderr (fst missing) = []
  /\ files (fst missing) !! "main.go" = Some (strings.Join noValueEdited nl)
  /\ snd unparsed = transformer.Done
  /\ stderr (fst unparsed)
     = ["Warning: failed to generate code for LOG-0001: template: log:1: undefined variable "
        +:+ dq +:+ "$undefined" +:+ dq +:+ nl;
        "Warning: failed to generate code for LOG-0002: template: log:1: undefined variable "
        +:+ dq +:+ "$undefined" +:+ dq +:+ nl]
  /\ files (fst unparsed) = files mixedWorld
  /\ writes (fst unparsed) = [].
Proof. intros missing unparsed. repeat split; vm_compute; reflexivity. Qed.

(** * The rows of the catalog *)

(** The reader requires of every record the number of fields of the first
    one. *)
Lemma endRecord_sameFieldCount (records records' : list (list string)) (rec : list string)
  (startLine : Z) :
  sameFieldCount records -> golib.endRecord records rec startLine = Ok records' ->
  sameFieldCount records'.
Proof.
  unfold sameFieldCount, golib.endRecord. intros Hsame Hend.
  destruct records as [|first rest].
  - injection Hend as <-. now constructor.
  - destruct (Nat.eqb_spec (List.length rec) (List.length first)) as [Hlength|]; [|discriminate].
    injection Hend as <-. simpl in *.
    apply (proj2 (Forall_app _ (first :: rest) [rec])). split; [exact Hsame|].
    now constructor.
Qed.

Lemma readRecords_sameFieldCount (s : string) :
  forall mode records fields field startLine line column records',
    sameFieldCount records ->
    golib.readRecords s mode records fields field startLine line column = Ok records' ->
    sameFieldCount records'.
Proof.
  induction s as [|c r IH]; intros mode records fields field startLine line column records'
    Hsame Hread.
  - destruct mode; simpl in Hread;
      try (injection Hread as <-; exact Hsame); try discriminate;
      eapply endRecord_sameFieldCount; eauto.
  - destruct mode; cbn [golib.readRecords] in Hread; cbv zeta in Hread;
      repeat match type of Hread with
             | context [if ?b then _ else _] => destruct b
             | context [match golib.endRecord ?a ?b ?c with _ => _ end] =>
                 let Hend := fresh "Hend" in
                 destruct (golib.endRecord a b c) eqn:Hend; [|discriminate];
                 apply endRecord_sameFieldCount in Hend; [|exact Hsame]
             end;
      try discriminate; eapply IH; eauto.
Qed.

Lemma ReadAll_sameFieldCount (text : string) (records : list (list string)) :
  golib.ReadAll text = Ok records -> sameFieldCount records.
Proof.
  unfold golib.ReadAll. apply readRecords_sameFieldCount. constructor.
Qed.




